(** * The authentication routes of the resume service

    A shallow embedding of [server/src/routes/auth.js] (the Express router:
    CSRF cache, register, login, verify-otp, verify-token, refresh-token)
    and of [server/src/models/Otp.js] (the OTP collection with its TTL
    index), of the two rate limiters that [server/src/index.js] mounts in
    front of the router, and of the web client's CSRF service, session hook
    and login page, followed by the properties of the second-factor
    protocol.

    Conventions of the model.
    - Time is [Date.now()]: an integer number of milliseconds, kept in the
      state and moved forward by the event [Advance].
    - The in-process [Map] is a [gmap]; the Mongo collections are lists in
      insertion order; [setTimeout] callbacks are a list of pending timers.
    - Randomness, the mail transport and store-assigned ids are inputs of the
      request that consumes them.
    - The server is modelled twice. In [step] and [run] a handler runs from
      its first line to its response with nothing in between; in [istep] and
      [irun] it stops at each [await] and other requests are served before
      it resumes. The first is the second on the schedules that serve one
      request at a time ([irun_serial]). *)

From Stdlib Require Import ZArith NArith String Ascii List Lia.
From stdpp Require Import base option list strings gmap pretty.
Import ListNotations.

Local Open Scope Z_scope.
Local Open Scope string_scope.

(** ** JavaScript values that are a string or [undefined] *)

Module Js.
Definition nonempty (s : string) : bool :=
  match s with EmptyString => false | String _ _ => true end.

(** Truthiness: [undefined] and the empty string are falsy. *)
Definition truthy (v : option string) : bool :=
  match v with Some s => nonempty s | None => false end.

(** [a || b]. *)
Definition oror (a b : option string) : option string :=
  if truthy a then a else b.

(** [a || s] where [s] is a string. *)
Definition oror_str (a : option string) (s : string) : string :=
  match a with
  | Some x => if nonempty x then x else s
  | None => s
  end.

(** [a !== b]. *)
Definition strict_ne (a b : option string) : bool :=
  negb (bool_decide (a = b)).
End Js.

(** ** Documents *)

(** The [User] model. Its schema file is not among the sources; the router
    uses the fields below and the calls [findOne({email})], [findById] and
    [create]. *)
Module User.
Record t := mk { _id : string; name : string; email : string; passwordHash : string }.

Definition findOne (e : string) (c : list t) : option t :=
  List.find (fun u => bool_decide (email u = e)) c.

(** [findById(id)]. Mongoose turns [findById(undefined)] into the filter
    [{_id: null}], which no stored document satisfies. *)
Definition findById (id : option string) (c : list t) : option t :=
  match id with
  | Some i => List.find (fun u => bool_decide (_id u = i)) c
  | None => None
  end.

Definition create (u : t) (c : list t) : list t := c ++ [u].
End User.

(** models/Otp.js: [{email, code, createdAt: {default: Date.now, expires: 600}}]. *)
Module Otp.
Record t := mk { email : string; code : string; createdAt : Z }.

(** The [expires] option of [createdAt], in seconds. *)
Definition expires : Z := 600.

Definition has_email (e : string) (r : t) : bool := bool_decide (email r = e).

Definition findOne (e : string) (c : list t) : option t := List.find (has_email e) c.

Definition deleteMany (e : string) (c : list t) : list t :=
  List.filter (fun r => negb (has_email e r)) c.

Definition create (e code : string) (now : Z) (c : list t) : list t :=
  c ++ [mk e code now].

(** A record is past its TTL at [now] when [expires] seconds have gone by
    since [createdAt]. *)
Definition past_ttl (now : Z) (r : t) : bool :=
  (createdAt r + expires * 1000 <=? now)%Z.

(** One pass of the store's TTL monitor, the background task behind the
    [expires] index: it removes the records past their TTL. *)
Definition ttl_pass (now : Z) (c : list t) : list t :=
  List.filter (fun r => negb (past_ttl now r)) c.
End Otp.

(** ** Session tokens *)

(** The payload of a token: [{stage: 'otp', email}] for the pending stage,
    [{sub, email}] for an authenticated session. *)
Record claims := mkClaims { stage : option string; sub : option string; email : string }.

(** A signed token as [jwt.sign] builds it: the payload, [iat] and [exp] in
    seconds, and the secret whose signature it carries. *)
Record jwt := mkJwt { payload : claims; iat : Z; exp : Z; signed_with : string }.

(** What follows [Bearer ] in the header: a token, or text that does not
    parse as one. *)
Inductive token := Jwt (j : jwt) | NotJwt (raw : string).

(** [req.headers.authorization]: [Bearer <token>] or any other text. *)
Inductive authorization := Bearer (t : token) | OtherScheme (raw : string).

Module Jwt.
(** [jwt.sign(payload, secret, {expiresIn: '10m'})] at [now] milliseconds. *)
Definition sign (p : claims) (secret : string) (now : Z) : jwt :=
  let issued := now / 1000 in
  mkJwt p issued (issued + 10 * 60) secret.

(** [jwt.verify(token, secret)]: the decoded payload, or [None] where the
    library throws (not a token, another signature, [exp] reached). *)
Definition verify (t : token) (secret : string) (now : Z) : option jwt :=
  match t with
  | Jwt j =>
      if bool_decide (signed_with j = secret) && (now / 1000 <? exp j)%Z
      then Some j else None
  | NotJwt _ => None
  end.
End Jwt.

(** ** Requests and responses *)

(** [headers] is Node's header table (names in lower case) without
    [authorization], which is kept apart with its token already parsed.
    [body] holds the fields of the JSON body that are strings. *)
Record request := mkRequest {
  headers : gmap string string;
  auth_header : option authorization;
  ip : string;
  body : gmap string string
}.

Record public_user := mkPublic { pu_id : string; pu_name : string; pu_email : string }.

Definition issue : Type := string * string.

Inductive json :=
| JError (error : string)
| JValidation (issues : list issue)
| JOk
| JCsrfToken (csrfToken : string)
| JOtpStep (tempToken : jwt) (previewUrl : option string)
| JSession (tok : jwt) (expiresAt : Z) (user : public_user)
| JValid (user : public_user).

Record response := mkResponse { status : Z; json_body : json }.

(** [res.json(b)] answers 200. *)
Definition res_json (b : json) : response := mkResponse 200 b.
Definition res_error (code : Z) (msg : string) : response := mkResponse code (JError msg).

Definition public (u : User.t) : public_user :=
  mkPublic (User._id u) (User.name u) (User.email u).

(** ** The process and its collaborators *)

(** What the router reads from its environment and from the libraries it
    calls: the signing secret, the Ethereal credentials, zod's e-mail test,
    bcrypt, and the setter of the [User] schema on its [email] path (applied
    by Mongoose to stored documents and to query filters; the identity for a
    plain string path). *)
Record Env := mkEnv {
  JWT_SECRET : string;
  ETHEREAL_USER : option string;
  ETHEREAL_PASS : option string;
  is_email : string -> bool;
  bcrypt_hash : string -> string -> string;
  bcrypt_compare : string -> string -> bool;
  user_email_setter : string -> string
}.

(** Calls to the OTP collection, the mailer and the signer, in the order a
    handler makes them. *)
Inductive call :=
| OtpDeleteMany (email : string)
| OtpCreate (email code : string)
| CreateTestAccount
| SendMail (sender recipient code : string)
| JwtSign (p : claims).

Record state := mkState {
  clock : Z;
  csrfTokens : gmap string string;
  timers : list (Z * string);
  users : list User.t;
  otps : list Otp.t;
  calls : list call
}.

(** ** Handlers as state transformers that may throw *)

Inductive exn :=
| ZodError (errors : list issue)
| Error (message : string).

Inductive outcome (A : Type) :=
| Val (a : A)
| Raise (e : exn).
Arguments Val {A} a.
Arguments Raise {A} e.

Definition M (A : Type) : Type := state -> outcome A * state.

Definition ret {A} (a : A) : M A := fun s => (Val a, s).

Definition throw {A} (e : exn) : M A := fun s => (Raise e, s).

Definition bind {A B} (m : M A) (k : A -> M B) : M B :=
  fun s => match m s with
           | (Val a, s') => k a s'
           | (Raise e, s') => (Raise e, s')
           end.

(** [try { m } catch (err) { h err }]. *)
Definition try_catch {A} (m : M A) (h : exn -> M A) : M A :=
  fun s => match m s with
           | (Val a, s') => (Val a, s')
           | (Raise e, s') => h e s'
           end.

Definition lift {A} (o : outcome A) : M A := fun s => (o, s).

Notation "x <- m ;; k" := (bind m (fun x => k))
  (at level 100, m at next level, right associativity).
Notation "m ;;; k" := (bind m (fun _ => k))
  (at level 100, right associativity).

Definition record_call (c : call) : M unit :=
  fun s => (Val tt, mkState (clock s) (csrfTokens s) (timers s) (users s) (otps s)
                            (calls s ++ [c])).

Definition Date_now : M Z := fun s => (Val (clock s), s).

Definition User_findOne (e : string) : M (option User.t) :=
  fun s => (Val (User.findOne e (users s)), s).

Definition User_findById (id : option string) : M (option User.t) :=
  fun s => (Val (User.findById id (users s)), s).

Definition User_create (u : User.t) : M unit :=
  fun s => (Val tt, mkState (clock s) (csrfTokens s) (timers s)
                            (User.create u (users s)) (otps s) (calls s)).

Definition Otp_findOne (e : string) : M (option Otp.t) :=
  fun s => (Val (Otp.findOne e (otps s)), s).

Definition Otp_deleteMany (e : string) : M unit :=
  record_call (OtpDeleteMany e) ;;;
  fun s => (Val tt, mkState (clock s) (csrfTokens s) (timers s) (users s)
                            (Otp.deleteMany e (otps s)) (calls s)).

Definition Otp_create (e code : string) : M unit :=
  record_call (OtpCreate e code) ;;;
  fun s => (Val tt, mkState (clock s) (csrfTokens s) (timers s) (users s)
                            (Otp.create e code (clock s) (otps s)) (calls s)).

(** ** The CSRF token cache *)

Definition hex_digit (d : N) : ascii :=
  match d with
  | 0 => "0" | 1 => "1" | 2 => "2" | 3 => "3" | 4 => "4" | 5 => "5"
  | 6 => "6" | 7 => "7" | 8 => "8" | 9 => "9" | 10 => "a" | 11 => "b"
  | 12 => "c" | 13 => "d" | 14 => "e" | _ => "f"
  end%N%char.

(** The last [digits] hexadecimal digits of [v], in front of [acc]. *)
Fixpoint hex (digits : nat) (v : N) (acc : string) : string :=
  match digits with
  | O => acc
  | S k => hex k (v / 16)%N (String (hex_digit (v mod 16)%N) acc)
  end.

(** [crypto.randomBytes(32).toString('hex')]: 64 hexadecimal digits; [rnd]
    is the 32 random bytes read as one number. *)
Definition generateCSRFToken (rnd : N) : string :=
  hex 64 (rnd mod 2 ^ 256)%N EmptyString.

(** [req.headers['x-session-id'] || req.headers['X-Session-Id'] || req.ip]. *)
Definition sessionId (req : request) : string :=
  Js.oror_str (Js.oror (headers req !! "x-session-id") (headers req !! "X-Session-Id"))
              (ip req).

(** [req.headers['x-csrf-token'] || req.headers['X-CSRF-Token']]. *)
Definition csrf_header (req : request) : option string :=
  Js.oror (headers req !! "x-csrf-token") (headers req !! "X-CSRF-Token").

(** The middleware [validateCSRF(req, res, next)]. *)
Definition validateCSRF (req : request) (next : M response) : M response :=
  fun s =>
    let token := csrf_header req in
    if negb (Js.truthy token) then (Val (res_error 403 "CSRF token required"), s)
    else
      let storedToken := csrfTokens s !! sessionId req in
      if negb (Js.truthy storedToken) || Js.strict_ne storedToken token
      then (Val (res_error 403 "Invalid CSRF token"), s)
      else next s.

(** The lifetime given to [setTimeout] in the csrf-token route. *)
Definition CSRF_TTL : Z := 5 * 60 * 1000.

(** [router.get('/csrf-token')]: store the token and leave a timer that
    deletes the session's entry. *)
Definition get_csrf_token (rnd : N) (req : request) : M response :=
  fun s =>
    let token := generateCSRFToken rnd in
    (Val (res_json (JCsrfToken token)),
     mkState (clock s) (<[sessionId req := token]> (csrfTokens s))
             (timers s ++ [(clock s + CSRF_TTL, sessionId req)])
             (users s) (otps s) (calls s)).

(** A timer is due once its time has come. *)
Definition due (now : Z) (tm : Z * string) : bool := (tm.1 <=? now)%Z.

(** The callback of a timer: [csrfTokens.delete(sessionId)]. *)
Definition fire (tm : Z * string) (m : gmap string string) : gmap string string :=
  delete tm.2 m.

(** The clock reaches [t]: the event loop runs every callback that is due
    before it serves the next request. *)
Definition advance (t : Z) (s : state) : state :=
  let now := Z.max (clock s) t in
  mkState now
          (foldr fire (csrfTokens s) (List.filter (due now) (timers s)))
          (List.filter (fun tm => negb (due now tm)) (timers s))
          (users s) (otps s) (calls s).

(** The store's TTL monitor visits the OTP collection. *)
Definition ttl_pass (s : state) : state :=
  mkState (clock s) (csrfTokens s) (timers s) (users s)
          (Otp.ttl_pass (clock s) (otps s)) (calls s).

(** An account leaves the credential store (outside this router). *)
Definition drop_user (id : string) (s : state) : state :=
  mkState (clock s) (csrfTokens s) (timers s)
          (List.filter (fun u => negb (bool_decide (User._id u = id))) (users s))
          (otps s) (calls s).

(** ** Request schemas (zod) *)

(** One [z.string()] field with one refinement: an issue when the field is
    not a string, or when the refinement fails. *)
Definition z_string (b : gmap string string) (path : string)
    (ok : string -> bool) (msg : string) : list issue :=
  match b !! path with
  | None => [(path, "Required")]
  | Some v => if ok v then [] else [(path, msg)]
  end.

Definition min_length (n : nat) (v : string) : bool := (n <=? String.length v)%nat.

Definition field (b : gmap string string) (path : string) : string :=
  default EmptyString (b !! path).

Definition parsed {A} (errors : list issue) (a : A) : outcome A :=
  match errors with
  | [] => Val a
  | _ => Raise (ZodError errors)
  end.

(** [otp_code rnd] is [String(Math.floor(100000 + Math.random() * 900000))]
    where [rnd] stands for the integer part of [Math.random() * 900000]. *)
Definition otp_code (rnd : N) : string := pretty (100000 + rnd mod 900000)%N.

(** [Date.now() + 10 * 60 * 1000]. *)
Definition SESSION_MS : Z := 10 * 60 * 1000.

(** The payload login signs: [{ stage: 'otp', email }]. *)
Definition pending_payload (e : string) : claims := mkClaims (Some "otp") None e.

(** The payload verify-otp and refresh-token sign:
    [{ sub: user._id.toString(), email: user.email }]. *)
Definition session_payload (u : User.t) : claims :=
  mkClaims None (Some (User._id u)) (User.email u).

(** The request presents, for its session, the token the cache holds. *)
Definition presents_live_token (req : request) (s : state) : Prop :=
  exists tok, Js.nonempty tok = true
              /\ csrf_header req = Some tok
              /\ csrfTokens s !! sessionId req = Some tok.

(** ** The routes *)

Section Router.
Variable E : Env.

Definition registerSchema (b : gmap string string) : outcome (string * string * string) :=
  parsed (z_string b "name" (min_length 2) "Name must be at least 2 characters"
          ++ z_string b "email" (is_email E) "Please enter a valid email"
          ++ z_string b "password" (min_length 6) "Password must be at least 6 characters")
         (field b "name", field b "email", field b "password").

Definition loginSchema (b : gmap string string) : outcome (string * string) :=
  parsed (z_string b "email" (is_email E) "Please enter a valid email"
          ++ z_string b "password" (min_length 6) "Password must be at least 6 characters")
         (field b "email", field b "password").

Definition verifyOtpSchema (b : gmap string string) : outcome (string * string) :=
  parsed (z_string b "email" (is_email E) "Please enter a valid email"
          ++ z_string b "code" (min_length 4) "Invalid code")
         (field b "email", field b "code").

(** The [catch] block shared by register, login and verify-otp. *)
Definition on_error (e : exn) : M response :=
  match e with
  | ZodError errors => ret (mkResponse 400 (JValidation errors))
  | Error _ => ret (res_error 400 "Request failed")
  end.

(** [User.findOne({ email })], the filter cast by the schema. *)
Definition User_findOne_email (e : string) : M (option User.t) :=
  User_findOne (user_email_setter E e).

Definition jwt_sign (p : claims) : M jwt :=
  record_call (JwtSign p) ;;;
  fun s => (Val (Jwt.sign p (JWT_SECRET E) (clock s)), s).

(** [process.env.ETHEREAL_USER && process.env.ETHEREAL_PASS]. *)
Definition ethereal_configured : bool :=
  Js.truthy (ETHEREAL_USER E) && Js.truthy (ETHEREAL_PASS E).

(** [createEtherealTransporter()]: the configured account, or a test account
    asked from Ethereal ([acct], [None] when that call fails). The result is
    the sender address. *)
Definition createEtherealTransporter (acct : option string) : M string :=
  if ethereal_configured
  then ret (default EmptyString (ETHEREAL_USER E))
  else record_call CreateTestAccount ;;;
       match acct with
       | Some user => ret user
       | None => throw (Error "createTestAccount failed")
       end.

(** [transporter.sendMail(...)] followed by [getTestMessageUrl]: [sent] is
    [None] when the dispatch fails, else the preview reference if any. *)
Definition sendMail (sender recipient code : string) (sent : option (option string))
    : M (option string) :=
  record_call (SendMail sender recipient code) ;;;
  match sent with
  | Some previewUrl => ret previewUrl
  | None => throw (Error "sendMail failed")
  end.

(** The handler of [router.post('/register', validateCSRF, ...)]; [oid] is
    the id the store assigns and [salt] the salt bcrypt draws. *)
Definition register_handler (oid salt : string) (req : request) : M response :=
    (try_catch
       (f <- lift (registerSchema (body req)) ;;
        let '(name, email, password) := f in
        existing <- User_findOne_email email ;;
        match existing with
        | Some _ => ret (res_error 409 "Email already in use")
        | None =>
            let passwordHash := bcrypt_hash E salt password in
            User_create (User.mk oid name (user_email_setter E email) passwordHash) ;;;
            ret (mkResponse 201 JOk)
        end)
       on_error).

(** The handler of [router.post('/login', validateCSRF, ...)]. *)
Definition login_handler (rnd : N) (acct : option string) (sent : option (option string))
    (req : request) : M response :=
    (try_catch
       (f <- lift (loginSchema (body req)) ;;
        let '(email, password) := f in
        user <- User_findOne_email email ;;
        match user with
        | None => ret (res_error 401 "Invalid email or password")
        | Some u =>
            if negb (bcrypt_compare E password (User.passwordHash u))
            then ret (res_error 401 "Invalid email or password")
            else
              let code := otp_code rnd in
              Otp_deleteMany email ;;;
              Otp_create email code ;;;
              sender <- createEtherealTransporter acct ;;
              previewUrl <- sendMail sender email code sent ;;
              tempToken <- jwt_sign (pending_payload email) ;;
              ret (res_json (JOtpStep tempToken previewUrl))
        end)
       on_error).

(** The handler of [router.post('/verify-otp', validateCSRF, ...)]. *)
Definition verify_otp_handler (req : request) : M response :=
    (try_catch
       (f <- lift (verifyOtpSchema (body req)) ;;
        let '(email, code) := f in
        record <- Otp_findOne email ;;
        match record with
        | None => ret (res_error 401 "Invalid or expired code")
        | Some r =>
            if negb (bool_decide (Otp.code r = code))
            then ret (res_error 401 "Invalid or expired code")
            else
              Otp_deleteMany email ;;;
              user <- User_findOne_email email ;;
              match user with
              | None => ret (res_error 404 "User not found")
              | Some u =>
                  token <- jwt_sign (session_payload u) ;;
                  now <- Date_now ;;
                  ret (res_json (JSession token (now + SESSION_MS) (public u)))
              end
        end)
       on_error).

(** The three routes behind [validateCSRF]. *)
Definition post_register (oid salt : string) (req : request) : M response :=
  validateCSRF req (register_handler oid salt req).

Definition post_login (rnd : N) (acct : option string) (sent : option (option string))
    (req : request) : M response :=
  validateCSRF req (login_handler rnd acct sent req).

Definition post_verify_otp (req : request) : M response :=
  validateCSRF req (verify_otp_handler req).

(** The middleware [verifyToken(req, res, next)]; [next] receives [req.user]. *)
Definition verifyToken (req : request) (next : jwt -> M response) : M response :=
  match auth_header req with
  | Some (Bearer token) =>
      now <- Date_now ;;
      match Jwt.verify token (JWT_SECRET E) now with
      | Some decoded => next decoded
      | None => ret (res_error 401 "Invalid or expired token")
      end
  | _ => ret (res_error 401 "No token provided")
  end.

(** The handler of [router.post('/verify-token', verifyToken, ...)]. *)
Definition verify_token_handler (decoded : jwt) : M response :=
    try_catch
      (user <- User_findById (sub (payload decoded)) ;;
       match user with
       | None => ret (res_error 404 "User not found")
       | Some u => ret (res_json (JValid (public u)))
       end)
      (fun _ => ret (res_error 400 "Token verification failed")).

(** The handler of [router.post('/refresh-token', verifyToken, ...)]. *)
Definition refresh_token_handler (decoded : jwt) : M response :=
    try_catch
      (user <- User_findById (sub (payload decoded)) ;;
       match user with
       | None => ret (res_error 404 "User not found")
       | Some u =>
           token <- jwt_sign (session_payload u) ;;
           now <- Date_now ;;
           ret (res_json (JSession token (now + SESSION_MS) (public u)))
       end)
      (fun _ => ret (res_error 400 "Token refresh failed")).

(** The two routes behind [verifyToken]. *)
Definition post_verify_token (req : request) : M response :=
  verifyToken req verify_token_handler.

Definition post_refresh_token (req : request) : M response :=
  verifyToken req refresh_token_handler.

(** ** The server as a transition system *)

Inductive event :=
| Advance (t : Z)
| TtlPass
| DropUser (id : string)
| GetCsrfToken (rnd : N) (req : request)
| PostRegister (oid salt : string) (req : request)
| PostLogin (rnd : N) (acct : option string) (sent : option (option string)) (req : request)
| PostVerifyOtp (req : request)
| PostVerifyToken (req : request)
| PostRefreshToken (req : request).

(** The handler an event starts, if it is a request. *)
Definition handler (ev : event) : option (M response) :=
  match ev with
  | Advance _ | TtlPass | DropUser _ => None
  | GetCsrfToken rnd req => Some (get_csrf_token rnd req)
  | PostRegister oid salt req => Some (post_register oid salt req)
  | PostLogin rnd acct sent req => Some (post_login rnd acct sent req)
  | PostVerifyOtp req => Some (post_verify_otp req)
  | PostVerifyToken req => Some (post_verify_token req)
  | PostRefreshToken req => Some (post_refresh_token req)
  end.

(** The response a handler sends from state [s]; an exception that leaves a
    handler reaches Express's own error handler. *)
Definition answer (m : M response) (s : state) : response :=
  match (m s).1 with
  | Val r => r
  | Raise _ => res_error 500 "Internal Server Error"
  end.

(** The state a handler leaves behind. *)
Definition after (m : M response) (s : state) : state := (m s).2.

Definition step (s : state) (ev : event) : state :=
  match ev with
  | Advance t => advance t s
  | TtlPass => ttl_pass s
  | DropUser id => drop_user id s
  | _ => match handler ev with
         | Some m => after m s
         | None => s
         end
  end.

Definition run (evs : list event) (s : state) : state := foldl step s evs.

(** The process at start-up, at time [t0]: an empty CSRF cache, no timer, no
    OTP record, the accounts [us]. *)
Definition boot (t0 : Z) (us : list User.t) : state :=
  mkState t0 ∅ [] us [] [].

End Router.

(** ** A concrete instance, to run the model on examples *)

Fixpoint has_at (s : string) : bool :=
  match s with
  | EmptyString => false
  | String c r => if Ascii.eqb c "@"%char then true else has_at r
  end.

(** A development secret, no Ethereal credentials, an e-mail test that looks
    for [@], a hash that is the salt followed by the password, and a [User]
    schema that stores the address as given. *)
Definition toyEnv : Env :=
  mkEnv "dev-fallback-secret-0123456789abcdef" None None has_at
        (fun salt pw => String.append salt pw)
        (fun pw h => bool_decide (h = String.append "s1:" pw))
        (fun e => e).

Definition ann : User.t := User.mk "u1" "Ann" "ann@x.com" "s1:secret1".

Definition hdrs (sid tok : string) : gmap string string :=
  <["x-session-id" := sid]> (<["x-csrf-token" := tok]> ∅).

(** A request of session [sid] that presents the CSRF token [tok]. *)
Definition req_of (sid tok : string) (b : gmap string string) : request :=
  mkRequest (hdrs sid tok) None "10.0.0.7" b.

Definition login_body (e p : string) : gmap string string :=
  <["email" := e]> (<["password" := p]> ∅).

Definition otp_body (e c : string) : gmap string string :=
  <["email" := e]> (<["code" := c]> ∅).

(** A request that only names its session (for GET /csrf-token). *)
Definition get_req (sid : string) : request :=
  mkRequest (<["x-session-id" := sid]> ∅) None "10.0.0.7" ∅.

(** A request that carries a bearer token. *)
Definition bearer_req (t : token) : request :=
  mkRequest ∅ (Some (Bearer t)) "10.0.0.7" ∅.

(** The CSRF token drawn from the random number 5, and a scene: session
    [s] fetches that token at time 0 and Ann logs in with it, drawing the
    code 100042. *)
Definition tok5 : string := generateCSRFToken 5.

Definition login_ann (rnd : N) : event :=
  PostLogin rnd (Some "test@ethereal.email") (Some (Some "https://ethereal.email/message/1"))
            (req_of "s" tok5 (login_body "ann@x.com" "secret1")).

Definition verify_ann (code : string) : request :=
  req_of "s" tok5 (otp_body "ann@x.com" code).

Definition scene_csrf : state := run toyEnv [GetCsrfToken 5 (get_req "s")] (boot 0 [ann]).

Definition scene_logged_in : state := run toyEnv [login_ann 42] scene_csrf.

(** A later scene: ten minutes and one millisecond after Ann's login the
    session fetches a new CSRF token; the TTL monitor has not yet run. *)
Definition tok6 : string := generateCSRFToken 6.

Definition scene_late : state :=
  run toyEnv [Advance 600001; GetCsrfToken 6 (get_req "s")] scene_logged_in.

Definition verify_ann_late : request := req_of "s" tok6 (otp_body "ann@x.com" "100042").

(** ** Notions used in the statements *)

(** A computation leaves the part [f] of the state as it found it. *)
Definition keeps {X A : Type} (f : state -> X) (m : M A) : Prop :=
  forall s, f (m s).2 = f s.

(** The clock, the CSRF cache and its timers. *)
Definition cache_of (s : state) : Z * gmap string string * list (Z * string) :=
  (clock s, csrfTokens s, timers s).

(** Every response a computation returns satisfies [P]. *)
Definition answers (P : response -> Prop) (m : M response) : Prop :=
  forall s, match (m s).1 with Val r => P r | Raise _ => True end.

(** The token most recently issued to session [sid] in a run of events. *)
Definition issued_by (sid : string) (acc : option string) (ev : event) : option string :=
  match ev with
  | GetCsrfToken rnd req =>
      if bool_decide (sessionId req = sid) then Some (generateCSRFToken rnd) else acc
  | _ => acc
  end.

Definition last_issued (sid : string) (evs : list event) : option string :=
  foldl (issued_by sid) None evs.

(** The event issues the token [tok] to session [sid]. *)
Definition issues (sid tok : string) (ev : event) : bool :=
  match ev with
  | GetCsrfToken rnd req =>
      bool_decide (sessionId req = sid) && bool_decide (generateCSRFToken rnd = tok)
  | _ => false
  end.

(** Every pending timer is set for a time still to come. *)
Definition timers_ahead (s : state) : Prop :=
  Forall (fun tm : Z * string => (clock s < tm.1)%Z) (timers s).

(** The records of the OTP collection for one e-mail. *)
Definition otp_records (e : string) (c : list Otp.t) : list Otp.t :=
  List.filter (Otp.has_email e) c.

(** ** The signing secret at start-up *)

(** The initialiser of [JWT_SECRET], run once when the router module loads:
    [env_secret] is [process.env.JWT_SECRET], [node_env] is
    [process.env.NODE_ENV], and [rnd] the 32 random bytes of the development
    fallback. It returns the secret or throws. *)
Definition JWT_SECRET_init (env_secret node_env : option string) (rnd : N) : outcome string :=
  if negb (Js.truthy env_secret) then
    if bool_decide (node_env = Some "production")
    then Raise (Error "JWT_SECRET environment variable is required in production")
    else Val (String.append "dev-fallback-secret-" (hex 64 (rnd mod 2 ^ 256)%N EmptyString))
  else
    let secret := default EmptyString env_secret in
    if (String.length secret <? 32)%nat
    then Raise (Error "JWT_SECRET must be at least 32 characters long")
    else Val secret.

(** The body of a registration form. *)
Definition register_body (n e p : string) : gmap string string :=
  <["name" := n]> (<["email" := e]> (<["password" := p]> ∅)).

(** A computation always returns a response, and one that satisfies [P]:
    no exception leaves it. *)
Definition responds (P : response -> Prop) (m : M response) : Prop :=
  forall s, exists r, (m s).1 = Val r /\ P r.

(** The status of a response is one of [codes]. *)
Definition status_in (codes : list Z) (r : response) : Prop := In (status r) codes.

(** ** The web client: services/csrf.ts, hooks/useAuth.ts, pages/Login.tsx

    The client talks to the router through axios. A call resolves with the
    response when its status is 2xx and rejects with it otherwise; the
    limiter and the CORS layer that index.js puts in front of the router are
    taken to let the request through ([submitCreds_via], further down, is
    the page with the limiters in between). Node hands the router the header
    names in lower case. *)

Definition lower_ascii (c : ascii) : ascii :=
  let n := nat_of_ascii c in
  if (65 <=? n)%nat && (n <=? 90)%nat then ascii_of_nat (n + 32) else c.

Fixpoint lower (s : string) : string :=
  match s with
  | EmptyString => EmptyString
  | String c r => String (lower_ascii c) (lower r)
  end.

(** The header table of a request whose headers object is [hs], in the order
    of its keys. *)
Definition node_headers (hs : list (string * string)) : gmap string string :=
  foldl (fun m kv => <[lower kv.1 := kv.2]> m) ∅ hs.

(** axios resolves on a status from 200 to 299. *)
Definition axios_ok (r : response) : bool := (200 <=? status r)%Z && (status r <? 300)%Z.

(** [resp?.error] of a response body. *)
Definition json_error (b : json) : option string :=
  match b with
  | JError msg => Some msg
  | JValidation _ => Some "Validation failed"
  | _ => None
  end.

Module CSRFService.
Record t := mk { authToken : option string; apiToken : option string; sessionId : string }.

(** [generateSessionId()]: [r36] is [Math.random().toString(36).substr(2, 9)]
    and [t36] is [Date.now().toString(36)]. *)
Definition generateSessionId (r36 t36 : string) : string :=
  String.append "session_" (String.append r36 t36).

(** [new CSRFService()]. *)
Definition new (r36 t36 : string) : t := mk None None (generateSessionId r36 t36).

(** [getAuthCSRFToken()] against the router in state [s], from the address
    [addr]; [rnd] is the randomness of the router if it is asked. *)
Definition getAuthCSRFToken (addr : string) (rnd : N) (c : t) (s : state)
    : outcome (option string) * t * state :=
  if Js.truthy (authToken c) then (Val (authToken c), c, s)
  else
    let req := mkRequest (node_headers [("X-Session-Id", sessionId c)]) None addr ∅ in
    let r := answer (get_csrf_token rnd req) s in
    let s' := after (get_csrf_token rnd req) s in
    if axios_ok r then
      let tok := match json_body r with JCsrfToken t => Some t | _ => None end in
      (Val tok, mk tok (apiToken c) (sessionId c), s')
    else (Raise (Error "Failed to get CSRF token"), c, s').

(** [getAuthHeaders()]. *)
Definition getAuthHeaders (c : t) : list (string * string) :=
  ("X-Session-Id", sessionId c)
  :: match authToken c with
     | Some tok => if Js.nonempty tok then [("X-CSRF-Token", tok)] else []
     | None => []
     end.

(** [clearTokens()]. *)
Definition clearTokens (c : t) : t := mk None None (sessionId c).
End CSRFService.

(** The request axios sends for a JSON post with the service's headers. *)
Definition json_post (c : CSRFService.t) (addr : string) (b : gmap string string) : request :=
  mkRequest (node_headers (("Content-Type", "application/json")
                            :: CSRFService.getAuthHeaders c))
            None addr b.

(** hooks/useAuth.ts. [localStorage] holds strings; its three entries are
    kept here as the values they are written from and read back to (the
    token, [JSON.parse] of the user, [parseInt] of the expiry). A session is
    the hook's state, the storage and the route the tab shows. *)
Module Auth.
Record t := mk {
  isAuthenticated : bool;
  user : option public_user;
  token : option jwt;
  expiresAt : option Z
}.

Record storage := mkStorage {
  auth_token : option jwt;
  auth_user : option public_user;
  auth_expires_at : option Z
}.

Record session := mkSession { state : t; store : storage; route : string }.

(** The hook's first state. *)
Definition signed_out : t := mk false None None None.

Definition empty : storage := mkStorage None None None.


(** [logout()]: the three entries are removed, the state is reset, and the
    tab is sent to the login page. *)
Definition logout (x : session) : session := mkSession signed_out empty "/login".

(** The effect that initialises the state from [localStorage] when the page
    loads, at client time [now]. *)
Definition restore (now : Z) (x : session) : session :=
  match auth_token (store x), auth_user (store x), auth_expires_at (store x) with
  | Some tok, Some u, Some expires =>
      if (expires <=? now)%Z then logout x
      else mkSession (mk true (Some u) (Some tok) (Some expires)) (store x) (route x)
  | _, _, _ => x
  end.

(** [checkTokenExpiry()] at client time [now]: its result and the session
    it leaves. *)
Definition checkTokenExpiry (now : Z) (x : session) : bool * session :=
  match expiresAt (state x) with
  | Some expires =>
      if negb (expires =? 0)%Z && (expires <=? now)%Z then (false, logout x)
      else (true, x)
  | None => (true, x)
  end.
End Auth.


(** pages/Login.tsx: the state of the component. *)
Module Login.
Inductive Step := StepCreds | StepOtp.

Record t := mk {
  step : Step;
  email : string;
  password : string;
  otp : string;
  loading : bool;
  error : string;
  previewUrl : string
}.

(** The page as it first renders. *)
Definition initial : t :=
  mk StepCreds EmptyString EmptyString EmptyString false EmptyString EmptyString.

(** What a submit handler leaves of the page: the form fields as they were,
    [loading] off. *)
Definition settle (p : t) (st : Step) (err url : string) : t :=
  mk st (email p) (password p) (otp p) false err url.
End Login.

(** What a browser tab holds: the CSRF service, the login page and the
    session of useAuth. *)
Record client := mkClient {
  csrf : CSRFService.t;
  page : Login.t;
  session : Auth.session
}.

(** [submitCreds]: fetch the CSRF token if none is cached, post the
    credentials, and move to the OTP step on success. *)
Definition submitCreds (E : Env) (addr : string) (rnd_csrf rnd_code : N)
    (acct : option string) (sent : option (option string)) (w : client) (s : state)
    : client * state :=
  let p := page w in
  let '(got, c, s1) := CSRFService.getAuthCSRFToken addr rnd_csrf (csrf w) s in
  match got with
  | Raise _ =>
      (mkClient c (Login.settle p (Login.step p) "Login failed" (Login.previewUrl p))
                (session w), s1)
  | Val _ =>
      let req := json_post c addr (login_body (Login.email p) (Login.password p)) in
      let r := answer (post_login E rnd_code acct sent req) s1 in
      let s2 := after (post_login E rnd_code acct sent req) s1 in
      if axios_ok r then
        let url := match json_body r with
                   | JOtpStep _ u => Js.oror_str u EmptyString
                   | _ => EmptyString
                   end in
        (mkClient c (Login.settle p Login.StepOtp EmptyString url) (session w), s2)
      else
        (mkClient c (Login.settle p (Login.step p)
                                  (Js.oror_str (json_error (json_body r)) "Login failed")
                                  (Login.previewUrl p))
                  (session w), s2)
  end.



(** The user types into the form. *)
Definition type_creds (e p : string) (w : client) : client :=
  mkClient (csrf w)
           (Login.mk (Login.step (page w)) e p (Login.otp (page w)) (Login.loading (page w))
                     (Login.error (page w)) (Login.previewUrl (page w)))
           (session w).


(** The event is a GET /csrf-token of session [sid]. *)
Definition asks_token (sid : string) (ev : event) : bool :=
  match ev with
  | GetCsrfToken _ req => bool_decide (sessionId req = sid)
  | _ => false
  end.

(** [str.padStart(n, c)] for a one-character pad. *)
Fixpoint pad_chars (n : nat) (c : ascii) (s : string) : string :=
  match n with
  | O => s
  | S k => String c (pad_chars k c s)
  end.

Definition padStart (n : nat) (c : ascii) (s : string) : string :=
  pad_chars (n - String.length s) c s.

(** The session countdown of App.tsx and Research.tsx at client time [now]:
    [null] without an expiry, else minutes, a colon and two-digit seconds. *)
Definition timeRemaining (now : Z) (expiresAt : option Z) : option string :=
  match expiresAt with
  | None => None
  | Some e =>
      if (e =? 0)%Z then None
      else
        let remaining := Z.max 0 (e - now) in
        let minutes := (remaining / 60000)%Z in
        let seconds := ((remaining mod 60000) / 1000)%Z in
        Some (String.append (pretty minutes)
                (String.append ":" (padStart 2 "0" (pretty seconds))))
  end.

(** ** Requests in flight

    A handler is an [async] function: it runs until it awaits an operation
    of the store, of bcrypt or of the mailer, and the server serves other
    requests before the handler resumes. The handlers are written here a
    second time as the sequence of operations they ask for, each from the
    same primitive as before; an in-flight request is what is left of that
    sequence. What is synchronous in auth.js (the middlewares, [Date.now],
    [jwt.sign], the whole csrf-token route) never waits. *)

Inductive io : Type -> Type :=
| IoCsrf (req : request) : io (option response)
| IoIssueCsrf (rnd : N) (req : request) : io response
| IoNow : io Z
| IoJwtSign (p : claims) : io jwt
| IoUserFindOne (e : string) : io (option User.t)
| IoUserFindById (id : option string) : io (option User.t)
| IoUserCreate (u : User.t) : io unit
| IoBcryptHash (salt password : string) : io string
| IoBcryptCompare (password hash : string) : io bool
| IoOtpFindOne (e : string) : io (option Otp.t)
| IoOtpDeleteMany (e : string) : io unit
| IoOtpCreate (e code : string) : io unit
| IoTransporter (acct : option string) : io string
| IoSendMail (sender recipient code : string) (sent : option (option string))
    : io (option string).

(** The operations a handler awaits; the others run on the spot. *)
Definition yields {X} (op : io X) : bool :=
  match op with
  | IoCsrf _ | IoIssueCsrf _ _ | IoNow | IoJwtSign _ => false
  | _ => true
  end.

(** What is left of a handler: its response, an exception on its way out, or
    an operation and what follows its outcome. *)
Inductive proc (A : Type) : Type :=
| Return (a : A)
| Throw (e : exn)
| Await {X : Type} (op : io X) (k : outcome X -> proc A).
Arguments Return {A} a.
Arguments Throw {A} e.
Arguments Await {A X} op k.

Fixpoint pbind {A B} (p : proc A) (f : A -> proc B) : proc B :=
  match p with
  | Return a => f a
  | Throw e => Throw e
  | Await op k => Await op (fun o => pbind (k o) f)
  end.

(** [try { p } catch (err) { h err }]: a rejected [await] throws inside the
    block. *)
Fixpoint ptry {A} (p : proc A) (h : exn -> proc A) : proc A :=
  match p with
  | Return a => Return a
  | Throw e => h e
  | Await op k => Await op (fun o => ptry (k o) h)
  end.

Definition plift {A} (o : outcome A) : proc A :=
  match o with
  | Val a => Return a
  | Raise e => Throw e
  end.

Definition await {X} (op : io X) : proc X := Await op plift.

Notation "x <~ p ;; k" := (pbind p (fun x => k))
  (at level 100, p at next level, right associativity).
Notation "p ;;~ k" := (pbind p (fun _ => k))
  (at level 100, right associativity).




(** A request waits at most [n] more times before it has answered. *)
Fixpoint awaits_le {A} (p : proc A) (n : nat) : Prop :=
  match p with
  | Await op k =>
      if yields op
      then match n with
           | O => False
           | S m => forall o, awaits_le (k o) m
           end
      else forall o, awaits_le (k o) n
  | _ => True
  end.


Section Flight.
Variable E : Env.

(** The response [validateCSRF] sends, or [None] when it calls [next()]. *)
Definition csrf_verdict (req : request) (s : state) : option response :=
  match (validateCSRF req (throw (Error "next")) s).1 with
  | Val r => Some r
  | Raise _ => None
  end.

(** One operation against the state. *)
Definition exec {X} (op : io X) : M X :=
  match op in io X return M X with
  | IoCsrf req => fun s => (Val (csrf_verdict req s), s)
  | IoIssueCsrf rnd req => get_csrf_token rnd req
  | IoNow => Date_now
  | IoJwtSign p => jwt_sign E p
  | IoUserFindOne e => User_findOne_email E e
  | IoUserFindById id => User_findById id
  | IoUserCreate u => User_create u
  | IoBcryptHash salt password => ret (bcrypt_hash E salt password)
  | IoBcryptCompare password hash => ret (bcrypt_compare E password hash)
  | IoOtpFindOne e => Otp_findOne e
  | IoOtpDeleteMany e => Otp_deleteMany e
  | IoOtpCreate e code => Otp_create e code
  | IoTransporter acct => createEtherealTransporter E acct
  | IoSendMail sender recipient code sent => sendMail sender recipient code sent
  end.

Definition on_error_proc (e : exn) : proc response :=
  match e with
  | ZodError errors => Return (mkResponse 400 (JValidation errors))
  | Error _ => Return (res_error 400 "Request failed")
  end.

(** [validateCSRF] in front of a handler. *)
Definition gated (req : request) (p : proc response) : proc response :=
  v <~ await (IoCsrf req) ;;
  match v with
  | Some r => Return r
  | None => p
  end.

Definition register_proc (oid salt : string) (req : request) : proc response :=
  ptry
    (f <~ plift (registerSchema E (body req)) ;;
     let '(name, email, password) := f in
     existing <~ await (IoUserFindOne email) ;;
     match existing with
     | Some _ => Return (res_error 409 "Email already in use")
     | None =>
         passwordHash <~ await (IoBcryptHash salt password) ;;
         await (IoUserCreate (User.mk oid name (user_email_setter E email) passwordHash)) ;;~
         Return (mkResponse 201 JOk)
     end)
    on_error_proc.

Definition login_proc (rnd : N) (acct : option string) (sent : option (option string))
    (req : request) : proc response :=
  ptry
    (f <~ plift (loginSchema E (body req)) ;;
     let '(email, password) := f in
     user <~ await (IoUserFindOne email) ;;
     match user with
     | None => Return (res_error 401 "Invalid email or password")
     | Some u =>
         valid <~ await (IoBcryptCompare password (User.passwordHash u)) ;;
         if negb valid
         then Return (res_error 401 "Invalid email or password")
         else
           let code := otp_code rnd in
           await (IoOtpDeleteMany email) ;;~
           await (IoOtpCreate email code) ;;~
           sender <~ await (IoTransporter acct) ;;
           previewUrl <~ await (IoSendMail sender email code sent) ;;
           tempToken <~ await (IoJwtSign (pending_payload email)) ;;
           Return (res_json (JOtpStep tempToken previewUrl))
     end)
    on_error_proc.

Definition verify_otp_proc (req : request) : proc response :=
  ptry
    (f <~ plift (verifyOtpSchema E (body req)) ;;
     let '(email, code) := f in
     record <~ await (IoOtpFindOne email) ;;
     match record with
     | None => Return (res_error 401 "Invalid or expired code")
     | Some r =>
         if negb (bool_decide (Otp.code r = code))
         then Return (res_error 401 "Invalid or expired code")
         else
           await (IoOtpDeleteMany email) ;;~
           user <~ await (IoUserFindOne email) ;;
           match user with
           | None => Return (res_error 404 "User not found")
           | Some u =>
               token <~ await (IoJwtSign (session_payload u)) ;;
               now <~ await IoNow ;;
               Return (res_json (JSession token (now + SESSION_MS) (public u)))
           end
     end)
    on_error_proc.

(** [verifyToken] in front of a handler. *)
Definition verified (req : request) (next : jwt -> proc response) : proc response :=
  match auth_header req with
  | Some (Bearer token) =>
      now <~ await IoNow ;;
      match Jwt.verify token (JWT_SECRET E) now with
      | Some decoded => next decoded
      | None => Return (res_error 401 "Invalid or expired token")
      end
  | _ => Return (res_error 401 "No token provided")
  end.

Definition verify_token_proc (decoded : jwt) : proc response :=
  ptry
    (user <~ await (IoUserFindById (sub (payload decoded))) ;;
     match user with
     | None => Return (res_error 404 "User not found")
     | Some u => Return (res_json (JValid (public u)))
     end)
    (fun _ => Return (res_error 400 "Token verification failed")).

Definition refresh_token_proc (decoded : jwt) : proc response :=
  ptry
    (user <~ await (IoUserFindById (sub (payload decoded))) ;;
     match user with
     | None => Return (res_error 404 "User not found")
     | Some u =>
         token <~ await (IoJwtSign (session_payload u)) ;;
         now <~ await IoNow ;;
         Return (res_json (JSession token (now + SESSION_MS) (public u)))
     end)
    (fun _ => Return (res_error 400 "Token refresh failed")).

(** What a request starts. *)
Definition start (ev : event) : option (proc response) :=
  match ev with
  | Advance _ | TtlPass | DropUser _ => None
  | GetCsrfToken rnd req => Some (await (IoIssueCsrf rnd req))
  | PostRegister oid salt req => Some (gated req (register_proc oid salt req))
  | PostLogin rnd acct sent req => Some (gated req (login_proc rnd acct sent req))
  | PostVerifyOtp req => Some (gated req (verify_otp_proc req))
  | PostVerifyToken req => Some (verified req verify_token_proc)
  | PostRefreshToken req => Some (verified req refresh_token_proc)
  end.

(** A request run from here to its end with nothing in between. *)
Fixpoint complete {A} (p : proc A) (s : state) : outcome A * state :=
  match p with
  | Return a => (Val a, s)
  | Throw e => (Raise e, s)
  | Await op k => let '(o, s') := exec op s in complete (k o) s'
  end.

(** A request runs on until it has to wait. *)
Fixpoint to_await {A} (p : proc A) (s : state) : proc A * state :=
  match p with
  | Await op k =>
      if yields op then (p, s)
      else let '(o, s') := exec op s in to_await (k o) s'
  | _ => (p, s)
  end.

(** The operation a request waits for takes effect and the request runs on
    to its next wait. *)
Definition resume {A} (ps : proc A * state) : proc A * state :=
  match ps.1 with
  | Await op k => let '(o, s') := exec op ps.2 in to_await (k o) s'
  | _ => ps
  end.

(** The server with its requests in flight, in the order they arrived; a
    request that has answered stays in the list with its response. *)
Record istate := mkI { server : state; flight : list (proc response) }.

Inductive ievent :=
| Arrive (ev : event)
| Resume (i : nat).

Definition istep (x : istate) (iev : ievent) : istate :=
  match iev with
  | Arrive ev =>
      match start ev with
      | Some p => let '(p', s') := to_await p (server x) in mkI s' (flight x ++ [p'])
      | None => mkI (step E (server x) ev) (flight x)
      end
  | Resume i =>
      match flight x !! i with
      | Some p => let '(p', s') := resume (p, server x) in mkI s' (<[i := p']> (flight x))
      | None => x
      end
  end.

Definition irun (ievs : list ievent) (x : istate) : istate := foldl istep x ievs.

Definition iboot (t0 : Z) (us : list User.t) : istate := mkI (boot t0 us) [].




(** A request served with nothing in between: it arrives and is resumed
    until it has answered (no handler waits more than six times); [n] is its
    place in the list. *)
Definition serve (ev : event) (n : nat) : list ievent :=
  Arrive ev :: repeat (Resume n) 6.

(** The same for accounts. A registration is about to create an account
    with the stored address [a] from the moment its look-up has found none:
    while it waits for bcrypt, and then for [User.create]. *)
Definition creates_user {X} (a : string) (op : io X) : bool :=
  match op with
  | IoUserCreate u => bool_decide (User.email u = a)
  | _ => false
  end.

Definition hashes {X} (op : io X) : bool :=
  match op with
  | IoBcryptHash _ _ => true
  | _ => false
  end.

Definition about_to_register {A} (a : string) (p : proc A) : bool :=
  match p with
  | Await op k =>
      match op in io X return (outcome X -> proc A) -> bool with
      | IoUserCreate u => fun _ => bool_decide (User.email u = a)
      | IoBcryptHash salt password => fun k' =>
          match k' (Val (bcrypt_hash E salt password)) with
          | Await op' _ => creates_user a op'
          | _ => false
          end
      | _ => fun _ => false
      end k
  | _ => false
  end.

(** The operation was a look-up of the address [a] that found no account. *)
Definition finds_none {X} (a : string) (op : io X) (o : outcome X) : bool :=
  match op in io X return outcome X -> bool with
  | IoUserFindOne e => fun o' =>
      bool_decide (user_email_setter E e = a)
      && match o' with Val None => true | _ => false end
  | _ => fun _ => false
  end o.

(** Wherever a request is about to create an account for [a], it was so
    already and has just had its hash, or has just looked [a] up and found
    none. *)
Fixpoint tame_reg {A} (a : string) (p : proc A) : Prop :=
  match p with
  | Await op k =>
      forall o, tame_reg a (k o)
                /\ (about_to_register a (k o) = true ->
                    hashes op && about_to_register a (Await op k) = true
                    \/ finds_none a op o = true)
  | _ => True
  end.

(** The accounts stored under the address [a]. *)
Definition accounts (a : string) (s : state) : nat :=
  length (List.filter (fun u => bool_decide (User.email u = a)) (users s)).

Definition registrants (a : string) (x : istate) : nat :=
  length (List.filter (about_to_register a) (flight x)).

(** In the schedule [ievs] from [x] there is never more than one request at
    a time between its look-up of [a] and its [User.create]. *)
Fixpoint exclusive_reg (a : string) (ievs : list ievent) (x : istate) : bool :=
  match ievs with
  | [] => true
  | iev :: rest =>
      (registrants a (istep x iev) <=? 1)%nat && exclusive_reg a rest (istep x iev)
  end.

Definition one_account (a : string) (x : istate) : Prop :=
  (accounts a (server x) + registrants a x <= 1)%nat
  /\ Forall (tame_reg a) (flight x).

(** The events served one after the other, each to its end before the
    next; [n] is the number of requests that have arrived before. *)
Fixpoint serial (evs : list event) (n : nat) : list ievent :=
  match evs with
  | [] => []
  | ev :: rest =>
      serve ev n ++ serial rest (match start ev with Some _ => S n | None => n end)
  end.

End Flight.



(** Two registrations of one address that overlap: both have arrived before
    the first looks the address up, and the second looks it up only after
    the first has created the account. *)
Definition staggered_reg : list ievent :=
  [Arrive (GetCsrfToken 5 (get_req "s"));
   Arrive (PostRegister "u2" "s1:" (req_of "s" tok5 (register_body "Bob" "bob@x.com" "secret9")));
   Arrive (PostRegister "u3" "s1:" (req_of "s" tok5 (register_body "Rob" "bob@x.com" "secret8")));
   Resume 1; Resume 1; Resume 1;
   Resume 2; Resume 2].

(** ** The application: index.js

    [app.use(limiter)] counts every request of an address; then
    [app.use('/auth', authLimiter, authRouter)] puts a second limiter in
    front of the router, which with [skipSuccessfulRequests] gives back the
    hits of the requests answered below 400. Both are express-rate-limit
    with its memory store and its default key, [req.ip]; a request over the
    limit is answered 429 with the message as text and goes no further. When
    a window ends is the store's business and an event here. helmet and cors
    add headers to the responses and stop no request of the kinds modelled;
    [express.json] has parsed the body. *)

Module RateLimit.
Record options := mk {
  windowMs : Z;
  max : nat;
  message : string;
  skipSuccessfulRequests : bool
}.

(** The hits of a key in the current window. *)
Definition hits (key : string) (h : gmap string nat) : nat := default 0%nat (h !! key).

Definition increment (key : string) (h : gmap string nat) : gmap string nat := <[key := S (hits key h)]> h.

Definition decrement (key : string) (h : gmap string nat) : gmap string nat :=
  match h !! key with
  | Some (S n) => <[key := n]> h
  | _ => h
  end.

Definition resetKey (key : string) (h : gmap string nat) : gmap string nat := delete key h.

(** The default [requestWasSuccessful]: [res.statusCode < 400]. *)
Definition requestWasSuccessful (r : response) : bool := (status r <? 400)%Z.

(** The request is counted; it is over the limit when its own hit brings
    the count above [max]. *)
Definition over (o : options) (key : string) (h : gmap string nat) : bool :=
  (max o <? hits key (increment key h))%nat.

(** When the response has been sent. *)
Definition finish (o : options) (key : string) (r : response) (h : gmap string nat) : gmap string nat :=
  if skipSuccessfulRequests o && requestWasSuccessful r then decrement key h else h.
End RateLimit.

Definition limiter : RateLimit.options :=
  RateLimit.mk (15 * 60 * 1000) 100
               "Too many requests from this IP, please try again later." false.

Definition authLimiter : RateLimit.options :=
  RateLimit.mk (15 * 60 * 1000) 10
               "Too many authentication attempts, please try again later." true.

(** What the application answers: the router's response, or the 429 of a
    limiter with its message. *)
Inductive reply :=
| Routed (r : response)
| Limited (message : string).

Definition reply_status (r : reply) : Z :=
  match r with
  | Routed r' => status r'
  | Limited _ => 429
  end.

Record application := mkApp {
  limiterHits : gmap string nat;
  authLimiterHits : gmap string nat;
  router : state
}.

(** A request for a route [m] of the router, through the two limiters. *)
Definition app_auth (m : M response) (req : request) (a : application) : reply * application :=
  let key := ip req in
  let h := RateLimit.increment key (limiterHits a) in
  if RateLimit.over limiter key (limiterHits a)
  then (Limited (RateLimit.message limiter), mkApp h (authLimiterHits a) (router a))
  else
    let ah := RateLimit.increment key (authLimiterHits a) in
    if RateLimit.over authLimiter key (authLimiterHits a)
    then (Limited (RateLimit.message authLimiter), mkApp h ah (router a))
    else
      let r := answer m (router a) in
      (Routed r,
       mkApp (RateLimit.finish limiter key r h) (RateLimit.finish authLimiter key r ah)
             (after m (router a))).

(** The request of an event. *)
Definition request_of (ev : event) : option request :=
  match ev with
  | Advance _ | TtlPass | DropUser _ => None
  | GetCsrfToken _ req | PostRegister _ _ req | PostLogin _ _ _ req
  | PostVerifyOtp req | PostVerifyToken req | PostRefreshToken req => Some req
  end.

Inductive app_event :=
| Request (ev : event)
| WindowEnds (key : string)
| AuthWindowEnds (key : string).

Section App.
Variable E : Env.

(** An event at the application: a request goes through the limiters, the
    others concern the router's state alone. *)
Definition app_serve (ev : event) (a : application) : option reply * application :=
  match handler E ev, request_of ev with
  | Some m, Some req => let '(r, a') := app_auth m req a in (Some r, a')
  | _, _ => (None, mkApp (limiterHits a) (authLimiterHits a) (step E (router a) ev))
  end.

Definition app_step (a : application) (aev : app_event) : application :=
  match aev with
  | Request ev => (app_serve ev a).2
  | WindowEnds key =>
      mkApp (RateLimit.resetKey key (limiterHits a)) (authLimiterHits a) (router a)
  | AuthWindowEnds key =>
      mkApp (limiterHits a) (RateLimit.resetKey key (authLimiterHits a)) (router a)
  end.

Definition app_run (aevs : list app_event) (a : application) : application := foldl app_step a aevs.

(** The answers to a list of events served in a row. *)
Fixpoint replies (evs : list event) (a : application) : list (option reply) :=
  match evs with
  | [] => []
  | ev :: rest => (app_serve ev a).1 :: replies rest (app_serve ev a).2
  end.

Definition app_boot (t0 : Z) (us : list User.t) : application := mkApp ∅ ∅ (boot t0 us).

End App.

(** The client against a server reached through [send]: the router alone,
    or the application with its limiters. axios rejects on a 429 as on any
    status outside 2xx; the body of a 429 is text, whose [error] is
    undefined. *)
Definition via_router (m : M response) (req : request) (s : state) : reply * state :=
  (Routed (answer m s), after m s).

Section Via.
Context {S : Type}.
Variable send : M response -> request -> S -> reply * S.

Definition getAuthCSRFToken_via (addr : string) (rnd : N) (c : CSRFService.t) (x : S)
    : outcome (option string) * CSRFService.t * S :=
  if Js.truthy (CSRFService.authToken c) then (Val (CSRFService.authToken c), c, x)
  else
    let req := mkRequest (node_headers [("X-Session-Id", CSRFService.sessionId c)])
                         None addr ∅ in
    let '(r, x') := send (get_csrf_token rnd req) req x in
    match r with
    | Routed r' =>
        if axios_ok r' then
          let tok := match json_body r' with JCsrfToken t => Some t | _ => None end in
          (Val tok, CSRFService.mk tok (CSRFService.apiToken c) (CSRFService.sessionId c), x')
        else (Raise (Error "Failed to get CSRF token"), c, x')
    | Limited _ => (Raise (Error "Failed to get CSRF token"), c, x')
    end.

Definition submitCreds_via (E : Env) (addr : string) (rnd_csrf rnd_code : N)
    (acct : option string) (sent : option (option string)) (w : client) (x : S)
    : client * S :=
  let p := page w in
  let '(got, c, x1) := getAuthCSRFToken_via addr rnd_csrf (csrf w) x in
  match got with
  | Raise _ =>
      (mkClient c (Login.settle p (Login.step p) "Login failed" (Login.previewUrl p))
                (session w), x1)
  | Val _ =>
      let req := json_post c addr (login_body (Login.email p) (Login.password p)) in
      let '(r, x2) := send (post_login E rnd_code acct sent req) req x1 in
      match r with
      | Routed r' =>
          if axios_ok r' then
            let url := match json_body r' with
                       | JOtpStep _ u => Js.oror_str u EmptyString
                       | _ => EmptyString
                       end in
            (mkClient c (Login.settle p Login.StepOtp EmptyString url) (session w), x2)
          else
            (mkClient c (Login.settle p (Login.step p)
                                      (Js.oror_str (json_error (json_body r')) "Login failed")
                                      (Login.previewUrl p))
                      (session w), x2)
      | Limited _ =>
          (mkClient c (Login.settle p (Login.step p) "Login failed" (Login.previewUrl p))
                    (session w), x2)
      end
  end.

End Via.

(** * Properties *)

(** ** The stores *)

Lemma otp_findOne_deleteMany (e : string) (c : list Otp.t) :
  Otp.findOne e (Otp.deleteMany e c) = None.
Proof.
  unfold Otp.findOne, Otp.deleteMany.
  induction c as [|r c IH]; simpl; [reflexivity|].
  destruct (Otp.has_email e r) eqn:Hr; simpl; [exact IH|].
  rewrite Hr. exact IH.
Qed.

Lemma otp_findOne_create (e code : string) (now : Z) (c : list Otp.t) :
  Otp.findOne e c = None ->
  Otp.findOne e (Otp.create e code now c) = Some (Otp.mk e code now).
Proof.
  unfold Otp.findOne, Otp.create.
  induction c as [|r c IH]; simpl.
  - intros _. unfold Otp.has_email. simpl. rewrite bool_decide_true; reflexivity.
  - destruct (Otp.has_email e r); [discriminate|]. exact IH.
Qed.

Lemma otp_findOne_Some (e : string) (c : list Otp.t) (r : Otp.t) :
  Otp.findOne e c = Some r -> In r c /\ Otp.email r = e.
Proof.
  unfold Otp.findOne. intros H. apply find_some in H as [Hin Hm].
  split; [exact Hin|]. unfold Otp.has_email in Hm.
  apply bool_decide_eq_true in Hm. exact Hm.
Qed.

(** ** CSRF validation *)

Lemma validateCSRF_pass (req : request) (next : M response) (s : state) :
  presents_live_token req s -> validateCSRF req next s = next s.
Proof.
  intros (tok & Hne & Hh & Hs). unfold validateCSRF.
  rewrite Hh, Hs. simpl. rewrite Hne. simpl.
  unfold Js.strict_ne. rewrite bool_decide_true; reflexivity.
Qed.

Lemma validateCSRF_block (req : request) (next : M response) (s : state) :
  ~ presents_live_token req s ->
  exists msg, validateCSRF req next s = (Val (res_error 403 msg), s).
Proof.
  intros Hno. unfold validateCSRF.
  destruct (csrf_header req) as [tok|] eqn:Hh; simpl; [|eauto].
  destruct (Js.nonempty tok) eqn:Hne; simpl; [|eauto].
  destruct (csrfTokens s !! sessionId req) as [st|] eqn:Hs; simpl; [|eauto].
  destruct (Js.nonempty st) eqn:Hst; simpl; [|eauto].
  unfold Js.strict_ne. destruct (bool_decide (Some st = Some tok)) eqn:Hd; simpl; [|eauto].
  apply bool_decide_eq_true in Hd. injection Hd as ->.
  exfalso. apply Hno. exists tok. auto.
Qed.

Lemma validateCSRF_cases (req : request) (next : M response) (s : state) :
  (presents_live_token req s /\ validateCSRF req next s = next s)
  \/ (~ presents_live_token req s
      /\ exists msg, validateCSRF req next s = (Val (res_error 403 msg), s)).
Proof.
  assert (Hdec : presents_live_token req s \/ ~ presents_live_token req s).
  { unfold presents_live_token.
    destruct (csrf_header req) as [tok|]; [|right; intros (t & _ & H & _); discriminate].
    destruct (Js.nonempty tok) eqn:Hne;
      [|right; intros (t & Ht & H & _); injection H as <-; congruence].
    destruct (decide (csrfTokens s !! sessionId req = Some tok)) as [Heq|Hneq].
    - left. exists tok. auto.
    - right. intros (t & _ & H & H'). injection H as <-. contradiction. }
  destruct Hdec as [Hy|Hn].
  - left. split; [exact Hy|]. apply validateCSRF_pass, Hy.
  - right. split; [exact Hn|]. apply validateCSRF_block, Hn.
Qed.

(** ** Routes behind [verifyToken] *)

Lemma jwt_verify_Some (t : token) (secret : string) (now : Z) (j : jwt) :
  Jwt.verify t secret now = Some j ->
  t = Jwt j /\ signed_with j = secret /\ (now / 1000 < exp j)%Z.
Proof.
  destruct t as [j'|raw]; simpl; [|discriminate].
  destruct (bool_decide (signed_with j' = secret)) eqn:Hk; simpl; [|discriminate].
  destruct (now / 1000 <? exp j')%Z eqn:Hx; [|discriminate].
  intros [= <-]. apply bool_decide_eq_true in Hk. apply Z.ltb_lt in Hx. auto.
Qed.

Lemma verifyToken_bearer (E : Env) (req : request) (next : jwt -> M response)
    (s : state) (t : token) :
  auth_header req = Some (Bearer t) ->
  verifyToken E req next s =
    match Jwt.verify t (JWT_SECRET E) (clock s) with
    | Some decoded => next decoded s
    | None => (Val (res_error 401 "Invalid or expired token"), s)
    end.
Proof.
  intros H. unfold verifyToken. rewrite H. unfold bind, Date_now.
  destruct (Jwt.verify t (JWT_SECRET E) (clock s)); reflexivity.
Qed.

(** C1. A pending-stage token (payload [{stage: 'otp', email}], no subject)
    is rejected by verify-token and by refresh-token, whatever its issue
    time, expiry and signature: each answers 401 (the token does not verify)
    or 404 (it verifies, and the account lookup by its absent subject finds
    nothing), and neither changes the state, so refresh-token signs no new
    token from it. *)
Theorem pending_token_rejected (E : Env) (s : state) (e : string)
    (issued expiry : Z) (secret : string) (h b : gmap string string) (addr : string) :
  let t := Jwt (mkJwt (pending_payload e) issued expiry secret) in
  let req := mkRequest h (Some (Bearer t)) addr b in
  let r1 := answer (post_verify_token E req) s in
  let r2 := answer (post_refresh_token E req) s in
  (r1 = res_error 401 "Invalid or expired token" \/ r1 = res_error 404 "User not found")
  /\ (r2 = res_error 401 "Invalid or expired token" \/ r2 = res_error 404 "User not found")
  /\ after (post_verify_token E req) s = s
  /\ after (post_refresh_token E req) s = s.
Proof.
  cbv zeta.
  set (t := Jwt (mkJwt (pending_payload e) issued expiry secret)).
  set (req := mkRequest h (Some (Bearer t)) addr b).
  assert (Hreq : auth_header req = Some (Bearer t)) by reflexivity.
  unfold answer, after, post_verify_token, post_refresh_token.
  rewrite !(verifyToken_bearer E req _ s t Hreq).
  destruct (Jwt.verify _ (JWT_SECRET E) (clock s)) as [j|] eqn:Hv.
  - apply jwt_verify_Some in Hv as ([= <-] & _ & _).
    unfold verify_token_handler, refresh_token_handler, try_catch, bind,
      User_findById, ret. cbn. auto.
  - cbn. auto.
Qed.

Lemma user_findById_Some (id : string) (c : list User.t) (u : User.t) :
  User.findById (Some id) c = Some u -> In u c /\ User._id u = id.
Proof.
  simpl. intros H. apply find_some in H as [Hin Hm].
  apply bool_decide_eq_true in Hm. auto.
Qed.

(** C6. A token that verifies, that names a subject and that was issued no
    later than the present is refreshed as follows. If the account of that
    subject is still stored, refresh-token answers 200 with the token signed
    now for that account: its subject is the presented one, the [expiresAt]
    of the response is now plus ten minutes, which is strictly later than the
    presented token's issue time, and its own window ends ten minutes after
    now. If the account is gone the answer is 404 and nothing is signed. *)
Theorem refresh_token_fresh_window (E : Env) (s : state) (req : request)
    (j : jwt) (id : string) :
  auth_header req = Some (Bearer (Jwt j)) ->
  Jwt.verify (Jwt j) (JWT_SECRET E) (clock s) = Some j ->
  sub (payload j) = Some id ->
  (1000 * iat j <= clock s)%Z ->
  match User.findById (Some id) (users s) with
  | Some u =>
      let j' := Jwt.sign (session_payload u) (JWT_SECRET E) (clock s) in
      answer (post_refresh_token E req) s
        = res_json (JSession j' (clock s + SESSION_MS) (public u))
      /\ sub (payload j') = sub (payload j)
      /\ pu_id (public u) = id
      /\ (1000 * iat j < clock s + SESSION_MS)%Z
      /\ (iat j < exp j')%Z
      /\ exp j' = (clock s / 1000 + 600)%Z
      /\ calls (after (post_refresh_token E req) s) = (calls s ++ [JwtSign (session_payload u)])%list
  | None =>
      answer (post_refresh_token E req) s = res_error 404 "User not found"
      /\ after (post_refresh_token E req) s = s
  end.
Proof.
  intros Hreq Hv Hsub Hpast.
  unfold answer, after, post_refresh_token.
  rewrite (verifyToken_bearer E req _ s _ Hreq), Hv.
  unfold refresh_token_handler, try_catch, bind, User_findById. rewrite Hsub.
  destruct (User.findById (Some id) (users s)) as [u|] eqn:Hu.
  - apply user_findById_Some in Hu as [_ Hid].
    assert (iat j <= clock s / 1000)%Z by (apply Z.div_le_lower_bound; lia).
    cbn. unfold SESSION_MS. rewrite Hid.
    repeat split; try reflexivity; try lia.
  - cbn. auto.
Qed.

Lemma refresh_token_fresh_window_witness :
  let s := boot 5000 [ann] in
  let j := Jwt.sign (session_payload ann) (JWT_SECRET toyEnv) 0 in
  answer (post_refresh_token toyEnv (bearer_req (Jwt j))) s
  = res_json (JSession (Jwt.sign (session_payload ann) (JWT_SECRET toyEnv) 5000)
                       605000 (public ann)).
Proof.
  cbv zeta.
  pose proof (refresh_token_fresh_window toyEnv (boot 5000 [ann])
                (bearer_req (Jwt (Jwt.sign (session_payload ann) (JWT_SECRET toyEnv) 0)))
                (Jwt.sign (session_payload ann) (JWT_SECRET toyEnv) 0) "u1"
                eq_refl eq_refl eq_refl ltac:(vm_compute; discriminate)) as H.
  exact (proj1 H).
Defined.

(** ** Routes behind [validateCSRF]: how a handler unfolds *)

Lemma parsed_Val {A} (errors : list issue) (a a' : A) :
  parsed errors a = Val a' -> errors = [] /\ a' = a.
Proof. destruct errors; simpl; [intros [= <-]; auto | discriminate]. Qed.

Lemma parsed_Raise {A} (errors : list issue) (a : A) (e : exn) :
  parsed errors a = Raise e -> e = ZodError errors.
Proof. destruct errors; simpl; [discriminate | intros [= <-]; reflexivity]. Qed.

(** Past CSRF validation, a handler that starts by parsing the body either runs its
    continuation under [try] or answers 400. *)
Lemma gated_eq (req : request) (s : state) {A} (o : outcome A)
    (k : A -> M response) :
  presents_live_token req s ->
  validateCSRF req (try_catch (f <- lift o ;; k f) on_error) s =
    match o with
    | Val f => try_catch (k f) on_error s
    | Raise e => on_error e s
    end.
Proof.
  intros Hlive. rewrite (validateCSRF_pass _ _ _ Hlive).
  unfold try_catch, bind, lift. destruct o; reflexivity.
Qed.

Lemma verifyOtpSchema_Val (E : Env) (b : gmap string string) (e c : string) :
  verifyOtpSchema E b = Val (e, c) -> e = field b "email" /\ c = field b "code".
Proof.
  unfold verifyOtpSchema. intros H. apply parsed_Val in H as [_ [= -> ->]]. auto.
Qed.

Lemma loginSchema_Val (E : Env) (b : gmap string string) (e p : string) :
  loginSchema E b = Val (e, p) -> e = field b "email" /\ p = field b "password".
Proof.
  unfold loginSchema. intros H. apply parsed_Val in H as [_ [= -> ->]]. auto.
Qed.

(** verify-otp past CSRF validation, on a well-formed body. *)
Lemma post_verify_otp_eq (E : Env) (req : request) (s : state) (e c : string) :
  presents_live_token req s ->
  verifyOtpSchema E (body req) = Val (e, c) ->
  post_verify_otp E req s =
    match Otp.findOne e (otps s) with
    | None => (Val (res_error 401 "Invalid or expired code"), s)
    | Some r =>
        if bool_decide (Otp.code r = c) then
          match User.findOne (user_email_setter E e) (users s) with
          | None =>
              (Val (res_error 404 "User not found"),
               mkState (clock s) (csrfTokens s) (timers s) (users s)
                       (Otp.deleteMany e (otps s))
                       (calls s ++ [OtpDeleteMany e])%list)
          | Some u =>
              (Val (res_json (JSession (Jwt.sign (session_payload u) (JWT_SECRET E) (clock s))
                                       (clock s + SESSION_MS) (public u))),
               mkState (clock s) (csrfTokens s) (timers s) (users s)
                       (Otp.deleteMany e (otps s))
                       ((calls s ++ [OtpDeleteMany e]) ++ [JwtSign (session_payload u)])%list)
          end
        else (Val (res_error 401 "Invalid or expired code"), s)
    end.
Proof.
  intros Hlive Hb. unfold post_verify_otp, verify_otp_handler.
  rewrite (gated_eq req s _ _ Hlive), Hb.
  unfold try_catch, bind, Otp_findOne.
  destruct (Otp.findOne e (otps s)) as [r|]; [|reflexivity].
  destruct (bool_decide (Otp.code r = c)); [|reflexivity].
  cbn -[User.findOne Otp.deleteMany Jwt.sign].
  destruct (User.findOne (user_email_setter E e) (users s)); reflexivity.
Qed.

(** verify-otp answers 200 only past CSRF validation, on a well-formed body, for a
    stored record with the presented code, and for a stored account. *)
Lemma post_verify_otp_200 (E : Env) (req : request) (s : state) :
  status (answer (post_verify_otp E req) s) = 200 ->
  presents_live_token req s
  /\ verifyOtpSchema E (body req) = Val (field (body req) "email", field (body req) "code")
  /\ exists r u,
       Otp.findOne (field (body req) "email") (otps s) = Some r
       /\ Otp.code r = field (body req) "code"
       /\ User.findOne (user_email_setter E (field (body req) "email")) (users s) = Some u.
Proof.
  intros H200.
  unfold answer in H200.
  destruct (validateCSRF_cases req (verify_otp_handler E req) s)
    as [[Hlive _]|[_ [msg Hblock]]].
  2:{ unfold post_verify_otp in H200. rewrite Hblock in H200. discriminate. }
  split; [exact Hlive|].
  destruct (verifyOtpSchema E (body req)) as [[e c]|err] eqn:Hb.
  - pose proof (verifyOtpSchema_Val E _ _ _ Hb) as [-> ->].
    split; [reflexivity|].
    rewrite (post_verify_otp_eq E req s _ _ Hlive Hb) in H200.
    destruct (Otp.findOne _ (otps s)) as [r|]; [|discriminate].
    destruct (bool_decide (Otp.code r = _)) eqn:Hc; [|discriminate].
    apply bool_decide_eq_true in Hc.
    destruct (User.findOne _ (users s)) as [u|]; [|discriminate].
    exists r, u. auto.
  - exfalso. unfold post_verify_otp, verify_otp_handler in H200.
    rewrite (gated_eq req s _ _ Hlive), Hb in H200.
    destruct err; discriminate.
Qed.

(** ** One-time codes *)

(** C2. An OTP is single-use: when verify-otp answers 200, the state it
    leaves holds no record for that e-mail, and the same request repeated at
    once is answered 401. *)
Theorem otp_single_use (E : Env) (req : request) (s : state) :
  status (answer (post_verify_otp E req) s) = 200 ->
  let s' := after (post_verify_otp E req) s in
  Otp.findOne (field (body req) "email") (otps s') = None
  /\ answer (post_verify_otp E req) s' = res_error 401 "Invalid or expired code".
Proof.
  intros H200. apply post_verify_otp_200 in H200 as (Hlive & Hb & r & u & Hr & Hc & Hu).
  cbv zeta. unfold after at 1 2, answer.
  rewrite (post_verify_otp_eq E req s _ _ Hlive Hb), Hr, Hu.
  rewrite bool_decide_true by exact Hc.
  cbn [fst snd otps].
  split; [apply otp_findOne_deleteMany|].
  match goal with |- context [post_verify_otp E req ?st] =>
      rewrite (post_verify_otp_eq E req st _ _ Hlive Hb)
    end.
  cbn [otps]. rewrite otp_findOne_deleteMany. reflexivity.
Qed.

Lemma otp_single_use_witness :
  let s' := after (post_verify_otp toyEnv (verify_ann "100042")) scene_logged_in in
  Otp.findOne (field (body (verify_ann "100042")) "email") (otps s') = None
  /\ answer (post_verify_otp toyEnv (verify_ann "100042")) s'
     = res_error 401 "Invalid or expired code".
Proof.
  exact (otp_single_use toyEnv (verify_ann "100042") scene_logged_in
           ltac:(vm_compute; reflexivity)).
Defined.

(** C9. When verify-otp is called past CSRF validation with the code of the
    stored record while the account is no longer stored, it answers 404, yet
    the record has been deleted: the state has changed on this error path,
    and the same request repeated is answered 401. *)
Theorem verify_otp_consumes_code_of_missing_account (E : Env) (req : request)
    (s : state) (e c : string) (r : Otp.t) :
  presents_live_token req s ->
  verifyOtpSchema E (body req) = Val (e, c) ->
  Otp.findOne e (otps s) = Some r ->
  Otp.code r = c ->
  User.findOne (user_email_setter E e) (users s) = None ->
  let s' := after (post_verify_otp E req) s in
  answer (post_verify_otp E req) s = res_error 404 "User not found"
  /\ otps s' = Otp.deleteMany e (otps s)
  /\ Otp.findOne e (otps s') = None
  /\ otps s' <> otps s
  /\ answer (post_verify_otp E req) s' = res_error 401 "Invalid or expired code".
Proof.
  intros Hlive Hb Hr Hc Hu. cbv zeta. unfold after, answer.
  rewrite (post_verify_otp_eq E req s _ _ Hlive Hb), Hr, Hu.
  rewrite bool_decide_true by exact Hc.
  cbn [fst snd otps].
  split; [reflexivity|]. split; [reflexivity|].
  split; [apply otp_findOne_deleteMany|].
  split.
  - intros Heq. pose proof (otp_findOne_deleteMany e (otps s)) as Hnone.
    rewrite Heq, Hr in Hnone. discriminate.
  - match goal with |- context [post_verify_otp E req ?st] =>
      rewrite (post_verify_otp_eq E req st _ _ Hlive Hb)
    end.
    cbn [otps]. rewrite otp_findOne_deleteMany. reflexivity.
Qed.

Lemma verify_otp_consumes_code_of_missing_account_witness :
  let s := drop_user "u1" scene_logged_in in
  let s' := after (post_verify_otp toyEnv (verify_ann "100042")) s in
  answer (post_verify_otp toyEnv (verify_ann "100042")) s = res_error 404 "User not found"
  /\ otps s' = Otp.deleteMany "ann@x.com" (otps s)
  /\ Otp.findOne "ann@x.com" (otps s') = None
  /\ otps s' <> otps s
  /\ answer (post_verify_otp toyEnv (verify_ann "100042")) s'
     = res_error 401 "Invalid or expired code".
Proof.
  refine (verify_otp_consumes_code_of_missing_account toyEnv (verify_ann "100042")
            (drop_user "u1" scene_logged_in) "ann@x.com" "100042"
            (Otp.mk "ann@x.com" "100042" 0) _ _ _ _ _).
  - exists tok5. vm_compute. auto.
  - vm_compute. reflexivity.
  - vm_compute. reflexivity.
  - reflexivity.
  - vm_compute. reflexivity.
Defined.

(** ** Login *)

(** login past CSRF validation, on a well-formed body: the credential check. *)
Lemma post_login_eq (E : Env) (rnd : N) (acct : option string)
    (sent : option (option string)) (req : request) (s : state) (e p : string) :
  presents_live_token req s ->
  loginSchema E (body req) = Val (e, p) ->
  post_login E rnd acct sent req s =
    match User.findOne (user_email_setter E e) (users s) with
    | None => (Val (res_error 401 "Invalid email or password"), s)
    | Some u =>
        if bcrypt_compare E p (User.passwordHash u) then
          try_catch
            (Otp_deleteMany e ;;;
             Otp_create e (otp_code rnd) ;;;
             sender <- createEtherealTransporter E acct ;;
             previewUrl <- sendMail sender e (otp_code rnd) sent ;;
             tempToken <- jwt_sign E (pending_payload e) ;;
             ret (res_json (JOtpStep tempToken previewUrl)))
            on_error s
        else (Val (res_error 401 "Invalid email or password"), s)
    end.
Proof.
  intros Hlive Hb. unfold post_login, login_handler.
  rewrite (gated_eq req s _ _ Hlive), Hb.
  unfold try_catch at 1. unfold bind at 1. unfold User_findOne_email, User_findOne.
  destruct (User.findOne (user_email_setter E e) (users s)) as [u|]; [|reflexivity].
  destruct (bcrypt_compare E p (User.passwordHash u)); reflexivity.
Qed.

(** The state once login has replaced the OTP record of [e], with the calls
    [cs] made after that. *)
Lemma otp_issue_eq (E : Env) (rnd : N) (acct : option string)
    (sent : option (option string)) (s : state) (e : string) :
  let code := otp_code rnd in
  let st cs :=
    mkState (clock s) (csrfTokens s) (timers s) (users s)
            (Otp.create e code (clock s) (Otp.deleteMany e (otps s)))
            (((calls s ++ [OtpDeleteMany e]) ++ [OtpCreate e code]) ++ cs)%list in
  let delivered sender :=
    match sent with
    | Some url =>
        (Val (res_json (JOtpStep (Jwt.sign (pending_payload e) (JWT_SECRET E) (clock s)) url)),
         st [SendMail sender e code; JwtSign (pending_payload e)])
    | None => (Val (res_error 400 "Request failed"), st [SendMail sender e code])
    end in
  try_catch
    (Otp_deleteMany e ;;;
     Otp_create e code ;;;
     sender <- createEtherealTransporter E acct ;;
     previewUrl <- sendMail sender e code sent ;;
     tempToken <- jwt_sign E (pending_payload e) ;;
     ret (res_json (JOtpStep tempToken previewUrl)))
    on_error s =
  if ethereal_configured E then delivered (default EmptyString (ETHEREAL_USER E))
  else match acct with
       | Some a =>
           match sent with
           | Some url =>
               (Val (res_json (JOtpStep (Jwt.sign (pending_payload e) (JWT_SECRET E) (clock s)) url)),
                st [CreateTestAccount; SendMail a e code; JwtSign (pending_payload e)])
           | None =>
               (Val (res_error 400 "Request failed"),
                st [CreateTestAccount; SendMail a e code])
           end
       | None => (Val (res_error 400 "Request failed"), st [CreateTestAccount])
       end.
Proof.
  cbv zeta. unfold createEtherealTransporter.
  destruct (ethereal_configured E); [|destruct acct]; destruct sent;
    cbn -[Otp.create Otp.deleteMany Jwt.sign]; rewrite <- ?app_assoc; reflexivity.
Qed.

(** C7. A login for an e-mail that no account has and a login for a stored
    account with a password that bcrypt rejects are answered alike: the same
    status 401 and the same message, and neither changes the state. *)
Theorem login_failure_is_generic (E : Env)
    (rnd1 rnd2 : N) (acct1 acct2 : option string) (sent1 sent2 : option (option string))
    (req1 req2 : request) (s1 s2 : state) (e1 p1 e2 p2 : string) (u : User.t) :
  presents_live_token req1 s1 ->
  loginSchema E (body req1) = Val (e1, p1) ->
  User.findOne (user_email_setter E e1) (users s1) = None ->
  presents_live_token req2 s2 ->
  loginSchema E (body req2) = Val (e2, p2) ->
  User.findOne (user_email_setter E e2) (users s2) = Some u ->
  bcrypt_compare E p2 (User.passwordHash u) = false ->
  answer (post_login E rnd1 acct1 sent1 req1) s1
    = answer (post_login E rnd2 acct2 sent2 req2) s2
  /\ answer (post_login E rnd1 acct1 sent1 req1) s1
     = res_error 401 "Invalid email or password"
  /\ after (post_login E rnd1 acct1 sent1 req1) s1 = s1
  /\ after (post_login E rnd2 acct2 sent2 req2) s2 = s2.
Proof.
  intros L1 B1 U1 L2 B2 U2 C2. unfold answer, after.
  rewrite (post_login_eq E rnd1 acct1 sent1 req1 s1 _ _ L1 B1), U1.
  rewrite (post_login_eq E rnd2 acct2 sent2 req2 s2 _ _ L2 B2), U2, C2.
  auto.
Qed.

Lemma login_failure_is_generic_witness :
  let unknown := req_of "s" tok5 (login_body "bob@x.com" "secret1") in
  let wrong := req_of "s" tok5 (login_body "ann@x.com" "secret2") in
  answer (post_login toyEnv 1 None None unknown) scene_csrf
    = answer (post_login toyEnv 2 None None wrong) scene_csrf
  /\ answer (post_login toyEnv 1 None None unknown) scene_csrf
     = res_error 401 "Invalid email or password"
  /\ after (post_login toyEnv 1 None None unknown) scene_csrf = scene_csrf
  /\ after (post_login toyEnv 2 None None wrong) scene_csrf = scene_csrf.
Proof.
  refine (login_failure_is_generic toyEnv 1 2 None None None None
            (req_of "s" tok5 (login_body "bob@x.com" "secret1"))
            (req_of "s" tok5 (login_body "ann@x.com" "secret2"))
            scene_csrf scene_csrf "bob@x.com" "secret1" "ann@x.com" "secret2" ann
            _ _ _ _ _ _ _).
  - exists tok5. vm_compute. auto.
  - vm_compute. reflexivity.
  - vm_compute. reflexivity.
  - exists tok5. vm_compute. auto.
  - vm_compute. reflexivity.
  - vm_compute. reflexivity.
  - vm_compute. reflexivity.
Defined.

(** C5, as the code has it. When login passes the credential check, the OTP
    record of the e-mail is replaced before any call to the mailer, and it
    stays whatever the mailer does: a failed delivery does not roll it back.
    The pending token is signed after the dispatch has succeeded: when the
    test account or the dispatch fails, login answers 400 and signs nothing;
    when the dispatch succeeds, the signature is the last call and the answer
    carries the pending token. *)
Theorem login_record_precedes_dispatch (E : Env) (rnd : N) (acct : option string)
    (sent : option (option string)) (req : request) (s : state) (e p : string)
    (u : User.t) :
  presents_live_token req s ->
  loginSchema E (body req) = Val (e, p) ->
  User.findOne (user_email_setter E e) (users s) = Some u ->
  bcrypt_compare E p (User.passwordHash u) = true ->
  let s' := after (post_login E rnd acct sent req) s in
  let r := answer (post_login E rnd acct sent req) s in
  let code := otp_code rnd in
  Otp.findOne e (otps s') = Some (Otp.mk e code (clock s))
  /\ exists cs,
       calls s' = ((calls s ++ [OtpDeleteMany e; OtpCreate e code]) ++ cs)%list
       /\ (forall c, In c cs ->
             c = CreateTestAccount \/ (exists a, c = SendMail a e code)
             \/ c = JwtSign (pending_payload e))
       /\ match sent with
          | None => r = res_error 400 "Request failed"
                    /\ ~ In (JwtSign (pending_payload e)) cs
          | Some url =>
              if ethereal_configured E || bool_decide (acct <> None) then
                r = res_json (JOtpStep (Jwt.sign (pending_payload e) (JWT_SECRET E) (clock s)) url)
                /\ exists cs0 a,
                     cs = (cs0 ++ [SendMail a e code; JwtSign (pending_payload e)])%list
              else r = res_error 400 "Request failed"
                   /\ ~ In (JwtSign (pending_payload e)) cs
          end.
Proof.
  intros Hlive Hb Hu Hc. cbv zeta. unfold answer, after.
  rewrite (post_login_eq E rnd acct sent req s _ _ Hlive Hb), Hu, Hc.
  pose proof (otp_issue_eq E rnd acct sent s e) as Heq. cbv zeta in Heq. rewrite Heq.
  assert (Hrec : Otp.findOne e (Otp.create e (otp_code rnd) (clock s)
                                   (Otp.deleteMany e (otps s)))
                 = Some (Otp.mk e (otp_code rnd) (clock s)))
    by (apply otp_findOne_create, otp_findOne_deleteMany).
  destruct (ethereal_configured E); [|destruct acct as [a|]]; destruct sent as [url|];
    cbn [fst snd otps calls orb]; (split; [exact Hrec|]);
    rewrite <- (app_assoc (calls s) [OtpDeleteMany e] [OtpCreate e (otp_code rnd)]);
    cbn [app];
    eexists; (split; [reflexivity|]).
  all: split; [intros c Hin; cbn in Hin; intuition eauto|].
  all: try (rewrite bool_decide_true by congruence).
  all: try (rewrite bool_decide_false by (intros Hn; apply Hn; reflexivity)).
  all: try (split; [reflexivity|]).
  all: try (cbn; intuition congruence).
  - exists [], (default EmptyString (ETHEREAL_USER E)). reflexivity.
  - exists [CreateTestAccount], a. reflexivity.
Qed.

Lemma login_record_precedes_dispatch_witness :
  let req := req_of "s" tok5 (login_body "ann@x.com" "secret1") in
  let s' := after (post_login toyEnv 42 (Some "test@ethereal.email") None req) scene_csrf in
  Otp.findOne "ann@x.com" (otps s') = Some (Otp.mk "ann@x.com" (otp_code 42) 0).
Proof.
  refine (proj1 (login_record_precedes_dispatch toyEnv 42 (Some "test@ethereal.email") None
                   (req_of "s" tok5 (login_body "ann@x.com" "secret1"))
                   scene_csrf "ann@x.com" "secret1" ann _ _ _ _)).
  - exists tok5. vm_compute. auto.
  - vm_compute. reflexivity.
  - vm_compute. reflexivity.
  - vm_compute. reflexivity.
Defined.

(** Against C5 as stated: Ann logs in with the right password and the mail
    dispatch fails. The mailer is called while no pending token has been
    signed, and none is signed afterwards: the answer is 400 without a token.
    The OTP record is in the store all the same. *)
Lemma login_signs_no_token_before_dispatch :
  let req := req_of "s" tok5 (login_body "ann@x.com" "secret1") in
  let m := post_login toyEnv 42 (Some "test@ethereal.email") None req in
  answer m scene_csrf = res_error 400 "Request failed"
  /\ calls (after m scene_csrf)
     = [OtpDeleteMany "ann@x.com"; OtpCreate "ann@x.com" "100042";
        CreateTestAccount; SendMail "test@ethereal.email" "ann@x.com" "100042"]
  /\ otps (after m scene_csrf) = [Otp.mk "ann@x.com" "100042" 0]
  /\ forall p, ~ In (JwtSign p) (calls (after m scene_csrf)).
Proof.
  cbv zeta. split; [vm_compute; reflexivity|].
  assert (Hcalls : calls (after (post_login toyEnv 42 (Some "test@ethereal.email") None
                               (req_of "s" tok5 (login_body "ann@x.com" "secret1")))
                          scene_csrf)
          = [OtpDeleteMany "ann@x.com"; OtpCreate "ann@x.com" "100042";
             CreateTestAccount; SendMail "test@ethereal.email" "ann@x.com" "100042"])
    by (vm_compute; reflexivity).
  split; [exact Hcalls|]. split; [vm_compute; reflexivity|].
  intros p. rewrite Hcalls. cbn. intuition discriminate.
Qed.

(** ** What a handler leaves untouched *)

Section Keeps.
Context {X : Type} (f : state -> X).

Lemma keeps_ret {A} (a : A) : keeps f (ret a).
Proof. intros s. reflexivity. Qed.

Lemma keeps_throw {A} (e : exn) : keeps f (@throw A e).
Proof. intros s. reflexivity. Qed.

Lemma keeps_lift {A} (o : outcome A) : keeps f (lift o).
Proof. intros s. reflexivity. Qed.

Lemma keeps_bind {A B} (m : M A) (k : A -> M B) :
  keeps f m -> (forall a, keeps f (k a)) -> keeps f (bind m k).
Proof.
  intros Hm Hk s. unfold bind. specialize (Hm s).
  destruct (m s) as [[a|e] s1]; simpl in *; [|exact Hm].
  rewrite (Hk a s1). exact Hm.
Qed.

Lemma keeps_try_catch {A} (m : M A) (h : exn -> M A) :
  keeps f m -> (forall e, keeps f (h e)) -> keeps f (try_catch m h).
Proof.
  intros Hm Hh s. unfold try_catch. specialize (Hm s).
  destruct (m s) as [[a|e] s1]; simpl in *; [exact Hm|].
  rewrite (Hh e s1). exact Hm.
Qed.

Lemma keeps_validateCSRF (req : request) (next : M response) :
  keeps f next -> keeps f (validateCSRF req next).
Proof.
  intros Hn s. unfold validateCSRF.
  destruct (negb (Js.truthy (csrf_header req))); [reflexivity|].
  destruct (negb (Js.truthy (csrfTokens s !! sessionId req))
            || Js.strict_ne (csrfTokens s !! sessionId req) (csrf_header req));
    [reflexivity|apply Hn].
Qed.

Lemma keeps_verifyToken (E : Env) (req : request) (next : jwt -> M response) :
  (forall d, keeps f (next d)) -> keeps f (verifyToken E req next).
Proof.
  intros Hn s. unfold verifyToken.
  destruct (auth_header req) as [[t|raw]|]; try reflexivity.
  unfold bind, Date_now.
  destruct (Jwt.verify t (JWT_SECRET E) (clock s)); [apply Hn|reflexivity].
Qed.

Lemma keeps_read {A} (g : state -> A) : keeps f (fun s => (Val (g s), s)).
Proof. intros s. reflexivity. Qed.

(** The writes, for an [f] that does not read what they change. *)
Hypothesis f_calls : forall k t m us os cs cs',
  f (mkState k t m us os cs) = f (mkState k t m us os cs').

Lemma keeps_record_call (c : call) : keeps f (record_call c).
Proof. intros [k t m us os cs]. apply f_calls. Qed.

Lemma keeps_jwt_sign (E : Env) (p : claims) : keeps f (jwt_sign E p).
Proof.
  unfold jwt_sign. apply keeps_bind; [apply keeps_record_call|].
  intros _ s. reflexivity.
Qed.

Lemma keeps_createEtherealTransporter (E : Env) (acct : option string) :
  keeps f (createEtherealTransporter E acct).
Proof.
  unfold createEtherealTransporter. destruct (ethereal_configured E); [apply keeps_ret|].
  apply keeps_bind; [apply keeps_record_call|].
  intros _. destruct acct; [apply keeps_ret|apply keeps_throw].
Qed.

Lemma keeps_sendMail (a b c : string) (sent : option (option string)) :
  keeps f (sendMail a b c sent).
Proof.
  unfold sendMail. apply keeps_bind; [apply keeps_record_call|].
  intros _. destruct sent; [apply keeps_ret|apply keeps_throw].
Qed.

Lemma keeps_Otp_deleteMany (e : string) :
  (forall k t m us os os' cs, f (mkState k t m us os cs) = f (mkState k t m us os' cs)) ->
  keeps f (Otp_deleteMany e).
Proof.
  intros f_otps. unfold Otp_deleteMany. apply keeps_bind; [apply keeps_record_call|].
  intros _ [k t m us os cs]. apply f_otps.
Qed.

Lemma keeps_Otp_create (e c : string) :
  (forall k t m us os os' cs, f (mkState k t m us os cs) = f (mkState k t m us os' cs)) ->
  keeps f (Otp_create e c).
Proof.
  intros f_otps. unfold Otp_create. apply keeps_bind; [apply keeps_record_call|].
  intros _ [k t m us os cs]. apply f_otps.
Qed.

Lemma keeps_User_create (u : User.t) :
  (forall k t m us us' os cs, f (mkState k t m us os cs) = f (mkState k t m us' os cs)) ->
  keeps f (User_create u).
Proof. intros f_users [k t m us os cs]. apply f_users. Qed.

End Keeps.

(** Walks through a handler, one construct at a time. *)
Ltac keeps_step :=
  first
    [ apply keeps_ret | apply keeps_throw | apply keeps_lift
    | apply keeps_validateCSRF | apply keeps_verifyToken
    | apply keeps_jwt_sign | apply keeps_createEtherealTransporter
    | apply keeps_sendMail | apply keeps_record_call
    | apply keeps_Otp_deleteMany | apply keeps_Otp_create | apply keeps_User_create
    | apply keeps_try_catch | apply keeps_bind
    | apply keeps_read
    | match goal with
      | |- keeps _ (match ?x with _ => _ end) => destruct x
      | |- keeps _ (if ?x then _ else _) => destruct x
      | |- forall _, _ => intro
      | |- _ = _ => reflexivity
      end ].

Ltac keeps_handler :=
  unfold post_register, post_login, post_verify_otp, post_verify_token,
    post_refresh_token, register_handler, login_handler, verify_otp_handler,
    verify_token_handler, refresh_token_handler, on_error,
    User_findOne_email, User_findOne, User_findById, Otp_findOne, Date_now;
  repeat keeps_step.

Lemma keeps_cache_post_register (E : Env) (oid salt : string) (req : request) :
  keeps cache_of (post_register E oid salt req).
Proof. keeps_handler. Qed.

Lemma keeps_cache_post_login (E : Env) (rnd : N) (acct : option string)
    (sent : option (option string)) (req : request) :
  keeps cache_of (post_login E rnd acct sent req).
Proof. keeps_handler. Qed.

Lemma keeps_cache_post_verify_otp (E : Env) (req : request) :
  keeps cache_of (post_verify_otp E req).
Proof. keeps_handler. Qed.

Lemma keeps_cache_post_verify_token (E : Env) (req : request) :
  keeps cache_of (post_verify_token E req).
Proof. keeps_handler. Qed.

Lemma keeps_cache_post_refresh_token (E : Env) (req : request) :
  keeps cache_of (post_refresh_token E req).
Proof. keeps_handler. Qed.

Lemma keeps_otps_post_register (E : Env) (oid salt : string) (req : request) :
  keeps otps (post_register E oid salt req).
Proof. keeps_handler. Qed.

Lemma keeps_otps_post_verify_token (E : Env) (req : request) :
  keeps otps (post_verify_token E req).
Proof. keeps_handler. Qed.

Lemma keeps_otps_post_refresh_token (E : Env) (req : request) :
  keeps otps (post_refresh_token E req).
Proof. keeps_handler. Qed.

(** ** What a handler can answer *)

Lemma answers_ret (P : response -> Prop) (r : response) : P r -> answers P (ret r).
Proof. intros H s. exact H. Qed.

Lemma answers_bind (P : response -> Prop) {A} (m : M A) (k : A -> M response) :
  (forall a, answers P (k a)) -> answers P (bind m k).
Proof.
  intros Hk s. unfold bind. destruct (m s) as [[a|e] s1]; [apply Hk|exact I].
Qed.

Lemma answers_try_catch (P : response -> Prop) (m : M response) (h : exn -> M response) :
  answers P m -> (forall e, answers P (h e)) -> answers P (try_catch m h).
Proof.
  intros Hm Hh s. unfold try_catch. specialize (Hm s).
  destruct (m s) as [[a|e] s1]; [exact Hm|apply Hh].
Qed.

Lemma answers_answer (P : response -> Prop) (m : M response) (s : state) :
  answers P m -> P (res_error 500 "Internal Server Error") -> P (answer m s).
Proof.
  intros Hm H500. unfold answer. specialize (Hm s).
  destruct ((m s).1); [exact Hm|exact H500].
Qed.

Ltac answers_step :=
  first
    [ apply answers_ret; cbn; congruence
    | apply answers_try_catch | apply answers_bind
    | match goal with
      | |- answers _ (match ?x with _ => _ end) => destruct x
      | |- answers _ (if ?x then _ else _) => destruct x
      | |- forall _, _ => intro
      end ].

(** The handlers behind [validateCSRF] never answer 403 themselves. *)
Lemma register_handler_not_403 (E : Env) (oid salt : string) (req : request) :
  answers (fun r => status r <> 403) (register_handler E oid salt req).
Proof. unfold register_handler, on_error. repeat answers_step. Qed.

Lemma login_handler_not_403 (E : Env) (rnd : N) (acct : option string)
    (sent : option (option string)) (req : request) :
  answers (fun r => status r <> 403) (login_handler E rnd acct sent req).
Proof. unfold login_handler, on_error. repeat answers_step. Qed.

Lemma verify_otp_handler_not_403 (E : Env) (req : request) :
  answers (fun r => status r <> 403) (verify_otp_handler E req).
Proof. unfold verify_otp_handler, on_error. repeat answers_step. Qed.

(** A route behind [validateCSRF] answers 403 exactly when the middleware
    stops the request. *)
Lemma gated_403 (req : request) (next : M response) (s : state) :
  answers (fun r => status r <> 403) next ->
  status (answer (validateCSRF req next) s) = 403 <-> ~ presents_live_token req s.
Proof.
  intros Hnext. unfold answer at 1.
  destruct (validateCSRF_cases req next s) as [[Hlive Heq]|[Hno [msg Heq]]]; rewrite Heq.
  - split; [|intros Hn; contradiction].
    intros H403. exfalso.
    apply (answers_answer _ next s Hnext); [cbn; congruence|exact H403].
  - split; [intros _; exact Hno|intros _; reflexivity].
Qed.

(** ** Runs *)

Lemma run_snoc (E : Env) (evs : list event) (ev : event) (s : state) :
  run E (evs ++ [ev]) s = step E (run E evs s) ev.
Proof. unfold run. apply foldl_snoc. Qed.

Lemma run_cons (E : Env) (ev : event) (evs : list event) (s : state) :
  run E (ev :: evs) s = run E evs (step E s ev).
Proof. reflexivity. Qed.

(** Only the clock and the csrf-token route touch the cache and its timers. *)
Lemma step_cache (E : Env) (s : state) (ev : event) :
  match ev with
  | Advance _ | GetCsrfToken _ _ => True
  | _ => cache_of (step E s ev) = cache_of s
  end.
Proof.
  destruct ev; try exact I; try reflexivity; unfold step, handler, after.
  - apply keeps_cache_post_register.
  - apply keeps_cache_post_login.
  - apply keeps_cache_post_verify_otp.
  - apply keeps_cache_post_verify_token.
  - apply keeps_cache_post_refresh_token.
Qed.

Lemma cache_of_eq (s s' : state) :
  cache_of s' = cache_of s ->
  clock s' = clock s /\ csrfTokens s' = csrfTokens s /\ timers s' = timers s.
Proof. unfold cache_of. intros [= -> -> ->]. auto. Qed.

Lemma hex_nonempty (n : nat) (v : N) (acc : string) :
  Js.nonempty acc = true -> Js.nonempty (hex n v acc) = true.
Proof.
  revert v acc. induction n as [|n IH]; intros v acc H; simpl; [exact H|].
  apply IH. reflexivity.
Qed.

Lemma generateCSRFToken_nonempty (rnd : N) : Js.nonempty (generateCSRFToken rnd) = true.
Proof.
  unfold generateCSRFToken.
  exact (hex_nonempty 63 _ (String _ EmptyString) eq_refl).
Qed.

(** What the callbacks of a list of timers leave of the cache. *)
Lemma foldr_fire_lookup (l : list (Z * string)) (m : gmap string string) (k : string) :
  foldr fire m l !! k
  = if existsb (fun tm : Z * string => bool_decide (tm.2 = k)) l then None else m !! k.
Proof.
  induction l as [|tm l IH]; simpl; [reflexivity|].
  unfold fire at 1. destruct (bool_decide (tm.2 = k)) eqn:Hk; simpl.
  - apply bool_decide_eq_true in Hk. rewrite Hk. apply lookup_delete_eq.
  - apply bool_decide_eq_false in Hk. rewrite lookup_delete_ne by exact Hk. exact IH.
Qed.

Lemma foldr_fire_Some (l : list (Z * string)) (m : gmap string string) (k v : string) :
  foldr fire m l !! k = Some v ->
  m !! k = Some v /\ forall d, ~ In (d, k) l.
Proof.
  rewrite foldr_fire_lookup.
  destruct (existsb _ l) eqn:Hex; [discriminate|].
  intros Hm. split; [exact Hm|]. intros d Hin.
  assert (existsb (fun tm : Z * string => bool_decide (tm.2 = k)) l = true) as Habs.
  { apply existsb_exists. exists (d, k). split; [exact Hin|].
    apply bool_decide_eq_true. reflexivity. }
  congruence.
Qed.

Lemma last_issued_snoc (sid : string) (evs : list event) (ev : event) :
  last_issued sid (evs ++ [ev]) = issued_by sid (last_issued sid evs) ev.
Proof. unfold last_issued. apply foldl_snoc. Qed.

(** The token the cache holds for a session is the one most recently issued
    to it. *)
Lemma stored_is_last_issued (E : Env) (evs : list event) (t0 : Z) (us : list User.t)
    (sid tok : string) :
  csrfTokens (run E evs (boot t0 us)) !! sid = Some tok ->
  last_issued sid evs = Some tok.
Proof.
  revert tok. induction evs as [|ev evs IH] using rev_ind; intros tok.
  - cbn. rewrite lookup_empty. discriminate.
  - rewrite run_snoc, last_issued_snoc.
    pose proof (step_cache E (run E evs (boot t0 us)) ev) as Hc.
    destruct ev; try (apply cache_of_eq in Hc as (_ & -> & _); exact (IH tok)).
    + cbn [step]. unfold advance. cbn [csrfTokens]. intros H.
      apply foldr_fire_Some in H as [H _]. exact (IH tok H).
    + cbn [step handler]. unfold after, get_csrf_token. cbn [snd csrfTokens issued_by].
      destruct (decide (sessionId req = sid)) as [Heq|Hne].
      * rewrite bool_decide_true by exact Heq. rewrite Heq, lookup_insert_eq. auto.
      * rewrite bool_decide_false by exact Hne. rewrite lookup_insert_ne by exact Hne.
        exact (IH tok).
Qed.

Lemma last_issued_nonempty (sid tok : string) (evs : list event) :
  last_issued sid evs = Some tok -> Js.nonempty tok = true.
Proof.
  revert tok. induction evs as [|ev evs IH] using rev_ind; intros tok; [discriminate|].
  rewrite last_issued_snoc. destruct ev; cbn [issued_by]; try apply IH.
  destruct (bool_decide (sessionId req = sid)); [|apply IH].
  intros [= <-]. apply generateCSRFToken_nonempty.
Qed.

(** [validateCSRF] stops a request exactly in the three cases of C8. *)
Lemma not_live_iff_blocked (E : Env) (evs : list event) (t0 : Z) (us : list User.t)
    (req : request) :
  ~ presents_live_token req (run E evs (boot t0 us))
  <-> (csrf_header req = None
       \/ csrfTokens (run E evs (boot t0 us)) !! sessionId req = None
       \/ exists tok, last_issued (sessionId req) evs = Some tok
                      /\ csrf_header req <> Some tok).
Proof.
  split.
  - intros Hno.
    destruct (csrf_header req) as [p|] eqn:Hh; [|auto].
    destruct (csrfTokens (run E evs (boot t0 us)) !! sessionId req) as [t|] eqn:Hs; [|auto].
    right. right. exists t.
    pose proof (stored_is_last_issued E evs t0 us _ _ Hs) as Hlast.
    split; [exact Hlast|]. intros [= ->]. apply Hno. exists t.
    split; [exact (last_issued_nonempty _ _ _ Hlast)|]. auto.
  - intros Hb (tok & _ & Hh & Hs).
    destruct Hb as [Hb|[Hb|(t & Hlast & Hne)]]; [congruence|congruence|].
    pose proof (stored_is_last_issued E evs t0 us _ _ Hs) as Hlast'.
    apply Hne. congruence.
Qed.

(** The two spellings of a header read with [||], and the session name read
    with [|| req.ip], written on the header table itself. *)
Lemma csrf_header_raw (req : request) :
  csrf_header req
  = match headers req !! "x-csrf-token" with
    | Some (String c x) => Some (String c x)
    | _ => headers req !! "X-CSRF-Token"
    end.
Proof.
  unfold csrf_header, Js.oror, Js.truthy.
  destruct (headers req !! "x-csrf-token") as [[|c x]|]; reflexivity.
Qed.

Lemma sessionId_raw (req : request) :
  sessionId req
  = match match headers req !! "x-session-id" with
          | Some (String c x) => Some (String c x)
          | _ => headers req !! "X-Session-Id"
          end with
    | Some (String c x) => String c x
    | _ => ip req
    end.
Proof.
  unfold sessionId, Js.oror, Js.oror_str, Js.truthy.
  destruct (headers req !! "x-session-id") as [[|c x]|]; cbn;
    try reflexivity;
    destruct (headers req !! "X-Session-Id") as [[|c' x']|]; reflexivity.
Qed.

(** C8. In every state the server reaches from start-up, each of the three
    mutating routes answers 403 exactly when the request carries no
    X-CSRF-Token header, or the cache holds no token for the request's
    session, or the presented token differs from the token most recently
    issued to that session. Everything is read off the header table of the
    request: the presented token is the value of [x-csrf-token] when that is
    a non-empty string and the value of [X-CSRF-Token] otherwise; the session
    is named in the same way by [x-session-id] or [X-Session-Id] and, when
    neither gives a non-empty string, by the caller's address. A request
    whose token is the stored one is let through to the handler, which
    answers as it would without the check, and never 403. An issuance stores
    its token for the session whatever was stored before. *)
Theorem csrf_gate_exact (E : Env) (evs : list event) (t0 : Z) (us : list User.t)
    (req : request) :
  let s := run E evs (boot t0 us) in
  let pick (a b : option string) : option string :=
    match a with Some (String c x) => Some (String c x) | _ => b end in
  let presented := pick (headers req !! "x-csrf-token") (headers req !! "X-CSRF-Token") in
  let session (r : request) : string :=
    match pick (headers r !! "x-session-id") (headers r !! "X-Session-Id") with
    | Some (String c x) => String c x
    | _ => ip r
    end in
  let blocked :=
    presented = None
    \/ csrfTokens s !! session req = None
    \/ exists tok, last_issued (session req) evs = Some tok /\ presented <> Some tok in
  (forall oid salt, status (answer (post_register E oid salt req) s) = 403 <-> blocked)
  /\ (forall rnd acct sent,
        status (answer (post_login E rnd acct sent req) s) = 403 <-> blocked)
  /\ (status (answer (post_verify_otp E req) s) = 403 <-> blocked)
  /\ (~ blocked ->
      (forall oid salt, post_register E oid salt req s = register_handler E oid salt req s)
      /\ (forall rnd acct sent,
            post_login E rnd acct sent req s = login_handler E rnd acct sent req s)
      /\ post_verify_otp E req s = verify_otp_handler E req s)
  /\ (presented = None ->
      answer (post_verify_otp E req) s = res_error 403 "CSRF token required")
  /\ (forall rnd req0,
        csrfTokens (after (get_csrf_token rnd req0) s) !! session req0
        = Some (generateCSRFToken rnd)).
Proof.
  cbv beta zeta. rewrite <- !csrf_header_raw, <- !sessionId_raw.
  pose proof (not_live_iff_blocked E evs t0 us req) as Hiff.
  split; [|split; [|split; [|split; [|split]]]].
  - intros oid salt. unfold post_register.
    rewrite (gated_403 req _ _ (register_handler_not_403 E oid salt req)). exact Hiff.
  - intros rnd acct sent. unfold post_login.
    rewrite (gated_403 req _ _ (login_handler_not_403 E rnd acct sent req)). exact Hiff.
  - unfold post_verify_otp.
    rewrite (gated_403 req _ _ (verify_otp_handler_not_403 E req)). exact Hiff.
  - intros Hnot.
    assert (Hlive : presents_live_token req (run E evs (boot t0 us))).
    { destruct (validateCSRF_cases req (verify_otp_handler E req) (run E evs (boot t0 us)))
        as [[Hlive _]|[Hno _]]; [exact Hlive|].
      exfalso. apply Hnot, Hiff, Hno. }
    split; [|split]; intros; apply validateCSRF_pass, Hlive.
  - intros Hnone. unfold answer, post_verify_otp, validateCSRF. rewrite Hnone. reflexivity.
  - intros rnd req0. rewrite <- sessionId_raw.
    unfold after, get_csrf_token. cbn. apply lookup_insert_eq.
Qed.

Lemma csrf_gate_exact_witness :
  status (answer (post_verify_otp toyEnv (verify_ann "100042")) scene_csrf) <> 403
  /\ status (answer (post_verify_otp toyEnv
                       (mkRequest (<["x-session-id" := "s"]> ∅) None "10.0.0.7"
                                  (otp_body "ann@x.com" "100042")))
                    scene_csrf) = 403
  /\ status (answer (post_verify_otp toyEnv (req_of "s" tok6 (otp_body "ann@x.com" "100042")))
                    scene_csrf) = 403.
Proof.
  split; [|split].
  - intros H.
    apply (proj1 (proj2 (proj2 (csrf_gate_exact toyEnv [GetCsrfToken 5 (get_req "s")] 0 [ann]
                                   (verify_ann "100042"))))) in H.
    destruct H as [H|[H|(tok & H1 & H2)]].
    + vm_compute in H. discriminate.
    + vm_compute in H. discriminate.
    + vm_compute in H1. injection H1 as <-. apply H2. vm_compute. reflexivity.
  - apply (proj1 (proj2 (proj2 (csrf_gate_exact toyEnv [GetCsrfToken 5 (get_req "s")] 0 [ann]
                                   (mkRequest (<["x-session-id" := "s"]> ∅) None "10.0.0.7"
                                              (otp_body "ann@x.com" "100042")))))).
    left. vm_compute. reflexivity.
  - apply (proj1 (proj2 (proj2 (csrf_gate_exact toyEnv [GetCsrfToken 5 (get_req "s")] 0 [ann]
                                   (req_of "s" tok6 (otp_body "ann@x.com" "100042")))))).
    right. right. exists tok5. split; [vm_compute; reflexivity|].
    vm_compute. discriminate.
Defined.

(** ** The lifetime of a CSRF token *)

Lemma timers_ahead_In (s : state) (d : Z) (sid : string) :
  timers_ahead s -> In (d, sid) (timers s) -> (clock s < d)%Z.
Proof.
  unfold timers_ahead. rewrite List.Forall_forall. intros H Hin. exact (H _ Hin).
Qed.

Lemma advance_timers_ahead (t : Z) (s : state) : timers_ahead (advance t s).
Proof.
  unfold timers_ahead, advance. cbn [timers clock].
  apply List.Forall_forall. intros tm Hin. apply filter_In in Hin as [_ Hd].
  unfold due in Hd. apply negb_true_iff, Z.leb_gt in Hd. exact Hd.
Qed.

Lemma get_csrf_token_timers_ahead (rnd : N) (req : request) (s : state) :
  timers_ahead s -> timers_ahead (after (get_csrf_token rnd req) s).
Proof.
  unfold timers_ahead, after, get_csrf_token. cbn [snd timers clock]. intros H.
  apply Forall_app. split; [exact H|].
  constructor; [|constructor]. cbn. unfold CSRF_TTL. lia.
Qed.

Lemma step_timers_ahead (E : Env) (s : state) (ev : event) :
  timers_ahead s -> timers_ahead (step E s ev).
Proof.
  intros H. pose proof (step_cache E s ev) as Hc.
  destruct ev;
    try (apply cache_of_eq in Hc as (Hk & _ & Ht); unfold timers_ahead;
         rewrite Hk, Ht; exact H).
  - apply advance_timers_ahead.
  - apply get_csrf_token_timers_ahead, H.
Qed.

(** While the cache holds [tok] for [sid], the timer set at its issuance is
    still pending, as long as no later issuance draws the same token. *)
Lemma token_needs_timer_step (E : Env) (s : state) (ev : event)
    (sid tok : string) (d : Z) :
  issues sid tok ev = false ->
  (csrfTokens s !! sid = Some tok -> In (d, sid) (timers s)) ->
  csrfTokens (step E s ev) !! sid = Some tok -> In (d, sid) (timers (step E s ev)).
Proof.
  intros Hev Hinv. pose proof (step_cache E s ev) as Hc.
  destruct ev;
    try (apply cache_of_eq in Hc as (_ & Hm & Ht); rewrite Hm, Ht; exact Hinv).
  - cbn [step]. unfold advance. cbn [csrfTokens timers]. intros H.
    apply foldr_fire_Some in H as [Hm Hnot].
    apply filter_In. split; [exact (Hinv Hm)|].
    destruct (due (Z.max (clock s) t) (d, sid)) eqn:Hd; [|reflexivity].
    exfalso. apply (Hnot d). apply filter_In. split; [exact (Hinv Hm)|exact Hd].
  - cbn [step handler]. unfold after, get_csrf_token. cbn [snd csrfTokens timers].
    cbn [issues] in Hev.
    destruct (decide (sessionId req = sid)) as [Heq|Hne].
    + rewrite Heq, lookup_insert_eq. intros [= Htok].
      rewrite bool_decide_true in Hev by exact Heq.
      rewrite bool_decide_true in Hev by exact Htok. discriminate.
    + rewrite lookup_insert_ne by exact Hne. intros H.
      apply in_or_app. left. exact (Hinv H).
Qed.

Lemma token_needs_timer_run (E : Env) (evs : list event) (s : state)
    (sid tok : string) (d : Z) :
  existsb (issues sid tok) evs = false ->
  timers_ahead s ->
  (csrfTokens s !! sid = Some tok -> In (d, sid) (timers s)) ->
  timers_ahead (run E evs s)
  /\ (csrfTokens (run E evs s) !! sid = Some tok -> In (d, sid) (timers (run E evs s))).
Proof.
  revert s. induction evs as [|ev evs IH]; intros s Hev Ha Hinv; [auto|].
  cbn [existsb] in Hev. apply orb_false_iff in Hev as [Hev Hevs].
  rewrite run_cons. apply IH; [exact Hevs|apply step_timers_ahead, Ha|].
  apply token_needs_timer_step; assumption.
Qed.

(** A token is dead from five minutes after its issuance on. *)
Lemma csrf_token_dead_after_ttl (E : Env) (s : state) (rnd : N) (req0 : request)
    (evs : list event) :
  timers_ahead s ->
  existsb (issues (sessionId req0) (generateCSRFToken rnd)) evs = false ->
  (clock s + CSRF_TTL <= clock (run E evs (after (get_csrf_token rnd req0) s)))%Z ->
  csrfTokens (run E evs (after (get_csrf_token rnd req0) s)) !! sessionId req0
  <> Some (generateCSRFToken rnd).
Proof.
  intros Ha Hev Hlate Hm.
  destruct (token_needs_timer_run E evs (after (get_csrf_token rnd req0) s)
              (sessionId req0) (generateCSRFToken rnd) (clock s + CSRF_TTL) Hev)
    as [Ha' Hin].
  - apply get_csrf_token_timers_ahead, Ha.
  - intros _. unfold after, get_csrf_token. cbn [snd timers].
    apply in_or_app. right. left. reflexivity.
  - pose proof (timers_ahead_In _ _ _ Ha' (Hin Hm)). lia.
Qed.

Lemma run_timers_ahead (E : Env) (evs : list event) (t0 : Z) (us : list User.t) :
  timers_ahead (run E evs (boot t0 us)).
Proof.
  induction evs as [|ev evs IH] using rev_ind; [constructor|].
  rewrite run_snoc. apply step_timers_ahead, IH.
Qed.

(** A timer that is due deletes whatever the cache holds for its session. *)
Lemma due_timer_deletes (t d : Z) (sid : string) (s : state) :
  In (d, sid) (timers s) -> (d <= Z.max (clock s) t)%Z ->
  csrfTokens (advance t s) !! sid = None.
Proof.
  intros Hin Hd. unfold advance. cbn [csrfTokens]. rewrite foldr_fire_lookup.
  assert (existsb (fun tm : Z * string => bool_decide (tm.2 = sid))
                  (List.filter (due (Z.max (clock s) t)) (timers s)) = true) as ->;
    [|reflexivity].
  apply existsb_exists. exists (d, sid). split.
  - apply filter_In. split; [exact Hin|]. unfold due. cbn. apply Z.leb_le. exact Hd.
  - apply bool_decide_eq_true. reflexivity.
Qed.

(** C10. Every call of GET /csrf-token adds a timer for its session, five
    minutes ahead, and removes none; a timer that is due deletes whatever the
    cache holds for its session. So when a session is issued a token, and a
    second one at a later time [t1] within the five minutes, both timers are
    pending, the cache holds the second token, and the first timer deletes it
    five minutes after the first call: less than five minutes after the
    second token was issued. *)
Theorem csrf_timer_not_cancelled (E : Env) (s : state) (rnd1 rnd2 : N)
    (req1 req2 : request) (t1 : Z) :
  sessionId req2 = sessionId req1 ->
  (clock s < t1)%Z -> (t1 < clock s + CSRF_TTL)%Z ->
  let sid := sessionId req1 in
  let s1 := step E s (GetCsrfToken rnd1 req1) in
  let s2 := step E s1 (Advance t1) in
  let s3 := step E s2 (GetCsrfToken rnd2 req2) in
  let s4 := step E s3 (Advance (clock s + CSRF_TTL)) in
  timers s1 = (timers s ++ [(clock s + CSRF_TTL, sid)])%list
  /\ (forall (d : Z) (m : gmap string string), fire (d, sid) m !! sid = None)
  /\ In (clock s + CSRF_TTL, sid) (timers s3)
  /\ In (clock s3 + CSRF_TTL, sid) (timers s3)
  /\ csrfTokens s3 !! sid = Some (generateCSRFToken rnd2)
  /\ csrfTokens s4 !! sid = None
  /\ (clock s4 - clock s3 < CSRF_TTL)%Z.
Proof.
  intros Hsid Hlo Hhi. cbv zeta. cbn [step handler]. unfold after.
  assert (Hs1 : timers (get_csrf_token rnd1 req1 s).2
                = (timers s ++ [(clock s + CSRF_TTL, sessionId req1)])%list) by reflexivity.
  assert (Hk2 : clock (advance t1 (get_csrf_token rnd1 req1 s).2) = t1).
  { unfold advance. cbn [clock get_csrf_token snd]. lia. }
  assert (Hin2 : In (clock s + CSRF_TTL, sessionId req1)
                    (timers (advance t1 (get_csrf_token rnd1 req1 s).2))).
  { unfold advance. cbn [timers]. apply filter_In. split.
    - rewrite Hs1. apply in_or_app. right. left. reflexivity.
    - unfold due. cbn [fst clock get_csrf_token snd]. apply negb_true_iff, Z.leb_gt. lia. }
  set (s2 := advance t1 (get_csrf_token rnd1 req1 s).2) in *.
  assert (Hin3 : In (clock s + CSRF_TTL, sessionId req1)
                    (timers (get_csrf_token rnd2 req2 s2).2)).
  { cbn [get_csrf_token snd timers]. apply in_or_app. left. exact Hin2. }
  assert (Hk3 : clock (get_csrf_token rnd2 req2 s2).2 = t1) by exact Hk2.
  split; [exact Hs1|].
  split; [intros d m; apply lookup_delete_eq|].
  split; [exact Hin3|].
  split.
  { rewrite Hk3. cbn [get_csrf_token snd timers]. rewrite Hsid, Hk2.
    apply in_or_app. right. left. reflexivity. }
  split.
  { cbn [get_csrf_token snd csrfTokens]. rewrite Hsid. apply lookup_insert_eq. }
  split.
  { apply (due_timer_deletes _ (clock s + CSRF_TTL)); [exact Hin3|]. lia. }
  rewrite Hk3. unfold advance. cbn [clock]. rewrite Hk3. unfold CSRF_TTL in *. lia.
Qed.

Lemma csrf_timer_not_cancelled_witness :
  let s3 := run toyEnv [GetCsrfToken 5 (get_req "s"); Advance 200000;
                        GetCsrfToken 6 (get_req "s")] (boot 0 [ann]) in
  let s4 := step toyEnv s3 (Advance 300000) in
  csrfTokens s3 !! "s" = Some tok6
  /\ csrfTokens s4 !! "s" = None
  /\ (clock s4 - clock s3 < CSRF_TTL)%Z.
Proof.
  pose proof (csrf_timer_not_cancelled toyEnv (boot 0 [ann]) 5 6 (get_req "s") (get_req "s")
                200000 eq_refl ltac:(vm_compute; reflexivity)
                ltac:(vm_compute; reflexivity)) as H.
  cbv zeta in H. exact (proj2 (proj2 (proj2 (proj2 H)))).
Defined.

(** ** Expiry *)

(** Against C4 as stated: Ann's code, accepted at the time of her login, is
    presented 600001 ms later with a fresh CSRF token. Its record is past the
    600 s TTL and still in the collection, since the TTL monitor has not
    passed; verify-otp accepts it, whereas it answers 401 once the record is
    absent. *)
Lemma otp_past_ttl_still_accepted :
  status (answer (post_verify_otp toyEnv (verify_ann "100042")) scene_logged_in) = 200
  /\ clock scene_late = 600001
  /\ otps scene_late = [Otp.mk "ann@x.com" "100042" 0]
  /\ Otp.past_ttl (clock scene_late) (Otp.mk "ann@x.com" "100042" 0) = true
  /\ status (answer (post_verify_otp toyEnv verify_ann_late) scene_late) = 200
  /\ answer (post_verify_otp toyEnv verify_ann_late) (ttl_pass scene_late)
     = res_error 401 "Invalid or expired code".
Proof. vm_compute. repeat split; reflexivity. Qed.

Lemma otp_ttl_pass_In (now : Z) (c : list Otp.t) (r : Otp.t) :
  In r (Otp.ttl_pass now c) -> In r c /\ (now < Otp.createdAt r + Otp.expires * 1000)%Z.
Proof.
  unfold Otp.ttl_pass. intros H. apply filter_In in H as [Hin Hp].
  split; [exact Hin|]. unfold Otp.past_ttl in Hp.
  apply negb_true_iff, Z.leb_gt in Hp. exact Hp.
Qed.

(** C4, as the code has it.
    - A CSRF token is unusable from five minutes after its issuance on: in
      any run from start-up, once the clock has moved [CSRF_TTL] past the
      issuance, and unless a later issuance drew the very same token for the
      session, the three mutating routes answer 403 to a request presenting it.
    - An OTP is removed by the store's TTL monitor: after a pass of the
      monitor, verify-otp accepts only a code whose record is younger than
      600 seconds.
    - verify-otp itself does not look at the age of a record: past CSRF validation,
      the code of a stored record is accepted whatever [createdAt] and the
      clock are, so a record past its TTL that the monitor has not yet
      removed verifies like a live one. *)
Theorem ttl_expiry_as_implemented (E : Env) :
  (forall (evs1 evs2 : list event) (t0 : Z) (us : list User.t) (rnd : N)
          (req0 req : request),
      let s0 := run E evs1 (boot t0 us) in
      let s := run E evs2 (after (get_csrf_token rnd req0) s0) in
      existsb (issues (sessionId req0) (generateCSRFToken rnd)) evs2 = false ->
      (clock s0 + CSRF_TTL <= clock s)%Z ->
      sessionId req = sessionId req0 ->
      csrf_header req = Some (generateCSRFToken rnd) ->
      (forall oid salt, status (answer (post_register E oid salt req) s) = 403)
      /\ (forall r acct sent, status (answer (post_login E r acct sent req) s) = 403)
      /\ status (answer (post_verify_otp E req) s) = 403)
  /\ (forall (s : state) (req : request),
        status (answer (post_verify_otp E req) (ttl_pass s)) = 200 ->
        exists r, In r (otps s)
                  /\ Otp.email r = field (body req) "email"
                  /\ Otp.code r = field (body req) "code"
                  /\ (clock s < Otp.createdAt r + Otp.expires * 1000)%Z)
  /\ (forall (s : state) (req : request) (e c : string) (r : Otp.t) (u : User.t),
        presents_live_token req s ->
        verifyOtpSchema E (body req) = Val (e, c) ->
        Otp.findOne e (otps s) = Some r ->
        Otp.code r = c ->
        User.findOne (user_email_setter E e) (users s) = Some u ->
        status (answer (post_verify_otp E req) s) = 200).
Proof.
  split; [|split].
  - intros evs1 evs2 t0 us rnd req0 req. cbv zeta. intros Hev Hlate Hsid Hh.
    assert (Hno : ~ presents_live_token req
                      (run E evs2 (after (get_csrf_token rnd req0) (run E evs1 (boot t0 us))))).
    { intros (tok & _ & Hh' & Hs). rewrite Hh in Hh'. injection Hh' as <-.
      rewrite Hsid in Hs.
      exact (csrf_token_dead_after_ttl E _ rnd req0 evs2
               (run_timers_ahead E evs1 t0 us) Hev Hlate Hs). }
    split; [|split].
    + intros oid salt. unfold post_register.
      apply (gated_403 req _ _ (register_handler_not_403 E oid salt req)), Hno.
    + intros r acct sent. unfold post_login.
      apply (gated_403 req _ _ (login_handler_not_403 E r acct sent req)), Hno.
    + unfold post_verify_otp.
      apply (gated_403 req _ _ (verify_otp_handler_not_403 E req)), Hno.
  - intros s req H200.
    apply post_verify_otp_200 in H200 as (_ & _ & r & u & Hr & Hc & _).
    apply otp_findOne_Some in Hr as [Hin He]. cbn [ttl_pass otps] in Hin.
    apply otp_ttl_pass_In in Hin as [Hin Hyoung]. cbn [ttl_pass clock] in Hyoung.
    exists r. auto.
  - intros s req e c r u Hlive Hb Hr Hc Hu. unfold answer.
    rewrite (post_verify_otp_eq E req s _ _ Hlive Hb), Hr, Hu.
    rewrite bool_decide_true by exact Hc. reflexivity.
Qed.

Lemma ttl_expiry_as_implemented_witness :
  status (answer (post_verify_otp toyEnv (verify_ann "100042"))
                 (run toyEnv [Advance 300000] scene_csrf)) = 403
  /\ status (answer (post_verify_otp toyEnv verify_ann_late) scene_late) = 200.
Proof.
  destruct (ttl_expiry_as_implemented toyEnv) as (Hcsrf & _ & Hotp). split.
  - refine (proj2 (proj2 (Hcsrf [] [Advance 300000] 0 [ann] 5%N (get_req "s")
                            (verify_ann "100042") _ _ _ _))).
    + vm_compute. reflexivity.
    + vm_compute. discriminate.
    + vm_compute. reflexivity.
    + vm_compute. reflexivity.
  - refine (Hotp scene_late verify_ann_late "ann@x.com" "100042"
              (Otp.mk "ann@x.com" "100042" 0) ann _ _ _ _ _).
    + exists tok6. vm_compute. auto.
    + vm_compute. reflexivity.
    + vm_compute. reflexivity.
    + reflexivity.
    + vm_compute. reflexivity.
Defined.

(** ** One record per e-mail *)

Lemma otp_records_deleteMany_same (e : string) (c : list Otp.t) :
  otp_records e (Otp.deleteMany e c) = [].
Proof.
  unfold otp_records, Otp.deleteMany.
  induction c as [|r c IH]; simpl; [reflexivity|].
  destruct (Otp.has_email e r) eqn:Hr; simpl; [exact IH|]. rewrite Hr. exact IH.
Qed.

Lemma otp_records_deleteMany_le (e e' : string) (c : list Otp.t) :
  (length (otp_records e' (Otp.deleteMany e c)) <= length (otp_records e' c))%nat.
Proof.
  unfold otp_records, Otp.deleteMany.
  induction c as [|r c IH]; simpl; [lia|].
  destruct (Otp.has_email e r); destruct (Otp.has_email e' r) eqn:Hr'; simpl;
    rewrite ?Hr'; simpl; lia.
Qed.

Lemma otp_records_ttl_pass_le (now : Z) (e : string) (c : list Otp.t) :
  (length (otp_records e (Otp.ttl_pass now c)) <= length (otp_records e c))%nat.
Proof.
  unfold otp_records, Otp.ttl_pass.
  induction c as [|r c IH]; simpl; [lia|].
  destruct (Otp.past_ttl now r); destruct (Otp.has_email e r) eqn:Hr; simpl;
    rewrite ?Hr; simpl; lia.
Qed.

Lemma otp_records_create (e e' code : string) (now : Z) (c : list Otp.t) :
  otp_records e' (Otp.create e code now c)
  = (otp_records e' c ++ (if bool_decide (e = e') then [Otp.mk e code now] else []))%list.
Proof.
  unfold otp_records, Otp.create. rewrite List.filter_app. reflexivity.
Qed.

(** Replacing the record of [e] leaves one record for [e] and no more
    records than before for any other address. *)
Lemma otp_records_issue (e e' code : string) (now : Z) (c : list Otp.t) :
  (length (otp_records e' c) <= 1)%nat ->
  (length (otp_records e' (Otp.create e code now (Otp.deleteMany e c))) <= 1)%nat.
Proof.
  intros H. rewrite otp_records_create.
  destruct (bool_decide (e = e')) eqn:He.
  - apply bool_decide_eq_true in He. subst e'.
    rewrite otp_records_deleteMany_same. simpl. lia.
  - rewrite app_nil_r. pose proof (otp_records_deleteMany_le e e' c). lia.
Qed.

Lemma on_error_state (e : exn) (s : state) : (on_error e s).2 = s.
Proof. destruct e; reflexivity. Qed.

(** What login does to the OTP collection. *)
Lemma post_login_otps (E : Env) (rnd : N) (acct : option string)
    (sent : option (option string)) (req : request) (s : state) :
  otps (after (post_login E rnd acct sent req) s) = otps s
  \/ otps (after (post_login E rnd acct sent req) s)
     = Otp.create (field (body req) "email") (otp_code rnd) (clock s)
                  (Otp.deleteMany (field (body req) "email") (otps s)).
Proof.
  unfold after.
  destruct (validateCSRF_cases req (login_handler E rnd acct sent req) s)
    as [[Hlive _]|[_ [msg Hblock]]].
  2:{ left. unfold post_login. rewrite Hblock. reflexivity. }
  destruct (loginSchema E (body req)) as [[e p]|err] eqn:Hb.
  - pose proof (loginSchema_Val E _ _ _ Hb) as [-> ->].
    rewrite (post_login_eq E rnd acct sent req s _ _ Hlive Hb).
    destruct (User.findOne _ (users s)) as [u|]; [|left; reflexivity].
    destruct (bcrypt_compare E _ _); [|left; reflexivity].
    right. pose proof (otp_issue_eq E rnd acct sent s (field (body req) "email")) as Heq.
    cbv zeta in Heq. rewrite Heq.
    destruct (ethereal_configured E); [|destruct acct]; destruct sent; reflexivity.
  - left. unfold post_login, login_handler.
    rewrite (gated_eq req s _ _ Hlive), Hb. rewrite on_error_state. reflexivity.
Qed.

(** What verify-otp does to the OTP collection. *)
Lemma post_verify_otp_otps (E : Env) (req : request) (s : state) :
  otps (after (post_verify_otp E req) s) = otps s
  \/ otps (after (post_verify_otp E req) s)
     = Otp.deleteMany (field (body req) "email") (otps s).
Proof.
  unfold after.
  destruct (validateCSRF_cases req (verify_otp_handler E req) s)
    as [[Hlive _]|[_ [msg Hblock]]].
  2:{ left. unfold post_verify_otp. rewrite Hblock. reflexivity. }
  destruct (verifyOtpSchema E (body req)) as [[e c]|err] eqn:Hb.
  - pose proof (verifyOtpSchema_Val E _ _ _ Hb) as [-> ->].
    rewrite (post_verify_otp_eq E req s _ _ Hlive Hb).
    destruct (Otp.findOne _ (otps s)) as [r|]; [|left; reflexivity].
    destruct (bool_decide _); [|left; reflexivity].
    right. destruct (User.findOne _ (users s)); reflexivity.
  - left. unfold post_verify_otp, verify_otp_handler.
    rewrite (gated_eq req s _ _ Hlive), Hb. rewrite on_error_state. reflexivity.
Qed.

(** No step of the server leaves two records for one e-mail. *)
Lemma step_one_record (E : Env) (s : state) (ev : event) (e : string) :
  (length (otp_records e (otps s)) <= 1)%nat ->
  (length (otp_records e (otps (step E s ev))) <= 1)%nat.
Proof.
  intros H. destruct ev; cbn [step handler]; try exact H.
  - cbn [ttl_pass otps]. pose proof (otp_records_ttl_pass_le (clock s) e (otps s)). lia.
  - unfold after. rewrite keeps_otps_post_register. exact H.
  - destruct (post_login_otps E rnd acct sent req s) as [-> | ->]; [exact H|].
    apply otp_records_issue, H.
  - destruct (post_verify_otp_otps E req s) as [-> | ->]; [exact H|].
    pose proof (otp_records_deleteMany_le (field (body req) "email") e (otps s)). lia.
  - unfold after. rewrite keeps_otps_post_verify_token. exact H.
  - unfold after. rewrite keeps_otps_post_refresh_token. exact H.
Qed.

Lemma run_one_record (E : Env) (evs : list event) (t0 : Z) (us : list User.t) (e : string) :
  (length (otp_records e (otps (run E evs (boot t0 us)))) <= 1)%nat.
Proof.
  induction evs as [|ev evs IH] using rev_ind; [cbn; lia|].
  rewrite run_snoc. apply step_one_record, IH.
Qed.

Lemma keeps_users_post_login (E : Env) (rnd : N) (acct : option string)
    (sent : option (option string)) (req : request) :
  keeps users (post_login E rnd acct sent req).
Proof. keeps_handler. Qed.

Lemma keeps_users_post_verify_otp (E : Env) (req : request) :
  keeps users (post_verify_otp E req).
Proof. keeps_handler. Qed.


(** The code login draws has six digits. *)
Lemma div10_range (x lo hi : N) :
  (10 * lo <= x)%N -> (x < 10 * hi)%N -> (lo <= N.div x 10)%N /\ (N.div x 10 < hi)%N.
Proof.
  intros Hlo Hhi. split.
  - apply N.div_le_lower_bound; lia.
  - apply N.Div0.div_lt_upper_bound; lia.
Qed.

Lemma otp_code_length (rnd : N) : String.length (otp_code rnd) = 6%nat.
Proof.
  unfold otp_code.
  assert (Hx : (10 * 10000 <= 100000 + rnd mod 900000)%N
               /\ (100000 + rnd mod 900000 < 10 * 100000)%N).
  { assert (rnd mod 900000 < 900000)%N as H by (apply N.mod_lt; lia).
    revert H. generalize (rnd mod 900000)%N. intros n Hn. split; lia. }
  set (x := (100000 + rnd mod 900000)%N) in *. destruct Hx as [Hlo Hhi].
  unfold pretty, pretty_N. rewrite decide_False by lia.
  destruct (div10_range x 10000 100000 Hlo Hhi) as [H1 H1'].
  destruct (div10_range _ 1000 10000 H1 H1') as [H2 H2'].
  destruct (div10_range _ 100 1000 H2 H2') as [H3 H3'].
  destruct (div10_range _ 10 100 H3 H3') as [H4 H4'].
  destruct (div10_range _ 1 10 H4 H4') as [H5 H5'].
  rewrite (pretty_N_go_step x) by lia.
  rewrite (pretty_N_go_step (N.div x 10)) by lia.
  rewrite (pretty_N_go_step (N.div (N.div x 10) 10)) by lia.
  rewrite (pretty_N_go_step (N.div (N.div (N.div x 10) 10) 10)) by lia.
  rewrite (pretty_N_go_step (N.div (N.div (N.div (N.div x 10) 10) 10) 10)) by lia.
  rewrite (pretty_N_go_step (N.div (N.div (N.div (N.div (N.div x 10) 10) 10) 10) 10)) by lia.
  rewrite (N.div_small _ 10 H5'), pretty_N_go_0. reflexivity.
Qed.

Lemma z_string_nil (b : gmap string string) (path : string) (ok : string -> bool)
    (msg : string) :
  z_string b path ok msg = [] -> exists v, b !! path = Some v /\ ok v = true.
Proof.
  unfold z_string. destruct (b !! path) as [v|]; [|discriminate].
  destruct (ok v) eqn:Hok; [|discriminate].
  intros _. exists v. auto.
Qed.


Lemma verifyOtpSchema_ok (E : Env) (b : gmap string string) (e c : string) :
  b !! "email" = Some e -> is_email E e = true ->
  b !! "code" = Some c -> min_length 4 c = true ->
  verifyOtpSchema E b = Val (e, c).
Proof.
  intros He Hok Hc Hlen. unfold verifyOtpSchema, z_string, field.
  rewrite He, Hc, Hok, Hlen. reflexivity.
Qed.

(** * Further properties of the router *)

(** ** Tokens and codes as strings *)

Lemma hex_length (n : nat) (v : N) (acc : string) :
  String.length (hex n v acc) = (n + String.length acc)%nat.
Proof.
  revert v acc. induction n as [|n IH]; intros v acc; simpl; [reflexivity|].
  rewrite IH. simpl. lia.
Qed.

Lemma hex_digit_inj (d d' : N) :
  (d < 16)%N -> (d' < 16)%N -> hex_digit d = hex_digit d' -> d = d'.
Proof.
  intros Hd Hd'.
  assert (d = 0 \/ d = 1 \/ d = 2 \/ d = 3 \/ d = 4 \/ d = 5 \/ d = 6 \/ d = 7 \/ d = 8
          \/ d = 9 \/ d = 10 \/ d = 11 \/ d = 12 \/ d = 13 \/ d = 14 \/ d = 15)%N as H by lia.
  assert (d' = 0 \/ d' = 1 \/ d' = 2 \/ d' = 3 \/ d' = 4 \/ d' = 5 \/ d' = 6 \/ d' = 7
          \/ d' = 8 \/ d' = 9 \/ d' = 10 \/ d' = 11 \/ d' = 12 \/ d' = 13 \/ d' = 14
          \/ d' = 15)%N as H' by lia.
  repeat (destruct H as [->|H]); try subst d;
    repeat (destruct H' as [->|H']); try subst d';
    intros Heq; try reflexivity; discriminate Heq.
Qed.

(** Two numbers with the same [n] hexadecimal digits agree modulo [16 ^ n]. *)
Lemma hex_inj (n : nat) (v v' : N) (acc acc' : string) :
  hex n v acc = hex n v' acc' ->
  (v mod 16 ^ N.of_nat n = v' mod 16 ^ N.of_nat n)%N /\ acc = acc'.
Proof.
  revert v v' acc acc'. induction n as [|n IH]; intros v v' acc acc' H.
  - simpl in H. split; [|exact H]. cbn. rewrite !N.mod_1_r. reflexivity.
  - simpl in H. apply IH in H as [Hhi [= Hd ->]]. split; [|reflexivity].
    apply hex_digit_inj in Hd; [|apply N.mod_lt; lia..].
    rewrite Nat2N.inj_succ, N.pow_succ_r'.
    rewrite !(N.Div0.mod_mul_r _ 16), Hd, Hhi. reflexivity.
Qed.

(** X1. A CSRF token is always 64 characters long, and two draws give the
    same token exactly when they are the same 256-bit number. *)
Theorem generateCSRFToken_faithful (rnd rnd' : N) :
  String.length (generateCSRFToken rnd) = 64%nat
  /\ (generateCSRFToken rnd = generateCSRFToken rnd'
      <-> (rnd mod 2 ^ 256 = rnd' mod 2 ^ 256)%N).
Proof.
  split; [unfold generateCSRFToken; rewrite hex_length; reflexivity|].
  unfold generateCSRFToken. split.
  - intros H. apply hex_inj in H as [H _].
    change (16 ^ N.of_nat 64)%N with (2 ^ 256)%N in H.
    rewrite !N.Div0.mod_mod in H. exact H.
  - intros ->. reflexivity.
Qed.

(** X2. The code login draws always has six characters, so the verify-otp
    schema (at least four) never rejects an issued code; two draws give the
    same code exactly when they are the same number modulo 900000. *)
Theorem otp_code_faithful (rnd rnd' : N) :
  String.length (otp_code rnd) = 6%nat
  /\ min_length 4 (otp_code rnd) = true
  /\ (otp_code rnd = otp_code rnd' <-> (rnd mod 900000 = rnd' mod 900000)%N).
Proof.
  split; [apply otp_code_length|].
  split; [unfold min_length; rewrite otp_code_length; reflexivity|].
  unfold otp_code. split.
  - intros H. apply pretty_N_inj in H. lia.
  - intros ->. reflexivity.
Qed.

Lemma string_length_append (a b : string) :
  String.length (String.append a b) = (String.length a + String.length b)%nat.
Proof. induction a as [|c a IH]; simpl; [reflexivity|]. rewrite IH. reflexivity. Qed.

(** X3. The router never starts with a signing secret shorter than 32
    characters, and under NODE_ENV=production never with the development
    fallback: the secret is then the configured one. It refuses to start
    exactly when no secret is configured in production, or the configured
    secret is shorter than 32 characters. The fallback has 84 characters. *)
Theorem JWT_SECRET_init_strong (env_secret node_env : option string) (rnd : N) :
  match JWT_SECRET_init env_secret node_env rnd with
  | Val k =>
      (32 <= String.length k)%nat
      /\ (node_env = Some "production" -> env_secret = Some k)
      /\ (env_secret = Some k
          \/ (Js.truthy env_secret = false /\ String.length k = 84%nat))
  | Raise _ =>
      (Js.truthy env_secret = false /\ node_env = Some "production")
      \/ (exists k, env_secret = Some k /\ (String.length k < 32)%nat)
  end.
Proof.
  unfold JWT_SECRET_init.
  destruct (Js.truthy env_secret) eqn:Ht; cbn [negb].
  - destruct env_secret as [k|]; [|discriminate]. cbn [default from_option id]. cbv zeta.
    destruct (String.length k <? 32)%nat eqn:Hlen; cbv iota.
    + right. exists k. split; [reflexivity|]. apply Nat.ltb_lt. exact Hlen.
    + apply Nat.ltb_ge in Hlen. auto.
  - destruct (bool_decide (node_env = Some "production")) eqn:Hp; cbv iota.
    + apply bool_decide_eq_true in Hp. auto.
    + apply bool_decide_eq_false in Hp.
      rewrite string_length_append, hex_length.
      split; [cbn; lia|]. split; [intros H; contradiction|].
      right. split; reflexivity.
Qed.

(** ** Which bodies the schemas accept *)

Lemma loginSchema_Val_iff (E : Env) (b : gmap string string) (e p : string) :
  loginSchema E b = Val (e, p)
  <-> (b !! "email" = Some e /\ is_email E e = true
       /\ b !! "password" = Some p /\ min_length 6 p = true).
Proof.
  unfold loginSchema. split.
  - intros H. apply parsed_Val in H as [Herr [= -> ->]].
    apply app_eq_nil in Herr as [H1 H2].
    apply z_string_nil in H1 as (v1 & Hv1 & Hok1).
    apply z_string_nil in H2 as (v2 & Hv2 & Hok2).
    unfold field. rewrite Hv1, Hv2. auto.
  - intros (He & Hok & Hp & Hlen). unfold z_string, field.
    rewrite He, Hp, Hok, Hlen. reflexivity.
Qed.

Lemma registerSchema_Val_iff (E : Env) (b : gmap string string) (n e p : string) :
  registerSchema E b = Val (n, e, p)
  <-> (b !! "name" = Some n /\ min_length 2 n = true
       /\ b !! "email" = Some e /\ is_email E e = true
       /\ b !! "password" = Some p /\ min_length 6 p = true).
Proof.
  unfold registerSchema. split.
  - intros H. apply parsed_Val in H as [Herr [= -> -> ->]].
    apply app_eq_nil in Herr as [H1 Herr]. apply app_eq_nil in Herr as [H2 H3].
    apply z_string_nil in H1 as (v1 & Hv1 & Hok1).
    apply z_string_nil in H2 as (v2 & Hv2 & Hok2).
    apply z_string_nil in H3 as (v3 & Hv3 & Hok3).
    unfold field. rewrite Hv1, Hv2, Hv3. repeat split; assumption.
  - intros (Hn & Hnl & He & Hok & Hp & Hlen). unfold z_string, field.
    rewrite Hn, He, Hp, Hnl, Hok, Hlen. reflexivity.
Qed.

Lemma verifyOtpSchema_Val_iff (E : Env) (b : gmap string string) (e c : string) :
  verifyOtpSchema E b = Val (e, c)
  <-> (b !! "email" = Some e /\ is_email E e = true
       /\ b !! "code" = Some c /\ min_length 4 c = true).
Proof.
  split.
  - unfold verifyOtpSchema. intros H. apply parsed_Val in H as [Herr [= -> ->]].
    apply app_eq_nil in Herr as [H1 H2].
    apply z_string_nil in H1 as (v1 & Hv1 & Hok1).
    apply z_string_nil in H2 as (v2 & Hv2 & Hok2).
    unfold field. rewrite Hv1, Hv2. auto.
  - intros (He & Hok & Hc & Hlen). apply verifyOtpSchema_ok; assumption.
Qed.

(** ** Registration *)

(** register past CSRF validation, on a well-formed body. *)
Lemma post_register_eq (E : Env) (oid salt : string) (req : request) (s : state)
    (n e p : string) :
  presents_live_token req s ->
  registerSchema E (body req) = Val (n, e, p) ->
  post_register E oid salt req s =
    match User.findOne (user_email_setter E e) (users s) with
    | Some _ => (Val (res_error 409 "Email already in use"), s)
    | None =>
        (Val (mkResponse 201 JOk),
         mkState (clock s) (csrfTokens s) (timers s)
                 (User.create (User.mk oid n (user_email_setter E e) (bcrypt_hash E salt p))
                              (users s))
                 (otps s) (calls s))
    end.
Proof.
  intros Hlive Hb. unfold post_register, register_handler.
  rewrite (gated_eq req s _ _ Hlive), Hb.
  unfold try_catch, bind, User_findOne_email, User_findOne.
  destruct (User.findOne (user_email_setter E e) (users s)); reflexivity.
Qed.

Lemma user_findOne_create (x : string) (u : User.t) (c : list User.t) :
  User.findOne x c = None -> User.email u = x -> User.findOne x (User.create u c) = Some u.
Proof.
  unfold User.findOne, User.create. intros Hnone Hu.
  induction c as [|v c IH]; simpl in *.
  - rewrite bool_decide_true by exact Hu. reflexivity.
  - destruct (bool_decide (User.email v = x)); [discriminate|]. apply IH, Hnone.
Qed.

Lemma user_findOne_None (x : string) (c : list User.t) :
  User.findOne x c = None -> ~ In x (map User.email c).
Proof.
  unfold User.findOne. intros Hnone Hin. apply in_map_iff in Hin as (u & Hu & Hin).
  apply (find_none _ _ Hnone) in Hin. apply bool_decide_eq_false in Hin. contradiction.
Qed.

(** X4. Registration creates the account once. Past CSRF validation, on a
    body the schema accepts and for an e-mail no account has, register
    answers 201 and appends one account: the id the store assigns, the name,
    the e-mail as the schema setter stores it, and the bcrypt hash of the
    password (not the password). Any later registration whose e-mail the
    setter maps to the same address is answered 409 and changes nothing. *)
Theorem register_once (E : Env) (oid salt : string) (req : request) (s : state)
    (n e p : string) :
  presents_live_token req s ->
  registerSchema E (body req) = Val (n, e, p) ->
  User.findOne (user_email_setter E e) (users s) = None ->
  let s' := after (post_register E oid salt req) s in
  answer (post_register E oid salt req) s = mkResponse 201 JOk
  /\ users s' = (users s ++ [User.mk oid n (user_email_setter E e) (bcrypt_hash E salt p)])%list
  /\ otps s' = otps s /\ cache_of s' = cache_of s /\ calls s' = calls s
  /\ forall oid' salt' req' n' e' p',
       presents_live_token req' s' ->
       registerSchema E (body req') = Val (n', e', p') ->
       user_email_setter E e' = user_email_setter E e ->
       answer (post_register E oid' salt' req') s' = res_error 409 "Email already in use"
       /\ after (post_register E oid' salt' req') s' = s'.
Proof.
  intros Hlive Hb Hnew. cbv zeta. unfold answer, after.
  rewrite (post_register_eq E oid salt req s _ _ _ Hlive Hb), Hnew.
  cbn [fst snd users otps calls cache_of clock csrfTokens timers].
  repeat (split; [reflexivity|]).
  intros oid' salt' req' n' e' p' Hlive' Hb' Hsame.
  rewrite (post_register_eq E oid' salt' req' _ _ _ _ Hlive' Hb'). cbn [users].
  rewrite Hsame.
  rewrite (user_findOne_create (user_email_setter E e)
             (User.mk oid n (user_email_setter E e) (bcrypt_hash E salt p))
             (users s) Hnew eq_refl).
  auto.
Qed.

Lemma register_once_witness :
  let req := req_of "s" tok5 (register_body "Bob" "bob@x.com" "secret9") in
  let s' := after (post_register toyEnv "u2" "s1:" req) scene_csrf in
  answer (post_register toyEnv "u2" "s1:" req) scene_csrf = mkResponse 201 JOk
  /\ users s' = [ann; User.mk "u2" "Bob" "bob@x.com" "s1:secret9"].
Proof.
  pose proof (register_once toyEnv "u2" "s1:"
                (req_of "s" tok5 (register_body "Bob" "bob@x.com" "secret9"))
                scene_csrf "Bob" "bob@x.com" "secret9"
                ltac:(exists tok5; vm_compute; auto)
                ltac:(vm_compute; reflexivity) ltac:(vm_compute; reflexivity)) as H.
  cbv zeta in H. split; [exact (proj1 H)|exact (proj1 (proj2 H))].
Defined.

Lemma keeps_users_post_verify_token (E : Env) (req : request) :
  keeps users (post_verify_token E req).
Proof. keeps_handler. Qed.

Lemma keeps_users_post_refresh_token (E : Env) (req : request) :
  keeps users (post_refresh_token E req).
Proof. keeps_handler. Qed.

(** What register does to the accounts. *)
Lemma post_register_users (E : Env) (oid salt : string) (req : request) (s : state) :
  users (after (post_register E oid salt req) s) = users s
  \/ exists u, users (after (post_register E oid salt req) s) = (users s ++ [u])%list
               /\ User.findOne (User.email u) (users s) = None.
Proof.
  unfold after.
  destruct (validateCSRF_cases req (register_handler E oid salt req) s)
    as [[Hlive _]|[_ [msg Hblock]]].
  2:{ left. unfold post_register. rewrite Hblock. reflexivity. }
  destruct (registerSchema E (body req)) as [[[n e] p]|err] eqn:Hb.
  - rewrite (post_register_eq E oid salt req s _ _ _ Hlive Hb).
    destruct (User.findOne (user_email_setter E e) (users s)) eqn:Hf; [left; reflexivity|].
    right. eexists. split; [reflexivity|exact Hf].
  - left. unfold post_register, register_handler.
    rewrite (gated_eq req s _ _ Hlive), Hb. rewrite on_error_state. reflexivity.
Qed.

Lemma NoDup_map_filter {A B} (f : A -> B) (p : A -> bool) (l : list A) :
  List.NoDup (map f l) -> List.NoDup (map f (List.filter p l)).
Proof.
  induction l as [|a l IH]; simpl; [auto|].
  intros H. apply NoDup_cons_iff in H as [Hnot Hnd].
  destruct (p a); simpl; [|exact (IH Hnd)].
  apply List.NoDup_cons; [|exact (IH Hnd)].
  intros Hin. apply Hnot. apply in_map_iff in Hin as (x & Hx & Hin).
  apply filter_In in Hin as [Hin _]. apply in_map_iff. eauto.
Qed.

Lemma step_unique_emails (E : Env) (s : state) (ev : event) :
  List.NoDup (map User.email (users s)) -> List.NoDup (map User.email (users (step E s ev))).
Proof.
  intros H. destruct ev; cbn [step handler]; try exact H.
  - cbn [drop_user users]. apply NoDup_map_filter, H.
  - destruct (post_register_users E oid salt req s) as [-> | (u & -> & Hnew)]; [exact H|].
    rewrite map_app. cbn [map]. apply List.NoDup_app.
    + exact H.
    + constructor; [intros []|constructor].
    + intros x Hx Hin. cbn in Hin. destruct Hin as [<-|[]].
      exact (user_findOne_None _ _ Hnew Hx).
  - unfold after. rewrite keeps_users_post_login. exact H.
  - unfold after. rewrite keeps_users_post_verify_otp. exact H.
  - unfold after. rewrite keeps_users_post_verify_token. exact H.
  - unfold after. rewrite keeps_users_post_refresh_token. exact H.
Qed.

(** X6. An account that has just been registered can log in with the same
    e-mail and password. Provided bcrypt accepts the password against the
    hash it made of it, and the mail goes out, the login that follows the
    registration answers 200 with the pending token for that e-mail, and the
    OTP record of the e-mail holds the code drawn. *)
Theorem register_then_login (E : Env) (oid salt : string) (req_r req_l : request)
    (s : state) (n e p : string) (rnd : N) (acct : option string) (url : option string) :
  presents_live_token req_r s ->
  registerSchema E (body req_r) = Val (n, e, p) ->
  User.findOne (user_email_setter E e) (users s) = None ->
  bcrypt_compare E p (bcrypt_hash E salt p) = true ->
  presents_live_token req_l s ->
  body req_l !! "email" = Some e ->
  body req_l !! "password" = Some p ->
  ethereal_configured E = true \/ acct <> None ->
  let s1 := after (post_register E oid salt req_r) s in
  let s2 := after (post_login E rnd acct (Some url) req_l) s1 in
  answer (post_login E rnd acct (Some url) req_l) s1
    = res_json (JOtpStep (Jwt.sign (pending_payload e) (JWT_SECRET E) (clock s)) url)
  /\ Otp.findOne e (otps s2) = Some (Otp.mk e (otp_code rnd) (clock s)).
Proof.
  intros Hlive Hb Hnew Hbc Hlive2 Hbe Hbp Hmail. cbv zeta.
  pose proof (proj1 (registerSchema_Val_iff E _ _ _ _) Hb) as (_ & _ & _ & Hok & _ & Hlen).
  assert (Hb2 : loginSchema E (body req_l) = Val (e, p))
    by (apply loginSchema_Val_iff; auto).
  unfold answer, after.
  rewrite (post_register_eq E oid salt req_r s _ _ _ Hlive Hb), Hnew. cbn [snd].
  match goal with |- context [post_login E rnd acct (Some url) req_l ?st] =>
    rewrite (post_login_eq E rnd acct (Some url) req_l st _ _ Hlive2 Hb2)
  end.
  cbn [users].
  rewrite (user_findOne_create (user_email_setter E e)
             (User.mk oid n (user_email_setter E e) (bcrypt_hash E salt p))
             (users s) Hnew eq_refl).
  cbn [User.passwordHash]. rewrite Hbc.
  match goal with |- context [try_catch _ on_error ?st] =>
    pose proof (otp_issue_eq E rnd acct (Some url) st e) as Heq
  end.
  cbv zeta in Heq. rewrite Heq. clear Heq.
  assert (Hrec : forall c t, Otp.findOne e (Otp.create e c t (Otp.deleteMany e (otps s)))
                             = Some (Otp.mk e c t))
    by (intros; apply otp_findOne_create, otp_findOne_deleteMany).
  destruct Hmail as [-> | Hacct].
  - cbn [fst snd otps clock]. split; [reflexivity|apply Hrec].
  - destruct (ethereal_configured E); [cbn; split; [reflexivity|apply Hrec]|].
    destruct acct as [a|]; [|contradiction].
    cbn [fst snd otps clock]. split; [reflexivity|apply Hrec].
Qed.

Lemma register_then_login_witness :
  let req_r := req_of "s" tok5 (register_body "Bob" "bob@x.com" "secret9") in
  let req_l := req_of "s" tok5 (login_body "bob@x.com" "secret9") in
  let s1 := after (post_register toyEnv "u2" "s1:" req_r) scene_csrf in
  answer (post_login toyEnv 7 (Some "test@ethereal.email") (Some None) req_l) s1
  = res_json (JOtpStep (Jwt.sign (pending_payload "bob@x.com") (JWT_SECRET toyEnv) 0) None).
Proof.
  refine (proj1 (register_then_login toyEnv "u2" "s1:"
                   (req_of "s" tok5 (register_body "Bob" "bob@x.com" "secret9"))
                   (req_of "s" tok5 (login_body "bob@x.com" "secret9"))
                   scene_csrf "Bob" "bob@x.com" "secret9" 7%N (Some "test@ethereal.email")
                   None _ _ _ _ _ _ _ _)).
  - exists tok5. vm_compute. auto.
  - vm_compute. reflexivity.
  - vm_compute. reflexivity.
  - vm_compute. reflexivity.
  - exists tok5. vm_compute. auto.
  - vm_compute. reflexivity.
  - vm_compute. reflexivity.
  - right. discriminate.
Defined.

(** ** Malformed bodies *)

(** X7. Validation comes before any look at the stores. Past CSRF validation,
    a body a schema rejects is answered 400 with the list of issues, one per
    offending field in the order of the schema, and the state is unchanged.
    In particular a login with a well-formed e-mail and a password shorter
    than six characters gets the one issue on [password], whether or not the
    account exists. *)
Theorem malformed_body_400 (E : Env) (req : request) (s : state) :
  presents_live_token req s ->
  (forall oid salt err, registerSchema E (body req) = Raise err ->
     let errors :=
       (z_string (body req) "name" (min_length 2) "Name must be at least 2 characters"
        ++ z_string (body req) "email" (is_email E) "Please enter a valid email"
        ++ z_string (body req) "password" (min_length 6)
                    "Password must be at least 6 characters")%list in
     errors <> []
     /\ answer (post_register E oid salt req) s = mkResponse 400 (JValidation errors)
     /\ after (post_register E oid salt req) s = s)
  /\ (forall rnd acct sent err, loginSchema E (body req) = Raise err ->
        let errors :=
          (z_string (body req) "email" (is_email E) "Please enter a valid email"
           ++ z_string (body req) "password" (min_length 6)
                       "Password must be at least 6 characters")%list in
        errors <> []
        /\ answer (post_login E rnd acct sent req) s = mkResponse 400 (JValidation errors)
        /\ after (post_login E rnd acct sent req) s = s)
  /\ (forall err, verifyOtpSchema E (body req) = Raise err ->
        let errors :=
          (z_string (body req) "email" (is_email E) "Please enter a valid email"
           ++ z_string (body req) "code" (min_length 4) "Invalid code")%list in
        errors <> []
        /\ answer (post_verify_otp E req) s = mkResponse 400 (JValidation errors)
        /\ after (post_verify_otp E req) s = s)
  /\ (forall rnd acct sent e p,
        body req !! "email" = Some e -> is_email E e = true ->
        body req !! "password" = Some p -> (String.length p < 6)%nat ->
        answer (post_login E rnd acct sent req) s
        = mkResponse 400 (JValidation
                            [("password", "Password must be at least 6 characters")])).
Proof.
  intros Hlive.
  assert (Hraise : forall A (errs : list issue) (a : A) err,
             parsed errs a = Raise err -> errs <> [] /\ err = ZodError errs).
  { intros A errs a err H. destruct errs; [discriminate|].
    injection H as <-. split; [discriminate|reflexivity]. }
  split; [|split; [|split]].
  - intros oid salt err Hb. cbv zeta.
    pose proof Hb as Hb'. unfold registerSchema in Hb'.
    apply Hraise in Hb' as [Hne ->]. split; [exact Hne|].
    unfold answer, after, post_register, register_handler.
    rewrite (gated_eq req s _ _ Hlive), Hb. auto.
  - intros rnd acct sent err Hb. cbv zeta.
    pose proof Hb as Hb'. unfold loginSchema in Hb'.
    apply Hraise in Hb' as [Hne ->]. split; [exact Hne|].
    unfold answer, after, post_login, login_handler.
    rewrite (gated_eq req s _ _ Hlive), Hb. auto.
  - intros err Hb. cbv zeta.
    pose proof Hb as Hb'. unfold verifyOtpSchema in Hb'.
    apply Hraise in Hb' as [Hne ->]. split; [exact Hne|].
    unfold answer, after, post_verify_otp, verify_otp_handler.
    rewrite (gated_eq req s _ _ Hlive), Hb. auto.
  - intros rnd acct sent e p He Hok Hp Hlen.
    unfold answer, post_login, login_handler.
    rewrite (gated_eq req s _ _ Hlive).
    unfold loginSchema, z_string, min_length. rewrite He, Hp, Hok.
    apply Nat.leb_gt in Hlen. rewrite Hlen. reflexivity.
Qed.

Lemma malformed_body_400_witness :
  answer (post_login toyEnv 1 None None (req_of "s" tok5 (login_body "ann@x.com" "abc")))
         scene_csrf
  = mkResponse 400 (JValidation [("password", "Password must be at least 6 characters")]).
Proof.
  refine (proj2 (proj2 (proj2 (malformed_body_400 toyEnv
                                 (req_of "s" tok5 (login_body "ann@x.com" "abc")) scene_csrf _)))
            1%N None None "ann@x.com" "abc" _ _ _ _).
  - exists tok5. vm_compute. auto.
  - vm_compute. reflexivity.
  - vm_compute. reflexivity.
  - vm_compute. reflexivity.
  - vm_compute. lia.
Defined.

(** ** Every request gets an answer *)

Lemma responds_ret (P : response -> Prop) (r : response) : P r -> responds P (ret r).
Proof. intros H s. exists r. auto. Qed.

Lemma responds_try_catch (P : response -> Prop) (m : M response) (h : exn -> M response) :
  answers P m -> (forall e, responds P (h e)) -> responds P (try_catch m h).
Proof.
  intros Hm Hh s. unfold try_catch. specialize (Hm s).
  destruct (m s) as [[a|e] s1]; [exists a; auto|apply Hh].
Qed.

Lemma responds_on_error (P : response -> Prop) (e : exn) :
  (forall errors, P (mkResponse 400 (JValidation errors))) ->
  P (res_error 400 "Request failed") -> responds P (on_error e).
Proof. intros Hv Hf. destruct e; apply responds_ret; auto. Qed.

Lemma responds_validateCSRF (P : response -> Prop) (req : request) (next : M response) :
  (forall msg, P (res_error 403 msg)) -> responds P next ->
  responds P (validateCSRF req next).
Proof.
  intros H403 Hn s.
  destruct (validateCSRF_cases req next s) as [[_ ->]|[_ [msg ->]]];
    [apply Hn|exists (res_error 403 msg); auto].
Qed.

Lemma responds_verifyToken (P : response -> Prop) (E : Env) (req : request)
    (next : jwt -> M response) :
  (forall msg, P (res_error 401 msg)) -> (forall d, responds P (next d)) ->
  responds P (verifyToken E req next).
Proof.
  intros H401 Hn s. unfold verifyToken.
  destruct (auth_header req) as [[t|raw]|]; try (eexists; split; [reflexivity|apply H401]).
  unfold bind, Date_now. cbn.
  destruct (Jwt.verify t (JWT_SECRET E) (clock s)); [apply Hn|].
  eexists; split; [reflexivity|apply H401].
Qed.

Ltac status_step :=
  match goal with
  | |- answers _ (ret _) => apply answers_ret; unfold status_in; cbn; solve [auto 10]
  | |- answers _ (try_catch _ _) => apply answers_try_catch
  | |- answers _ (bind _ _) => apply answers_bind
  | |- answers _ (match ?x with _ => _ end) => destruct x
  | |- answers _ (if ?x then _ else _) => destruct x
  | |- forall _, _ => intro
  end.

Ltac status_solve := intros; unfold status_in; cbn; solve [auto 10].

Ltac status_codes :=
  first [ apply responds_validateCSRF; [status_solve|]
        | apply responds_verifyToken; [status_solve|intro] ];
  apply responds_try_catch;
  [ repeat status_step
  | intros; first [ apply responds_on_error; status_solve
                  | apply responds_ret; status_solve ] ].

(** X8. No exception leaves a route, and each route answers with one of its
    own status codes: register 201, 400, 403 or 409; login 200, 400, 401 or
    403; verify-otp 200, 400, 401, 403 or 404; verify-token and
    refresh-token 200, 400, 401 or 404; csrf-token always 200. *)
Theorem routes_always_answer (E : Env) (req : request) :
  (forall oid salt, responds (status_in [201; 400; 403; 409]) (post_register E oid salt req))
  /\ (forall rnd acct sent,
        responds (status_in [200; 400; 401; 403]) (post_login E rnd acct sent req))
  /\ responds (status_in [200; 400; 401; 403; 404]) (post_verify_otp E req)
  /\ responds (status_in [200; 400; 401; 404]) (post_verify_token E req)
  /\ responds (status_in [200; 400; 401; 404]) (post_refresh_token E req)
  /\ (forall rnd, responds (status_in [200]) (get_csrf_token rnd req)).
Proof.
  split; [|split; [|split; [|split; [|split]]]].
  - intros oid salt. unfold post_register, register_handler. status_codes.
  - intros rnd acct sent. unfold post_login, login_handler. status_codes.
  - unfold post_verify_otp, verify_otp_handler. status_codes.
  - unfold post_verify_token, verify_token_handler. status_codes.
  - unfold post_refresh_token, refresh_token_handler. status_codes.
  - intros rnd s. eexists. split; [reflexivity|]. unfold status_in. cbn. auto.
Qed.

(** ** Session tokens end to end *)

Lemma post_verify_token_eq (E : Env) (req : request) (s : state) :
  post_verify_token E req s =
    match auth_header req with
    | Some (Bearer t) =>
        match Jwt.verify t (JWT_SECRET E) (clock s) with
        | Some j =>
            match User.findById (sub (payload j)) (users s) with
            | Some u => (Val (res_json (JValid (public u))), s)
            | None => (Val (res_error 404 "User not found"), s)
            end
        | None => (Val (res_error 401 "Invalid or expired token"), s)
        end
    | _ => (Val (res_error 401 "No token provided"), s)
    end.
Proof.
  unfold post_verify_token.
  destruct (auth_header req) as [[t|raw]|] eqn:Hh;
    [|unfold verifyToken; rewrite Hh; reflexivity..].
  rewrite (verifyToken_bearer E req _ s t Hh).
  destruct (Jwt.verify t (JWT_SECRET E) (clock s)) as [j|]; [|reflexivity].
  unfold verify_token_handler, try_catch, bind, User_findById.
  destruct (User.findById (sub (payload j)) (users s)); reflexivity.
Qed.

(** X9. verify-token is read-only and exact. It never changes the state, and
    it answers [{valid: true, user}] exactly when the header is a bearer
    token signed with the router's secret, presented before its [exp], whose
    subject is the id of a stored account; the profile is that account's. *)
Theorem verify_token_exact (E : Env) (req : request) (s : state) (pu : public_user) :
  after (post_verify_token E req) s = s
  /\ (answer (post_verify_token E req) s = res_json (JValid pu)
      <-> exists j u,
            auth_header req = Some (Bearer (Jwt j))
            /\ signed_with j = JWT_SECRET E
            /\ (clock s / 1000 < exp j)%Z
            /\ User.findById (sub (payload j)) (users s) = Some u
            /\ pu = public u).
Proof.
  unfold after, answer. rewrite post_verify_token_eq.
  destruct (auth_header req) as [[t|raw]|].
  - destruct (Jwt.verify t (JWT_SECRET E) (clock s)) as [j|] eqn:Hv.
    + apply jwt_verify_Some in Hv as (-> & Hk & Hx).
      destruct (User.findById (sub (payload j)) (users s)) as [u|] eqn:Hu.
      * split; [reflexivity|]. cbn [fst]. split.
        -- intros [= <-]. exists j, u. auto.
        -- intros (j' & u' & [= <-] & _ & _ & Hu' & ->). congruence.
      * split; [reflexivity|]. cbn [fst]. split; [discriminate|].
        intros (j' & u' & [= <-] & _ & _ & Hu' & _). congruence.
    + split; [reflexivity|]. cbn [fst]. split; [discriminate|].
      intros (j' & u' & [= ->] & Hk & Hx & _). cbn in Hv.
      rewrite bool_decide_true in Hv by exact Hk.
      apply Z.ltb_lt in Hx. rewrite Hx in Hv. discriminate.
  - split; [reflexivity|]. cbn [fst]. split; [discriminate|].
    intros (j' & u' & H & _). discriminate.
  - split; [reflexivity|]. cbn [fst]. split; [discriminate|].
    intros (j' & u' & H & _). discriminate.
Qed.

Lemma jwt_verify_sign (p : claims) (secret : string) (t0 now : Z) :
  Jwt.verify (Jwt (Jwt.sign p secret t0)) secret now
  = if (now <? 1000 * (t0 / 1000 + 600))%Z then Some (Jwt.sign p secret t0) else None.
Proof.
  cbn [Jwt.verify Jwt.sign signed_with exp]. rewrite bool_decide_true by reflexivity.
  cbn [andb].
  destruct (now <? 1000 * (t0 / 1000 + 600))%Z eqn:Hn.
  - apply Z.ltb_lt in Hn.
    assert (now / 1000 < t0 / 1000 + 10 * 60)%Z as H
      by (apply Z.div_lt_upper_bound; lia).
    apply Z.ltb_lt in H. rewrite H. reflexivity.
  - apply Z.ltb_ge in Hn.
    assert (t0 / 1000 + 10 * 60 <= now / 1000)%Z as H
      by (apply Z.div_le_lower_bound; lia).
    apply Z.ltb_ge in H. rewrite H. reflexivity.
Qed.

(** X10. The session token verify-otp returns, followed through its life.
    Its window ends at [1000 * exp] milliseconds, which is at most, and less
    than a second before, the [expiresAt] told to the client. Before that
    instant verify-token accepts it for as long as the account is stored;
    from that instant on verify-token and refresh-token answer 401, also
    during the last fraction of a second before [expiresAt]. *)
Theorem session_token_window (E : Env) (req : request) (s : state) :
  status (answer (post_verify_otp E req) s) = 200 ->
  exists u,
    let j := Jwt.sign (session_payload u) (JWT_SECRET E) (clock s) in
    answer (post_verify_otp E req) s
      = res_json (JSession j (clock s + SESSION_MS) (public u))
    /\ (1000 * exp j <= clock s + SESSION_MS)%Z
    /\ (clock s + SESSION_MS < 1000 * exp j + 1000)%Z
    /\ forall req' s',
         auth_header req' = Some (Bearer (Jwt j)) ->
         ((clock s' < 1000 * exp j)%Z ->
          forall u', User.findById (Some (User._id u)) (users s') = Some u' ->
                     answer (post_verify_token E req') s' = res_json (JValid (public u')))
         /\ ((1000 * exp j <= clock s')%Z ->
             answer (post_verify_token E req') s' = res_error 401 "Invalid or expired token"
             /\ answer (post_refresh_token E req') s'
                = res_error 401 "Invalid or expired token").
Proof.
  intros H200. apply post_verify_otp_200 in H200 as (Hlive & Hb & r & u & Hr & Hc & Hu).
  exists u. cbv zeta. unfold answer at 1.
  rewrite (post_verify_otp_eq E req s _ _ Hlive Hb), Hr, Hu.
  rewrite bool_decide_true by exact Hc. cbn [fst].
  split; [reflexivity|]. cbn [Jwt.sign exp]. unfold SESSION_MS.
  pose proof (Z.mul_div_le (clock s) 1000 ltac:(lia)) as Hlo.
  pose proof (Z.mul_succ_div_gt (clock s) 1000 ltac:(lia)) as Hhi.
  split; [lia|]. split; [lia|].
  intros req' s' Hh. split.
  - intros Hearly u' Hu'. unfold answer. rewrite post_verify_token_eq, Hh.
    fold (Jwt.sign (session_payload u) (JWT_SECRET E) (clock s)).
    rewrite jwt_verify_sign.
    assert ((clock s' <? 1000 * (clock s / 1000 + 600))%Z = true) as ->
      by (apply Z.ltb_lt; lia).
    cbn [payload Jwt.sign session_payload sub]. rewrite Hu'. reflexivity.
  - intros Hlate.
    assert (Hv : Jwt.verify (Jwt (Jwt.sign (session_payload u) (JWT_SECRET E) (clock s)))
                            (JWT_SECRET E) (clock s') = None).
    { rewrite jwt_verify_sign.
      assert ((clock s' <? 1000 * (clock s / 1000 + 600))%Z = false) as ->
          by (apply Z.ltb_ge; lia).
      reflexivity. }
    unfold answer. rewrite post_verify_token_eq, Hh.
    unfold post_refresh_token. rewrite (verifyToken_bearer E req' _ s' _ Hh).
    fold (Jwt.sign (session_payload u) (JWT_SECRET E) (clock s)).
    rewrite Hv. auto.
Qed.

Lemma session_token_window_witness :
  exists u,
    let j := Jwt.sign (session_payload u) (JWT_SECRET toyEnv) (clock scene_late) in
    answer (post_verify_otp toyEnv verify_ann_late) scene_late
      = res_json (JSession j (clock scene_late + SESSION_MS) (public u))
    /\ (1000 * exp j <= clock scene_late + SESSION_MS)%Z
    /\ (clock scene_late + SESSION_MS < 1000 * exp j + 1000)%Z.
Proof.
  destruct (session_token_window toyEnv verify_ann_late scene_late
              ltac:(vm_compute; reflexivity)) as (u & H1 & H2 & H3 & _).
  exists u. auto.
Defined.

(** ** More on one-time codes *)

(** verify-otp changes the state only when it answers 200 or 404. *)
Lemma post_verify_otp_unchanged (E : Env) (req : request) (s : state) :
  status (answer (post_verify_otp E req) s) <> 200 ->
  status (answer (post_verify_otp E req) s) <> 404 ->
  after (post_verify_otp E req) s = s.
Proof.
  unfold answer, after. intros H200 H404.
  destruct (validateCSRF_cases req (verify_otp_handler E req) s)
    as [[Hlive _]|[_ [msg Hblock]]].
  2:{ unfold post_verify_otp. rewrite Hblock. reflexivity. }
  destruct (verifyOtpSchema E (body req)) as [[e c]|err] eqn:Hb.
  - rewrite (post_verify_otp_eq E req s _ _ Hlive Hb) in *.
    destruct (Otp.findOne e (otps s)) as [r|]; [|reflexivity].
    destruct (bool_decide (Otp.code r = c)); [|reflexivity].
    destruct (User.findOne _ (users s)); exfalso; [apply H200|apply H404]; reflexivity.
  - unfold post_verify_otp, verify_otp_handler.
    rewrite (gated_eq req s _ _ Hlive), Hb. apply on_error_state.
Qed.

Lemma otp_records_deleteMany_other (e e' : string) (c : list Otp.t) :
  e <> e' -> otp_records e' (Otp.deleteMany e c) = otp_records e' c.
Proof.
  intros Hne. unfold otp_records, Otp.deleteMany.
  induction c as [|r c IH]; simpl; [reflexivity|].
  destruct (Otp.has_email e r) eqn:He; destruct (Otp.has_email e' r) eqn:He'; simpl;
    rewrite ?He'; try (f_equal; exact IH); try exact IH.
  exfalso. unfold Otp.has_email in He, He'.
  apply bool_decide_eq_true in He, He'. congruence.
Qed.

(** X12. login and verify-otp touch the OTP records of the e-mail in the
    request body and of no other: the records of every other address are
    the same before and after, whatever the answer. *)
Theorem otp_routes_touch_one_email (E : Env) (s : state) (req : request) (e' : string) :
  field (body req) "email" <> e' ->
  (forall rnd acct sent,
      otp_records e' (otps (after (post_login E rnd acct sent req) s))
      = otp_records e' (otps s))
  /\ otp_records e' (otps (after (post_verify_otp E req) s)) = otp_records e' (otps s).
Proof.
  intros Hne. split.
  - intros rnd acct sent.
    destruct (post_login_otps E rnd acct sent req s) as [-> | ->]; [reflexivity|].
    rewrite otp_records_create, bool_decide_false by exact Hne.
    rewrite app_nil_r. apply otp_records_deleteMany_other, Hne.
  - destruct (post_verify_otp_otps E req s) as [-> | ->]; [reflexivity|].
    apply otp_records_deleteMany_other, Hne.
Qed.

Lemma otp_routes_touch_one_email_witness :
  otp_records "ann@x.com"
    (otps (after (post_verify_otp toyEnv (verify_ann_late)) scene_late))
  <> otp_records "ann@x.com" (otps scene_late)
  /\ otp_records "bob@x.com"
       (otps (after (post_verify_otp toyEnv (verify_ann_late)) scene_late))
     = otp_records "bob@x.com" (otps scene_late).
Proof.
  split; [vm_compute; discriminate|].
  exact (proj2 (otp_routes_touch_one_email toyEnv scene_late verify_ann_late "bob@x.com"
                  ltac:(vm_compute; discriminate))).
Defined.

Lemma find_filter_keep {A} (p q : A -> bool) (l : list A) (r : A) :
  List.find p l = Some r -> q r = true -> List.find p (List.filter q l) = Some r.
Proof.
  induction l as [|a l IH]; simpl; [discriminate|].
  destruct (p a) eqn:Hp.
  - intros [= ->] Hq. rewrite Hq. simpl. rewrite Hp. reflexivity.
  - intros Hf Hq. destruct (q a); simpl; [rewrite Hp|]; apply IH; assumption.
Qed.

Lemma find_filter_None {A} (p q : A -> bool) (l : list A) :
  List.find p l = None -> List.find p (List.filter q l) = None.
Proof.
  induction l as [|a l IH]; simpl; [reflexivity|].
  destruct (p a) eqn:Hp; [discriminate|].
  intros Hf. destruct (q a); simpl; [rewrite Hp|]; apply IH, Hf.
Qed.

(** A request that CSRF validation stops gets the same answer in any state
    with the same cache. *)
Lemma validateCSRF_blocked_answer (req : request) (next next' : M response)
    (s s' : state) :
  csrfTokens s' = csrfTokens s ->
  ~ presents_live_token req s ->
  (validateCSRF req next s).1 = (validateCSRF req next' s').1.
Proof.
  intros Hc Hno. unfold validateCSRF. rewrite Hc.
  destruct (csrf_header req) as [tok|] eqn:Hh; simpl; [|reflexivity].
  destruct (Js.nonempty tok) eqn:Hne; simpl; [|reflexivity].
  destruct (csrfTokens s !! sessionId req) as [st|] eqn:Hs; simpl; [|reflexivity].
  destruct (Js.nonempty st) eqn:Hst; simpl; [|reflexivity].
  unfold Js.strict_ne. destruct (bool_decide (Some st = Some tok)) eqn:Hd; simpl;
    [|reflexivity].
  apply bool_decide_eq_true in Hd. injection Hd as ->.
  exfalso. apply Hno. exists tok. auto.
Qed.

(** X13. The TTL monitor never takes a code away early. When the record
    verify-otp would find for the request's e-mail is younger than 600
    seconds (or there is none), a pass of the monitor changes nothing about
    the answer: verify-otp answers after the pass as it would have before. *)
Theorem ttl_pass_spares_young_codes (E : Env) (req : request) (s : state) :
  (forall r, Otp.findOne (field (body req) "email") (otps s) = Some r ->
             (clock s < Otp.createdAt r + Otp.expires * 1000)%Z) ->
  Otp.findOne (field (body req) "email") (otps (ttl_pass s))
  = Otp.findOne (field (body req) "email") (otps s)
  /\ answer (post_verify_otp E req) (ttl_pass s) = answer (post_verify_otp E req) s.
Proof.
  intros Hyoung.
  assert (Hfind : Otp.findOne (field (body req) "email") (otps (ttl_pass s))
                  = Otp.findOne (field (body req) "email") (otps s)).
  { cbn [ttl_pass otps]. unfold Otp.findOne, Otp.ttl_pass.
    destruct (find (Otp.has_email (field (body req) "email")) (otps s)) as [r|] eqn:Hr.
    - apply find_filter_keep; [exact Hr|].
      unfold Otp.past_ttl. apply negb_true_iff, Z.leb_gt. apply Hyoung. exact Hr.
    - apply find_filter_None, Hr. }
  split; [exact Hfind|]. unfold answer.
  destruct (validateCSRF_cases req (verify_otp_handler E req) s)
    as [[Hlive _]|[Hno [msg Hblock]]].
  - destruct (verifyOtpSchema E (body req)) as [[e c]|err] eqn:Hb.
    + pose proof (verifyOtpSchema_Val E _ _ _ Hb) as [He _].
      rewrite (post_verify_otp_eq E req s _ _ Hlive Hb).
      rewrite (post_verify_otp_eq E req (ttl_pass s) _ _ Hlive Hb).
      rewrite He, Hfind. cbn [ttl_pass users clock].
      destruct (Otp.findOne _ (otps s)) as [r|]; [|reflexivity].
      destruct (bool_decide _); [|reflexivity].
      destruct (User.findOne _ (users s)); reflexivity.
    + unfold post_verify_otp, verify_otp_handler.
      rewrite (gated_eq req s _ _ Hlive), (gated_eq req (ttl_pass s) _ _ Hlive), Hb.
      destruct err; reflexivity.
  - unfold post_verify_otp.
    rewrite (validateCSRF_blocked_answer req (verify_otp_handler E req)
               (verify_otp_handler E req) s (ttl_pass s) eq_refl Hno).
    reflexivity.
Qed.

Lemma ttl_pass_spares_young_codes_witness :
  answer (post_verify_otp toyEnv (verify_ann "100042")) (ttl_pass scene_logged_in)
  = answer (post_verify_otp toyEnv (verify_ann "100042")) scene_logged_in.
Proof.
  refine (proj2 (ttl_pass_spares_young_codes toyEnv (verify_ann "100042") scene_logged_in _)).
  intros r. vm_compute. intros [= <-]. reflexivity.
Defined.

(** X14. verify-otp is bound neither to the pending token nor to the session
    that logged in. Two requests with the same body that both pass CSRF
    validation, each for its own session and whatever their Authorization
    headers, get the same answer and leave the same state. *)
Theorem verify_otp_unbound (E : Env) (req1 req2 : request) (s : state) :
  presents_live_token req1 s ->
  presents_live_token req2 s ->
  body req1 = body req2 ->
  post_verify_otp E req1 s = post_verify_otp E req2 s.
Proof.
  intros H1 H2 Hb. unfold post_verify_otp.
  rewrite (validateCSRF_pass req1 _ s H1), (validateCSRF_pass req2 _ s H2).
  unfold verify_otp_handler. rewrite Hb. reflexivity.
Qed.

Lemma verify_otp_unbound_witness :
  let s := step toyEnv scene_logged_in (GetCsrfToken 9 (get_req "t")) in
  post_verify_otp toyEnv (verify_ann "100042") s
  = post_verify_otp toyEnv
      (mkRequest (hdrs "t" (generateCSRFToken 9)) (Some (OtherScheme "Basic Zm9v"))
                 "10.0.0.9" (otp_body "ann@x.com" "100042")) s.
Proof.
  apply verify_otp_unbound.
  - exists tok5. vm_compute. auto.
  - exists (generateCSRFToken 9). vm_compute. auto.
  - reflexivity.
Defined.

(** * Properties of the web client against the router *)

(** ** The CSRF service *)

Lemma node_headers_session (sid : string) :
  node_headers [("X-Session-Id", sid)] !! "x-session-id" = Some sid
  /\ node_headers [("X-Session-Id", sid)] !! "X-Session-Id" = None.
Proof. split; reflexivity. Qed.

(** The headers of a JSON post of a service that holds a token. *)
Lemma json_post_headers (c : CSRFService.t) (addr : string) (b : gmap string string)
    (tok : string) :
  CSRFService.authToken c = Some tok -> Js.nonempty tok = true ->
  headers (json_post c addr b) !! "x-session-id" = Some (CSRFService.sessionId c)
  /\ headers (json_post c addr b) !! "X-Session-Id" = None
  /\ headers (json_post c addr b) !! "x-csrf-token" = Some tok
  /\ headers (json_post c addr b) !! "X-CSRF-Token" = None.
Proof.
  intros Htok Hne. unfold json_post, CSRFService.getAuthHeaders. rewrite Htok, Hne.
  cbn [headers]. repeat split; reflexivity.
Qed.

Lemma json_post_session (c : CSRFService.t) (addr : string) (b : gmap string string)
    (tok : string) :
  CSRFService.authToken c = Some tok -> Js.nonempty tok = true ->
  Js.nonempty (CSRFService.sessionId c) = true ->
  sessionId (json_post c addr b) = CSRFService.sessionId c
  /\ csrf_header (json_post c addr b) = Some tok.
Proof.
  intros Htok Hne Hsid.
  destruct (json_post_headers c addr b tok Htok Hne) as (H1 & H2 & H3 & H4).
  unfold sessionId, csrf_header, Js.oror. rewrite H1, H2, H3, H4. cbn.
  rewrite Hsid, Hne. cbn. rewrite Hsid. auto.
Qed.

Lemma get_req_session (sid addr : string) :
  Js.nonempty sid = true ->
  sessionId (mkRequest (node_headers [("X-Session-Id", sid)]) None addr ∅) = sid.
Proof.
  intros Hsid. unfold sessionId, Js.oror. cbn [headers].
  destruct (node_headers_session sid) as [-> ->]. cbn. rewrite Hsid. cbn.
  rewrite Hsid. reflexivity.
Qed.

(** A service without a cached token asks the router. *)
Lemma getAuthCSRFToken_fetch (addr : string) (rnd : N) (c : CSRFService.t) (s : state) :
  Js.truthy (CSRFService.authToken c) = false ->
  Js.nonempty (CSRFService.sessionId c) = true ->
  CSRFService.getAuthCSRFToken addr rnd c s
  = (Val (Some (generateCSRFToken rnd)),
     CSRFService.mk (Some (generateCSRFToken rnd)) (CSRFService.apiToken c)
                    (CSRFService.sessionId c),
     after (get_csrf_token rnd (get_req (CSRFService.sessionId c))) s).
Proof.
  intros Hnone Hsid. unfold CSRFService.getAuthCSRFToken. rewrite Hnone.
  unfold answer, after, get_csrf_token. cbn [fst snd].
  rewrite (get_req_session _ addr Hsid).
  assert (Hget : sessionId (get_req (CSRFService.sessionId c)) = CSRFService.sessionId c).
  { unfold sessionId, get_req, Js.oror. cbn [headers].
    rewrite lookup_insert_eq. cbn. rewrite Hsid. cbn. rewrite Hsid. reflexivity. }
  rewrite Hget. reflexivity.
Qed.


Lemma validateCSRF_invalid (req : request) (next : M response) (s : state) (tok : string) :
  csrf_header req = Some tok -> Js.nonempty tok = true ->
  csrfTokens s !! sessionId req <> Some tok ->
  validateCSRF req next s = (Val (res_error 403 "Invalid CSRF token"), s).
Proof.
  intros Hh Hne Hs. unfold validateCSRF. rewrite Hh. cbn [Js.truthy]. rewrite Hne.
  cbn [negb].
  destruct (negb (Js.truthy (csrfTokens s !! sessionId req))) eqn:Ht; [reflexivity|].
  cbn [orb]. unfold Js.strict_ne. rewrite bool_decide_false by exact Hs. reflexivity.
Qed.

Lemma get_req_sessionId (sid : string) :
  Js.nonempty sid = true -> sessionId (get_req sid) = sid.
Proof.
  intros Hsid. unfold sessionId, get_req, Js.oror. cbn [headers].
  rewrite lookup_insert_eq. cbn. rewrite Hsid. cbn. rewrite Hsid. reflexivity.
Qed.

(** ** The login page, from the form to the session *)






(** ** Refreshing the session *)



(** * More on the CSRF cache *)

Lemma step_clock_mono (E : Env) (s : state) (ev : event) :
  (clock s <= clock (step E s ev))%Z.
Proof.
  pose proof (step_cache E s ev) as Hc.
  destruct ev; try (apply cache_of_eq in Hc as (-> & _ & _); lia).
  - cbn. lia.
  - cbn. lia.
Qed.

(** While the clock has not reached [d], a session whose only pending timer
    is set for [d] and that asks for no new token keeps its token. *)
Lemma token_kept_step (E : Env) (s : state) (ev : event) (sid tok : string) (d : Z) :
  asks_token sid ev = false ->
  (clock (step E s ev) < d)%Z ->
  csrfTokens s !! sid = Some tok /\ (forall d', In (d', sid) (timers s) -> d' = d) ->
  csrfTokens (step E s ev) !! sid = Some tok
  /\ (forall d', In (d', sid) (timers (step E s ev)) -> d' = d).
Proof.
  intros Hev Hclock [Hm Ht]. pose proof (step_cache E s ev) as Hc.
  destruct ev;
    try (apply cache_of_eq in Hc as (_ & Hm' & Ht'); rewrite Hm', Ht'; auto).
  - cbn [step] in *. unfold advance in *. cbn [csrfTokens timers clock] in *. split.
    + rewrite foldr_fire_lookup.
      destruct (existsb _ _) eqn:Hex; [|exact Hm].
      apply existsb_exists in Hex as ([d' k] & Hin & Hk).
      apply bool_decide_eq_true in Hk. cbn in Hk. subst k.
      apply filter_In in Hin as [Hin Hdue].
      apply Ht in Hin. subst d'. unfold due in Hdue. cbn in Hdue.
      apply Z.leb_le in Hdue. lia.
    + intros d' Hin. apply filter_In in Hin as [Hin _]. exact (Ht d' Hin).
  - cbn [step handler] in *. unfold after, get_csrf_token in *.
    cbn [snd csrfTokens timers] in *. cbn [asks_token] in Hev.
    apply bool_decide_eq_false in Hev. split.
    + rewrite lookup_insert_ne by exact Hev. exact Hm.
    + intros d' Hin. apply in_app_or in Hin as [Hin|[Hin|[]]]; [exact (Ht d' Hin)|].
      injection Hin as _ Hs. contradiction.
Qed.

(** X19. A token lives its full five minutes when nothing interferes. When a
    session with no pending timer is issued a token and asks for no other,
    the cache holds that token in every later state whose clock is less
    than five minutes past the issuance, so a request presenting it passes
    CSRF validation throughout. *)
Theorem csrf_token_lives_full_ttl (E : Env) (s : state) (rnd : N) (req0 : request)
    (evs : list event) :
  (forall d, ~ In (d, sessionId req0) (timers s)) ->
  existsb (asks_token (sessionId req0)) evs = false ->
  (clock (run E evs (after (get_csrf_token rnd req0) s)) < clock s + CSRF_TTL)%Z ->
  csrfTokens (run E evs (after (get_csrf_token rnd req0) s)) !! sessionId req0
  = Some (generateCSRFToken rnd)
  /\ forall req, sessionId req = sessionId req0 ->
                 csrf_header req = Some (generateCSRFToken rnd) ->
                 presents_live_token req (run E evs (after (get_csrf_token rnd req0) s)).
Proof.
  intros Hfresh Hev Hclock.
  assert (Hinv : csrfTokens (run E evs (after (get_csrf_token rnd req0) s)) !! sessionId req0
                 = Some (generateCSRFToken rnd)
                 /\ (forall d', In (d', sessionId req0)
                                   (timers (run E evs (after (get_csrf_token rnd req0) s))) ->
                                d' = (clock s + CSRF_TTL)%Z)).
  { induction evs as [|ev evs IH] using rev_ind.
    - cbn [run foldl]. unfold after, get_csrf_token. cbn [snd csrfTokens timers]. split.
      + apply lookup_insert_eq.
      + intros d' Hin. apply in_app_or in Hin as [Hin|[Hin|[]]].
        * exfalso. exact (Hfresh d' Hin).
        * injection Hin as Hd. symmetry. exact Hd.
    - rewrite run_snoc in *. rewrite existsb_app in Hev.
      apply orb_false_iff in Hev as [Hevs Hev]. cbn [existsb] in Hev.
      rewrite orb_false_r in Hev.
      apply token_kept_step; [exact Hev|exact Hclock|].
      apply IH; [exact Hevs|].
      pose proof (step_clock_mono E (run E evs (after (get_csrf_token rnd req0) s)) ev). lia. }
  destruct Hinv as [Hm _]. split; [exact Hm|].
  intros req Hs Hh. exists (generateCSRFToken rnd).
  split; [apply generateCSRFToken_nonempty|]. rewrite Hs. auto.
Qed.

Lemma csrf_token_lives_full_ttl_witness :
  csrfTokens (run toyEnv [login_ann 42; Advance 299999] scene_csrf) !! "s" = Some tok5.
Proof.
  refine (proj1 (csrf_token_lives_full_ttl toyEnv (boot 0 [ann]) 5 (get_req "s")
                   [login_ann 42; Advance 299999] _ _ _)).
  - intros d [].
  - vm_compute. reflexivity.
  - vm_compute. reflexivity.
Defined.

(** * The session countdown of the pages *)

Lemma two_digit_seconds (n : nat) :
  (n < 60)%nat ->
  String.length (padStart 2 "0" (pretty (Z.of_nat n))) = 2%nat
  /\ padStart 2 "0" (pretty (Z.of_nat n))
     = (if (Z.of_nat n <? 10)%Z then String "0" (pretty (Z.of_nat n))
        else pretty (Z.of_nat n)).
Proof.
  intros H.
  do 60 (destruct n as [|n]; [vm_compute; split; reflexivity|]).
  lia.
Qed.

(** X20. The countdown shows the whole seconds left, never a negative time.
    With an expiry [e] set, the text computed at time [now] is the minutes,
    a colon and a seconds field of exactly two characters (zero-padded below
    ten); minutes and seconds are non-negative, the seconds stay below 60,
    together they are the milliseconds left divided by 1000 and rounded
    down, and from the expiry on the text is 0:00. *)
Theorem timeRemaining_format (now e : Z) :
  e <> 0%Z ->
  exists (m sec : Z) (ss : string),
    timeRemaining now (Some e) = Some (String.append (pretty m) (String.append ":" ss))
    /\ (0 <= m)%Z /\ (0 <= sec < 60)%Z
    /\ (60 * m + sec = Z.max 0 (e - now) / 1000)%Z
    /\ String.length ss = 2%nat
    /\ ss = (if (sec <? 10)%Z then String "0" (pretty sec) else pretty sec)
    /\ ((e <= now)%Z -> timeRemaining now (Some e) = Some "0:00").
Proof.
  intros He. unfold timeRemaining.
  destruct (e =? 0)%Z eqn:H0; [apply Z.eqb_eq in H0; contradiction|].
  set (r := Z.max 0 (e - now)).
  assert (Hr : (0 <= r)%Z) by (unfold r; lia).
  set (q := (r mod 60000)%Z).
  assert (Hq : (0 <= q < 60000)%Z) by (unfold q; apply Z.mod_pos_bound; lia).
  assert (Hsec : (0 <= q / 1000 < 60)%Z).
  { split; [apply Z.div_pos; lia|apply Z.div_lt_upper_bound; lia]. }
  pose proof (two_digit_seconds (Z.to_nat (q / 1000)) ltac:(lia)) as [Hlen Hss].
  rewrite Z2Nat.id in Hlen, Hss by lia.
  exists (r / 60000)%Z, (q / 1000)%Z, (padStart 2 "0" (pretty (q / 1000)%Z)).
  cbv zeta. fold r. fold q.
  split; [reflexivity|].
  split; [apply Z.div_pos; lia|].
  split; [exact Hsec|].
  split.
  { pose proof (Z.div_mod r 60000 ltac:(lia)) as Hdm. fold q in Hdm.
    rewrite Hdm at 2.
    replace (60000 * (r / 60000) + q)%Z with (60 * (r / 60000) * 1000 + q)%Z by lia.
    rewrite Z.div_add_l by lia. reflexivity. }
  split; [exact Hlen|]. split; [exact Hss|].
  intros Hle. assert (r = 0%Z) as Hz by (unfold r; lia).
  unfold q. rewrite Hz. reflexivity.
Qed.

Lemma timeRemaining_format_witness :
  exists (m sec : Z) (ss : string),
    timeRemaining 1000 (Some 600500%Z)
    = Some (String.append (pretty m) (String.append ":" ss))
    /\ (0 <= m)%Z /\ (0 <= sec < 60)%Z
    /\ (60 * m + sec = Z.max 0 (600500 - 1000) / 1000)%Z
    /\ String.length ss = 2%nat
    /\ ss = (if (sec <? 10)%Z then String "0" (pretty sec) else pretty sec)
    /\ ((600500 <= 1000)%Z -> timeRemaining 1000 (Some 600500%Z) = Some "0:00").
Proof. apply (timeRemaining_format 1000 600500). discriminate. Defined.

(** * Requests in flight *)

(** ** Run without interruption, a request is the handler of before *)

Lemma complete_pbind (E : Env) {A B} (p : proc A) (f : A -> proc B) (s : state) :
  complete E (pbind p f) s
  = match complete E p s with
    | (Val a, s') => complete E (f a) s'
    | (Raise e, s') => (Raise e, s')
    end.
Proof.
  revert s. induction p as [a|e|X op k IH]; intros s; cbn; try reflexivity.
  destruct (exec E op s) as [o s']. apply IH.
Qed.

Lemma complete_ptry (E : Env) {A} (p : proc A) (h : exn -> proc A) (s : state) :
  complete E (ptry p h) s
  = match complete E p s with
    | (Val a, s') => (Val a, s')
    | (Raise e, s') => complete E (h e) s'
    end.
Proof.
  revert s. induction p as [a|e|X op k IH]; intros s; cbn; try reflexivity.
  destruct (exec E op s) as [o s']. apply IH.
Qed.

Lemma complete_await (E : Env) {X} (op : io X) (s : state) :
  complete E (await op) s = exec E op s.
Proof.
  cbn. destruct (exec E op s) as [[x|e] s']; reflexivity.
Qed.

Lemma validateCSRF_verdict (req : request) (next : M response) (s : state) :
  validateCSRF req next s
  = match csrf_verdict req s with
    | Some r => (Val r, s)
    | None => next s
    end.
Proof.
  unfold csrf_verdict, validateCSRF.
  destruct (negb (Js.truthy (csrf_header req))); [reflexivity|].
  destruct (negb (Js.truthy (csrfTokens s !! sessionId req))
            || Js.strict_ne (csrfTokens s !! sessionId req) (csrf_header req));
    reflexivity.
Qed.

Lemma complete_gated (E : Env) (req : request) (p : proc response) (s : state) :
  complete E (gated req p) s = validateCSRF req (complete E p) s.
Proof.
  rewrite validateCSRF_verdict. unfold gated. cbn.
  destruct (csrf_verdict req s); reflexivity.
Qed.

Lemma complete_on_error (E : Env) (e : exn) (s : state) :
  complete E (on_error_proc e) s = on_error e s.
Proof. destruct e; reflexivity. Qed.

Lemma complete_register_proc (E : Env) (oid salt : string) (req : request) (s : state) :
  complete E (register_proc E oid salt req) s = register_handler E oid salt req s.
Proof.
  unfold register_proc, register_handler, try_catch, bind, lift.
  destruct (registerSchema E (body req)) as [[[n e] p]|err]; cbn;
    [|apply complete_on_error].
  destruct (User.findOne (user_email_setter E e) (users s)); reflexivity.
Qed.

Lemma complete_login_proc (E : Env) (rnd : N) (acct : option string)
    (sent : option (option string)) (req : request) (s : state) :
  complete E (login_proc E rnd acct sent req) s = login_handler E rnd acct sent req s.
Proof.
  unfold login_proc, login_handler, try_catch, bind, lift.
  destruct (loginSchema E (body req)) as [[e p]|err]; cbn;
    [|apply complete_on_error].
  destruct (User.findOne (user_email_setter E e) (users s)) as [u|]; [|reflexivity].
  cbn. destruct (bcrypt_compare E p (User.passwordHash u)); [|reflexivity].
  cbn. unfold createEtherealTransporter.
  destruct (ethereal_configured E); cbn;
    [|destruct acct; cbn]; destruct sent; reflexivity.
Qed.

Lemma complete_verify_otp_proc (E : Env) (req : request) (s : state) :
  complete E (verify_otp_proc E req) s = verify_otp_handler E req s.
Proof.
  unfold verify_otp_proc, verify_otp_handler, try_catch, bind, lift.
  destruct (verifyOtpSchema E (body req)) as [[e c]|err]; cbn;
    [|apply complete_on_error].
  destruct (Otp.findOne e (otps s)) as [r|]; [|reflexivity].
  cbn. destruct (bool_decide (Otp.code r = c)); [|reflexivity].
  cbn. destruct (find _ (users s)); reflexivity.
Qed.

Lemma complete_verified (E : Env) (req : request) (nextp : jwt -> proc response)
    (next : jwt -> M response) (s : state) :
  (forall d s', complete E (nextp d) s' = next d s') ->
  complete E (verified E req nextp) s = verifyToken E req next s.
Proof.
  intros H. unfold verified, verifyToken.
  destruct (auth_header req) as [[t|raw]|]; try reflexivity.
  cbn. unfold bind, Date_now.
  destruct (Jwt.verify t (JWT_SECRET E) (clock s)); [apply H|reflexivity].
Qed.

Lemma complete_verify_token_proc (E : Env) (d : jwt) (s : state) :
  complete E (verify_token_proc d) s = verify_token_handler d s.
Proof.
  unfold verify_token_proc, verify_token_handler, try_catch, bind. cbn.
  destruct (User.findById (sub (payload d)) (users s)); reflexivity.
Qed.

Lemma complete_refresh_token_proc (E : Env) (d : jwt) (s : state) :
  complete E (refresh_token_proc d) s = refresh_token_handler E d s.
Proof.
  unfold refresh_token_proc, refresh_token_handler, try_catch, bind. cbn.
  destruct (User.findById (sub (payload d)) (users s)); reflexivity.
Qed.

(** Every request, run from its arrival to its end with nothing in between,
    answers and leaves the state as its handler does. *)
Lemma complete_start (E : Env) (ev : event) (s : state) :
  match start E ev, handler E ev with
  | Some p, Some m => complete E p s = m s
  | None, None => True
  | _, _ => False
  end.
Proof.
  destruct ev; cbn [start handler]; try exact I.
  - apply complete_await.
  - rewrite complete_gated. unfold post_register.
    rewrite !validateCSRF_verdict. destruct (csrf_verdict req s); [reflexivity|].
    apply complete_register_proc.
  - rewrite complete_gated. unfold post_login.
    rewrite !validateCSRF_verdict. destruct (csrf_verdict req s); [reflexivity|].
    apply complete_login_proc.
  - rewrite complete_gated. unfold post_verify_otp.
    rewrite !validateCSRF_verdict. destruct (csrf_verdict req s); [reflexivity|].
    apply complete_verify_otp_proc.
  - apply complete_verified. apply complete_verify_token_proc.
  - apply complete_verified. apply complete_refresh_token_proc.
Qed.

(** ** Serving one request at a time *)

Lemma iter_resume_done (E : Env) {A} (n : nat) (p : proc A) (s : state) :
  match p with Await _ _ => False | _ => True end ->
  Nat.iter n (resume E) (p, s) = (p, s).
Proof.
  intros Hp. induction n as [|n IH]; [reflexivity|].
  rewrite Nat.iter_succ, IH. destruct p; try reflexivity. destruct Hp.
Qed.

(** Resumed often enough, a request ends as it does when run without
    interruption. *)
Lemma drive (E : Env) {A} (p : proc A) (n : nat) (s : state) :
  awaits_le p n ->
  Nat.iter n (resume E) (to_await E p s) = (plift (complete E p s).1, (complete E p s).2).
Proof.
  revert n s. induction p as [a|e|X op k IH]; intros n s Hn.
  - apply (iter_resume_done E n (Return a) s I).
  - apply (iter_resume_done E n (Throw e) s I).
  - cbn [to_await complete awaits_le] in *. destruct (yields op) eqn:Hy.
    + destruct n as [|m]; [destruct Hn|].
      rewrite Nat.iter_succ_r. unfold resume at 2. cbn [fst snd].
      destruct (exec E op s) as [o s']. apply IH, Hn.
    + destruct (exec E op s) as [o s']. apply IH, Hn.
Qed.

Lemma irun_resumes (E : Env) (k : nat) (fl : list (proc response)) (p : proc response)
    (s : state) :
  irun E (repeat (Resume (length fl)) k) (mkI s (fl ++ [p]))
  = mkI (Nat.iter k (resume E) (p, s)).2 (fl ++ [(Nat.iter k (resume E) (p, s)).1]).
Proof.
  revert p s. induction k as [|k IH]; intros p s; [reflexivity|].
  rewrite Nat.iter_succ_r. cbn [repeat irun foldl]. fold (irun E).
  unfold istep at 2. cbn [flight server].
  rewrite lookup_app_r by lia. rewrite Nat.sub_diag. cbn [lookup list_lookup].
  destruct (resume E (p, s)) as [p' s'] eqn:Hr.
  rewrite <- (Nat.add_0_r (length fl)) at 1. rewrite insert_app_r. cbn.
  apply IH.
Qed.

Ltac walk :=
  repeat (cbn in *;
          match goal with
          | |- forall _ : outcome _, _ => intro
          | |- _ /\ _ => split
          | |- context [plift ?o] => destruct o
          | |- context [on_error_proc ?e] => destruct e
          | |- context [match ?x with _ => _ end] => destruct x
          | |- _ = _ -> _ => intro; first [discriminate | assumption]
          | |- forall _, _ => intro
          end);
  cbn in *; try exact I; try reflexivity.

Lemma start_awaits_le (E : Env) (ev : event) (p : proc response) :
  start E ev = Some p -> awaits_le p 6.
Proof.
  destruct ev; intros [= <-];
    unfold gated, verified, register_proc, login_proc, verify_otp_proc,
      verify_token_proc, refresh_token_proc, await; walk.
Qed.

Lemma irun_cons (E : Env) (iev : ievent) (ievs : list ievent) (x : istate) :
  irun E (iev :: ievs) x = irun E ievs (istep E x iev).
Proof. reflexivity. Qed.

Lemma irun_app (E : Env) (ievs1 ievs2 : list ievent) (x : istate) :
  irun E (ievs1 ++ ievs2) x = irun E ievs2 (irun E ievs1 x).
Proof. unfold irun. apply foldl_app. Qed.

Lemma irun_idle (E : Env) (k n : nat) (x : istate) :
  (length (flight x) <= n)%nat -> irun E (repeat (Resume n) k) x = x.
Proof.
  intros Hn. induction k as [|k IH]; [reflexivity|].
  cbn [repeat]. rewrite irun_cons. cbn [istep].
  rewrite lookup_ge_None_2 by exact Hn. exact IH.
Qed.

(** A request served with nothing in between does what its handler does in
    one step: the state is the one [step] gives, and the request has ended
    with the handler's outcome. *)
Lemma irun_serve (E : Env) (ev : event) (s : state) (fl : list (proc response)) :
  irun E (serve ev (length fl)) (mkI s fl)
  = mkI (step E s ev)
        (fl ++ match handler E ev with
               | Some m => [plift (m s).1]
               | None => []
               end).
Proof.
  unfold serve. rewrite irun_cons.
  pose proof (complete_start E ev s) as Hc.
  pose proof (start_awaits_le E ev) as Hn.
  cbn [istep server flight].
  destruct (start E ev) as [p|] eqn:Hs.
  - destruct (handler E ev) as [m|] eqn:Hh; [|destruct Hc].
    destruct (to_await E p s) as [p' s'] eqn:Ht.
    rewrite irun_resumes. rewrite <- Ht, (drive E p 6 s (Hn p eq_refl)), Hc.
    cbn [fst snd]. f_equal.
    destruct ev; cbn [step]; try discriminate; rewrite Hh; reflexivity.
  - destruct (handler E ev) as [m|] eqn:Hh; [destruct Hc|].
    rewrite app_nil_r. apply irun_idle. cbn. lia.
Qed.

(** The server of before is the server with requests in flight, on the
    schedules that serve one request at a time. *)
Lemma irun_serial (E : Env) (evs : list event) (s : state) (fl : list (proc response)) :
  server (irun E (serial E evs (length fl)) (mkI s fl)) = run E evs s.
Proof.
  revert s fl. induction evs as [|ev evs IH]; intros s fl; [reflexivity|].
  cbn [serial]. rewrite irun_app, irun_serve, run_cons.
  pose proof (complete_start E ev s) as Hc.
  destruct (start E ev) as [p|]; destruct (handler E ev) as [m|];
    try (exfalso; exact Hc).
  - rewrite <- (IH (step E s ev) (fl ++ [plift (m s).1])%list).
    rewrite length_app. cbn [length]. rewrite Nat.add_1_r. reflexivity.
  - rewrite app_nil_r. apply IH.
Qed.

(** ** The OTP records under interleaving *)

Lemma filter_insert_count {A} (f : A -> bool) (l : list A) (i : nat) (x y : A) :
  l !! i = Some x ->
  (length (List.filter f (<[i := y]> l)) + (if f x then 1 else 0)
   = length (List.filter f l) + (if f y then 1 else 0))%nat.
Proof.
  revert i. induction l as [|a l IH]; intros i Hi; [discriminate|].
  destruct i as [|i]; cbn in *.
  - injection Hi as ->. clear IH.
    destruct (f x), (f y); cbn; rewrite ?Nat.add_0_r, ?Nat.add_1_r; reflexivity.
  - specialize (IH i Hi). destruct (f a); cbn; rewrite ?IH; try exact IH.
    rewrite <- IH. reflexivity.
Qed.









(** ** One request at a time is exclusive *)






(** ** Logging in again *)




(** ** The accounts under interleaving *)

Lemma exec_accounts (E : Env) {X} (a : string) (op : io X) (s : state) :
  accounts a (exec E op s).2
  = if creates_user a op then S (accounts a s) else accounts a s.
Proof.
  unfold accounts. destruct op; cbn -[List.filter]; try reflexivity.
  - unfold User.create. rewrite List.filter_app, length_app. cbn.
    case_bool_decide; cbn; lia.
  - unfold createEtherealTransporter. destruct (ethereal_configured E); [reflexivity|].
    destruct acct; reflexivity.
  - destruct sent; reflexivity.
Qed.

Lemma find_None_filter {A} (f : A -> bool) (l : list A) :
  List.find f l = None -> List.filter f l = [].
Proof.
  induction l as [|x l IH]; cbn; [reflexivity|].
  destruct (f x); [discriminate|exact IH].
Qed.

Lemma exec_finds_none (E : Env) {X} (a : string) (op : io X) (s : state) :
  finds_none E a op (exec E op s).1 = true -> accounts a s = 0%nat.
Proof.
  destruct op; cbn; try discriminate.
  intros H. apply andb_true_iff in H as [Ha Hn].
  apply bool_decide_eq_true in Ha. subst a. unfold accounts.
  destruct (User.findOne (user_email_setter E e) (users s)) eqn:Hf; [discriminate|].
  unfold User.findOne in Hf. rewrite (find_None_filter _ _ Hf). reflexivity.
Qed.

Lemma op_kinds (E : Env) {X} (a : string) (op : io X) :
  (yields op = false ->
   creates_user a op = false /\ hashes op = false
   /\ forall o, finds_none E a op o = false)
  /\ (hashes op = true -> creates_user a op = false)
  /\ (forall o, finds_none E a op o = true -> creates_user a op = false).
Proof. destruct op; cbn; repeat split; intros; try discriminate; reflexivity. Qed.

Lemma about_to_register_create (E : Env) {A X} (a : string) (op : io X)
    (k : outcome X -> proc A) :
  creates_user a op = true -> about_to_register E a (Await op k) = true.
Proof. destruct op; cbn; intros H; try discriminate; exact H. Qed.

Lemma about_to_register_head (E : Env) {A X} (a : string) (op : io X)
    (k : outcome X -> proc A) :
  about_to_register E a (Await op k) = true ->
  creates_user a op = true \/ hashes op = true.
Proof. destruct op; cbn; intros H; try discriminate; auto. Qed.

Lemma to_await_accounts (E : Env) {A} (a : string) (p : proc A) (s : state) :
  tame_reg E a p ->
  accounts a (to_await E p s).2 = accounts a s
  /\ tame_reg E a (to_await E p s).1
  /\ (about_to_register E a (to_await E p s).1 = true -> about_to_register E a p = true).
Proof.
  revert s. induction p as [x|x|X op k IH]; intros s Ht; cbn [to_await]; auto.
  destruct (yields op) eqn:Hy; [auto|].
  destruct (proj1 (op_kinds E a op) Hy) as (Hc & Hh & Hf).
  pose proof (exec_accounts E a op s) as Hl. rewrite Hc in Hl.
  destruct (exec E op s) as [o s'] eqn:Hx. cbn [snd] in Hl.
  destruct (Ht o) as [Hk Hprev].
  destruct (IH o s' Hk) as (Hl' & Ht' & Hab).
  split; [congruence|]. split; [exact Ht'|].
  intros Habout. apply Hab, Hprev in Habout. rewrite Hh, Hf in Habout.
  destruct Habout; discriminate.
Qed.

Ltac walk_reg :=
  repeat (cbn in *;
          match goal with
          | |- forall _ : outcome _, _ => intro
          | |- _ /\ _ => split
          | |- context [plift ?o] => destruct o
          | |- context [on_error_proc ?e] => destruct e
          | |- context [match ?x with _ => _ end] => destruct x
          | |- _ = _ -> _ =>
              let H := fresh in
              intro H;
              first [discriminate H
                    | left; rewrite H; reflexivity
                    | right; rewrite H; reflexivity]
          | |- forall _, _ => intro
          end);
  cbn in *; try exact I; try reflexivity.

Lemma start_tame_reg (E : Env) (a : string) (ev : event) (p : proc response) :
  start E ev = Some p -> tame_reg E a p /\ about_to_register E a p = false.
Proof.
  destruct ev; intros [= <-]; (split; [|try reflexivity]);
    unfold gated, verified, register_proc, login_proc, verify_otp_proc,
      verify_token_proc, refresh_token_proc, await; walk_reg.
Qed.

Lemma arrive_one_account (E : Env) (a : string) (x : istate) (p : proc response) :
  tame_reg E a p -> about_to_register E a p = false ->
  one_account E a x ->
  one_account E a (let '(p', s') := to_await E p (server x) in mkI s' (flight x ++ [p'])).
Proof.
  intros Hp Hab [Hsum Ht].
  destruct (to_await_accounts E a p (server x) Hp) as (Hl & Hp' & Hab').
  destruct (to_await E p (server x)) as [p' s']. cbn [fst snd] in *.
  assert (Hb : about_to_register E a p' = false).
  { destruct (about_to_register E a p'); [|reflexivity]. rewrite Hab' in Hab; auto. }
  split.
  - unfold registrants in *. cbn [server flight].
    rewrite List.filter_app, length_app. cbn [List.filter]. rewrite Hb. cbn [length].
    rewrite Hl, Nat.add_0_r. exact Hsum.
  - cbn [flight]. apply Forall_app. split; [exact Ht|]. constructor; [exact Hp'|constructor].
Qed.

Lemma accounts_drop_user (a id : string) (s : state) :
  (accounts a (drop_user id s) <= accounts a s)%nat.
Proof.
  unfold accounts, drop_user. cbn [users].
  induction (users s) as [|u l IH]; cbn; [lia|].
  destruct (negb (bool_decide (User._id u = id))); cbn;
    destruct (bool_decide (User.email u = a)); cbn; lia.
Qed.

(** One step of the server keeps the balance of accounts and registrations,
    provided it does not bring a second request between its look-up and its
    [User.create]. *)
Lemma istep_one_account (E : Env) (a : string) (x : istate) (iev : ievent) :
  one_account E a x ->
  (registrants E a (istep E x iev) <= 1)%nat ->
  one_account E a (istep E x iev).
Proof.
  intros Hinv Hex. destruct iev as [ev|i].
  - pose proof (start_tame_reg E a ev) as Hst. cbn [istep] in *.
    destruct (start E ev) as [p|] eqn:Hs.
    + destruct (Hst p eq_refl) as [Hp Hab]. apply arrive_one_account; assumption.
    + destruct Hinv as [Hsum Ht]. split; [|exact Ht].
      unfold registrants in *. cbn [server flight].
      destruct ev; try discriminate Hs; cbn [step]; try exact Hsum.
      pose proof (accounts_drop_user a id (server x)). lia.
  - cbn [istep] in *. destruct (flight x !! i) as [p|] eqn:Hi; [|exact Hinv].
    destruct Hinv as [Hsum Ht].
    pose proof (Forall_lookup_1 _ _ _ _ Ht Hi) as Hp.
    unfold resume in *. cbn [fst snd] in *.
    destruct p as [r|ex|X op k].
    + rewrite list_insert_id by exact Hi. destruct x. split; assumption.
    + rewrite list_insert_id by exact Hi. destruct x. split; assumption.
    + pose proof (exec_accounts E a op (server x)) as Hl.
      pose proof (exec_finds_none E a op (server x)) as Hfn.
      destruct (op_kinds E a op) as (_ & Hhash & Hfind).
      destruct (exec E op (server x)) as [o s1]. cbn [fst snd] in Hl, Hfn.
      cbn [tame_reg] in Hp. destruct (Hp o) as [Hk Hprev].
      destruct (to_await_accounts E a (k o) s1 Hk) as (Hl2 & Ht2 & Hab2).
      pose proof (filter_insert_count (about_to_register E a) (flight x) i (Await op k)
                    (to_await E (k o) s1).1 Hi) as Hcnt.
      destruct (to_await E (k o) s1) as [p' s2]. cbn [fst snd] in *.
      split; [|apply Forall_insert; assumption].
      unfold registrants in *. cbn [server flight] in *.
      rewrite Hl2, Hl.
      destruct (about_to_register E a p') eqn:Hb.
      * destruct (Hprev (Hab2 eq_refl)) as [Hh|Hf].
        -- apply andb_true_iff in Hh as [Hh Hold].
           rewrite (Hhash Hh). rewrite Hold in Hcnt. lia.
        -- rewrite (Hfind o Hf). rewrite (Hfn Hf). exact Hex.
      * destruct (creates_user a op) eqn:Hc.
        -- rewrite (about_to_register_create E a op k Hc) in Hcnt. lia.
        -- destruct (about_to_register E a (Await op k)); lia.
Qed.

Lemma irun_one_account (E : Env) (a : string) (ievs : list ievent) (x : istate) :
  one_account E a x -> exclusive_reg E a ievs x = true -> one_account E a (irun E ievs x).
Proof.
  revert x. induction ievs as [|iev ievs IH]; intros x Hinv Hex; [exact Hinv|].
  cbn [exclusive_reg] in Hex. apply andb_true_iff in Hex as [H1 Hrest].
  apply Nat.leb_le in H1. rewrite irun_cons.
  apply IH; [|exact Hrest]. apply istep_one_account; assumption.
Qed.

Lemma NoDup_accounts (l : list User.t) :
  List.NoDup (map User.email l)
  <-> forall a, (length (List.filter (fun u => bool_decide (User.email u = a)) l) <= 1)%nat.
Proof.
  induction l as [|u l IH]; cbn.
  - split; [intros _ a; lia|intros _; constructor].
  - rewrite NoDup_cons_iff, IH. split.
    + intros [Hnot Hall] a. specialize (Hall a). case_bool_decide as Ha; cbn; [|exact Hall].
      assert (List.filter (fun v => bool_decide (User.email v = a)) l = []) as ->; [|cbn; lia].
      destruct (List.filter _ l) as [|v r] eqn:Hf; [reflexivity|]. exfalso. apply Hnot.
      assert (In v (List.filter (fun v => bool_decide (User.email v = a)) l)) as Hin
        by (rewrite Hf; left; reflexivity).
      apply filter_In in Hin as [Hin Hv]. apply bool_decide_eq_true in Hv.
      apply in_map_iff. exists v. split; [congruence|exact Hin].
    + intros Hall. split.
      * intros Hin. apply in_map_iff in Hin as (v & Hv & Hin).
        specialize (Hall (User.email u)). rewrite bool_decide_true in Hall by reflexivity.
        cbn in Hall.
        assert (In v (List.filter (fun w => bool_decide (User.email w = User.email u)) l))
          as Hin' by (apply filter_In; split; [exact Hin|apply bool_decide_eq_true, Hv]).
        destruct (List.filter _ l); [destruct Hin'|cbn in Hall; lia].
      * intros a. specialize (Hall a). destruct (bool_decide (User.email u = a)); cbn in Hall; lia.
Qed.

Lemma exclusive_reg_app (E : Env) (a : string) (ievs1 ievs2 : list ievent) (x : istate) :
  exclusive_reg E a (ievs1 ++ ievs2) x
  = exclusive_reg E a ievs1 x && exclusive_reg E a ievs2 (irun E ievs1 x).
Proof.
  revert x. induction ievs1 as [|iev ievs1 IH]; intros x; [reflexivity|].
  cbn [app exclusive_reg]. rewrite irun_cons, IH, andb_assoc. reflexivity.
Qed.

Lemma filter_none {A} (f : A -> bool) (l : list A) :
  Forall (fun q => f q = false) l -> List.filter f l = [].
Proof.
  intros H. induction H as [|q l Hq _ IH]; [reflexivity|]. cbn. rewrite Hq. exact IH.
Qed.

Lemma registrants_snoc (E : Env) (a : string) (s : state) (fl : list (proc response))
    (p : proc response) :
  Forall (fun q => about_to_register E a q = false) fl ->
  (registrants E a (mkI s (fl ++ [p])) <= 1)%nat.
Proof.
  intros Hfl. unfold registrants. cbn [flight].
  rewrite List.filter_app, length_app, (filter_none _ _ Hfl).
  cbn. destruct (about_to_register E a p); cbn; lia.
Qed.

Lemma exclusive_reg_resumes (E : Env) (a : string) (k : nat) (fl : list (proc response))
    (p : proc response) (s : state) :
  Forall (fun q => about_to_register E a q = false) fl ->
  exclusive_reg E a (repeat (Resume (length fl)) k) (mkI s (fl ++ [p])) = true.
Proof.
  intros Hfl. revert p s. induction k as [|k IH]; intros p s; [reflexivity|].
  cbn [repeat exclusive_reg].
  pose proof (irun_resumes E 1 fl p s) as H1. cbn [repeat] in H1.
  rewrite irun_cons in H1. cbn [irun foldl] in H1. rewrite H1.
  apply andb_true_iff. split; [apply Nat.leb_le, registrants_snoc, Hfl|apply IH].
Qed.

Lemma exclusive_reg_serve (E : Env) (a : string) (ev : event) (s : state)
    (fl : list (proc response)) :
  Forall (fun q => about_to_register E a q = false) fl ->
  exclusive_reg E a (serve ev (length fl)) (mkI s fl) = true.
Proof.
  intros Hfl. unfold serve. cbn [exclusive_reg istep server flight].
  destruct (start E ev) as [p|].
  - destruct (to_await E p s) as [p' s'].
    apply andb_true_iff. split; [apply Nat.leb_le, registrants_snoc, Hfl|].
    apply exclusive_reg_resumes, Hfl.
  - assert (Hzero : forall s', registrants E a (mkI s' fl) = 0%nat).
    { intros s'. unfold registrants. cbn [flight]. rewrite (filter_none _ _ Hfl). reflexivity. }
    rewrite Hzero. cbn [Nat.leb andb].
    generalize (step E s ev). intros s'. generalize 6%nat. intros k.
    induction k as [|k IH]; [reflexivity|].
    cbn [repeat exclusive_reg istep flight]. rewrite lookup_ge_None_2 by lia.
    rewrite Hzero. exact IH.
Qed.

Lemma exclusive_reg_serial (E : Env) (a : string) (evs : list event) (s : state)
    (fl : list (proc response)) :
  Forall (fun q => about_to_register E a q = false) fl ->
  exclusive_reg E a (serial E evs (length fl)) (mkI s fl) = true.
Proof.
  revert s fl. induction evs as [|ev evs IH]; intros s fl Hfl; [reflexivity|].
  cbn [serial]. rewrite exclusive_reg_app, irun_serve.
  rewrite (exclusive_reg_serve E a ev s fl Hfl). cbn [andb].
  pose proof (complete_start E ev s) as Hc.
  destruct (start E ev) as [p|]; destruct (handler E ev) as [m|];
    try (exfalso; exact Hc).
  - replace (S (length fl)) with (length (fl ++ [plift (m s).1])%list)
      by (rewrite length_app; cbn; lia).
    apply IH. apply Forall_app. split; [exact Hfl|].
    constructor; [|constructor]. destruct (m s).1; reflexivity.
  - rewrite app_nil_r. apply IH, Hfl.
Qed.

(** X5. The router gives no two accounts the same stored e-mail, as long as
    no two requests are, at the same time, between their look-up of an
    address and their [User.create] for it. For one address: if at most one
    account is stored under it at start-up it stays so along every such
    schedule; for all addresses, distinct stored addresses stay distinct.
    Serving the requests one after the other is such a schedule, so the
    accounts stay distinct in every run of [run]. *)
Theorem emails_stay_unique (E : Env) :
  (forall (ievs : list ievent) (t0 : Z) (us : list User.t) (a : string),
      (accounts a (boot t0 us) <= 1)%nat ->
      exclusive_reg E a ievs (iboot t0 us) = true ->
      (accounts a (server (irun E ievs (iboot t0 us))) <= 1)%nat)
  /\ (forall (ievs : list ievent) (t0 : Z) (us : list User.t),
        List.NoDup (map User.email us) ->
        (forall a, exclusive_reg E a ievs (iboot t0 us) = true) ->
        List.NoDup (map User.email (users (server (irun E ievs (iboot t0 us))))))
  /\ (forall (evs : list event) (t0 : Z) (us : list User.t) (a : string),
        exclusive_reg E a (serial E evs 0) (iboot t0 us) = true)
  /\ (forall (evs : list event) (t0 : Z) (us : list User.t),
        List.NoDup (map User.email us) ->
        List.NoDup (map User.email (users (run E evs (boot t0 us))))).
Proof.
  assert (Hone : forall ievs t0 us a,
             (accounts a (boot t0 us) <= 1)%nat ->
             exclusive_reg E a ievs (iboot t0 us) = true ->
             (accounts a (server (irun E ievs (iboot t0 us))) <= 1)%nat).
  { intros ievs t0 us a H0 Hex.
    assert (Hboot : one_account E a (iboot t0 us)).
    { split; [|constructor]. unfold registrants. cbn [iboot flight server List.filter length].
      rewrite Nat.add_0_r. exact H0. }
    destruct (irun_one_account E a ievs (iboot t0 us) Hboot Hex) as [Hsum _]. lia. }
  assert (Hser : forall evs t0 us a, exclusive_reg E a (serial E evs 0) (iboot t0 us) = true).
  { intros evs t0 us a. apply (exclusive_reg_serial E a evs (boot t0 us) []). constructor. }
  assert (Hall : forall ievs t0 us,
             List.NoDup (map User.email us) ->
             (forall a, exclusive_reg E a ievs (iboot t0 us) = true) ->
             List.NoDup (map User.email (users (server (irun E ievs (iboot t0 us)))))).
  { intros ievs t0 us Hnd Hex. apply NoDup_accounts. intros a.
    apply (Hone ievs t0 us a); [|apply Hex].
    apply (proj1 (NoDup_accounts us) Hnd). }
  split; [exact Hone|]. split; [exact Hall|]. split; [exact Hser|].
  intros evs t0 us Hnd.
  rewrite <- (irun_serial E evs (boot t0 us) []).
  apply (Hall (serial E evs 0) t0 us Hnd). intros a. apply Hser.
Qed.

Lemma emails_stay_unique_witness :
  (accounts "bob@x.com" (server (irun toyEnv staggered_reg (iboot 0 [ann]))) <= 1)%nat
  /\ List.NoDup (map User.email
                   (users (run toyEnv
                             [GetCsrfToken 5 (get_req "s");
                              PostRegister "u2" "s1:"
                                (req_of "s" tok5 (register_body "Bob" "bob@x.com" "secret9"));
                              PostRegister "u3" "s1:"
                                (req_of "s" tok5 (register_body "Rob" "bob@x.com" "secret8"))]
                             (boot 0 [ann])))).
Proof.
  split.
  - apply (proj1 (emails_stay_unique toyEnv) staggered_reg 0%Z [ann] "bob@x.com").
    + vm_compute. lia.
    + vm_compute. reflexivity.
  - apply (proj2 (proj2 (proj2 (emails_stay_unique toyEnv)))).
    repeat constructor; simpl; intuition.
Defined.

(** * The application in front of the router *)

Lemma hits_increment (key : string) (h : gmap string nat) :
  RateLimit.hits key (RateLimit.increment key h) = S (RateLimit.hits key h).
Proof. unfold RateLimit.increment, RateLimit.hits. rewrite lookup_insert_eq. reflexivity. Qed.

Lemma over_spec (o : RateLimit.options) (key : string) (h : gmap string nat) :
  RateLimit.over o key h = (RateLimit.max o <? S (RateLimit.hits key h))%nat.
Proof. unfold RateLimit.over. rewrite hits_increment. reflexivity. Qed.

Lemma post_verify_otp_statuses (E : Env) (req : request) :
  responds (status_in [200; 400; 401; 403; 404]) (post_verify_otp E req).
Proof. unfold post_verify_otp, verify_otp_handler. status_codes. Qed.

(** A verify-otp that is answered neither 200 nor 404 is answered 400, 401
    or 403: the limiter counts it. *)
Lemma failed_verify_otp_counted (E : Env) (req : request) (s : state) :
  status (answer (post_verify_otp E req) s) <> 200 ->
  status (answer (post_verify_otp E req) s) <> 404 ->
  RateLimit.requestWasSuccessful (answer (post_verify_otp E req) s) = false.
Proof.
  intros H200 H404. unfold RateLimit.requestWasSuccessful.
  destruct (post_verify_otp_statuses E req s) as (r & Hr & Hin).
  unfold answer in *. rewrite Hr in *. unfold status_in in Hin. cbn [In] in Hin.
  destruct Hin as [H|[H|[H|[H|[H|[]]]]]]; rewrite <- H in *;
    try reflexivity; contradiction.
Qed.

(** What the application does with a failed verify-otp. *)
Lemma app_serve_failed_verify_otp (E : Env) (req : request) (a : application) :
  status (answer (post_verify_otp E req) (router a)) <> 200 ->
  status (answer (post_verify_otp E req) (router a)) <> 404 ->
  app_serve E (PostVerifyOtp req) a
  = (Some (if RateLimit.over limiter (ip req) (limiterHits a)
           then Limited (RateLimit.message limiter)
           else if RateLimit.over authLimiter (ip req) (authLimiterHits a)
                then Limited (RateLimit.message authLimiter)
                else Routed (answer (post_verify_otp E req) (router a))),
     mkApp (RateLimit.increment (ip req) (limiterHits a))
           (if RateLimit.over limiter (ip req) (limiterHits a)
            then authLimiterHits a
            else RateLimit.increment (ip req) (authLimiterHits a))
           (router a)).
Proof.
  intros H200 H404. unfold app_serve. cbn [handler request_of]. unfold app_auth.
  destruct (RateLimit.over limiter (ip req) (limiterHits a)); [reflexivity|].
  destruct (RateLimit.over authLimiter (ip req) (authLimiterHits a)); [reflexivity|].
  unfold RateLimit.finish.
  rewrite (failed_verify_otp_counted E req (router a) H200 H404).
  rewrite andb_false_r. cbn [RateLimit.skipSuccessfulRequests limiter andb].
  rewrite (post_verify_otp_unchanged E req (router a) H200 H404). reflexivity.
Qed.

(** X11. Failed verify-otp attempts are counted by the limiter alone. Served
    in a row from one address, requests that the router answers neither 200
    nor 404 leave the router's state exactly as it was, however many they
    are: the router keeps no count and the stored code stays usable. The
    application lets them through while neither limiter is over its limit
    ([authLimiter]: 10 hits of the address in the window, [limiter]: 100) and
    answers 429 to every later one, so that of [n] such requests in a window
    at most ten reach the router. *)
Theorem failed_verify_otp_keeps_state (E : Env) (addr : string) (reqs : list request)
    (a : application) :
  Forall (fun req => ip req = addr
                     /\ status (answer (post_verify_otp E req) (router a)) <> 200
                     /\ status (answer (post_verify_otp E req) (router a)) <> 404) reqs ->
  router (app_run E (map (fun req => Request (PostVerifyOtp req)) reqs) a) = router a
  /\ forall j req, reqs !! j = Some req ->
       replies E (map PostVerifyOtp reqs) a !! j
       = Some (Some (if (RateLimit.max limiter
                         <? RateLimit.hits addr (limiterHits a) + S j)%nat
                     then Limited (RateLimit.message limiter)
                     else if (RateLimit.max authLimiter
                              <? RateLimit.hits addr (authLimiterHits a) + S j)%nat
                          then Limited (RateLimit.message authLimiter)
                          else Routed (answer (post_verify_otp E req) (router a)))).
Proof.
  revert a. induction reqs as [|req reqs IH]; intros a Hall.
  - split; [reflexivity|]. intros j req Hj. discriminate.
  - apply Forall_cons in Hall as [(Hip & H200 & H404) Hrest].
    pose proof (app_serve_failed_verify_otp E req a H200 H404) as Hserve.
    rewrite Hip, !over_spec in Hserve.
    set (a' := (app_serve E (PostVerifyOtp req) a).2) in *.
    assert (Hr : router a' = router a) by (unfold a'; rewrite Hserve; reflexivity).
    assert (Hg : RateLimit.hits addr (limiterHits a') = S (RateLimit.hits addr (limiterHits a)))
      by (unfold a'; rewrite Hserve; cbn [snd limiterHits]; apply hits_increment).
    assert (Hah : (RateLimit.max limiter <? S (RateLimit.hits addr (limiterHits a)))%nat = false ->
                  RateLimit.hits addr (authLimiterHits a')
                  = S (RateLimit.hits addr (authLimiterHits a))).
    { intros Hlow. unfold a'. rewrite Hserve. cbn [snd authLimiterHits]. rewrite Hlow.
      apply hits_increment. }
    rewrite <- Hr in Hrest. destruct (IH a' Hrest) as [IHr IHj].
    split.
    + cbn [map app_run foldl app_step]. fold (app_run E). fold a'.
      rewrite <- Hr. exact IHr.
    + assert (Hrep : replies E (map PostVerifyOtp (req :: reqs)) a
                     = (app_serve E (PostVerifyOtp req) a).1
                       :: replies E (map PostVerifyOtp reqs) a') by reflexivity.
      rewrite Hrep. intros [|j] req' Hj.
      * change (Some req = Some req') in Hj. injection Hj as <-.
        change (Some (app_serve E (PostVerifyOtp req) a).1 = Some (Some
                  (if (RateLimit.max limiter <? RateLimit.hits addr (limiterHits a) + 1)%nat
                   then Limited (RateLimit.message limiter)
                   else if (RateLimit.max authLimiter
                            <? RateLimit.hits addr (authLimiterHits a) + 1)%nat
                        then Limited (RateLimit.message authLimiter)
                        else Routed (answer (post_verify_otp E req) (router a))))).
        rewrite Hserve. cbn [fst]. rewrite !Nat.add_1_r. reflexivity.
      * change (reqs !! j = Some req') in Hj.
        change (replies E (map PostVerifyOtp reqs) a' !! j = Some (Some
                  (if (RateLimit.max limiter
                       <? RateLimit.hits addr (limiterHits a) + S (S j))%nat
                   then Limited (RateLimit.message limiter)
                   else if (RateLimit.max authLimiter
                            <? RateLimit.hits addr (authLimiterHits a) + S (S j))%nat
                        then Limited (RateLimit.message authLimiter)
                        else Routed (answer (post_verify_otp E req') (router a))))).
        rewrite (IHj j req' Hj), Hg, Hr.
        replace (S (RateLimit.hits addr (limiterHits a)) + S j)%nat
          with (RateLimit.hits addr (limiterHits a) + S (S j))%nat by lia.
        destruct (RateLimit.max limiter <? RateLimit.hits addr (limiterHits a) + S (S j))%nat
          eqn:Hover; [reflexivity|].
        rewrite Hah.
        -- replace (S (RateLimit.hits addr (authLimiterHits a)) + S j)%nat
             with (RateLimit.hits addr (authLimiterHits a) + S (S j))%nat by lia.
           reflexivity.
        -- apply Nat.ltb_ge in Hover. apply Nat.ltb_ge. lia.
Qed.

Lemma failed_verify_otp_keeps_state_witness :
  let a := mkApp ∅ ∅ scene_logged_in in
  let reqs := repeat (verify_ann "000000") 12 in
  router (app_run toyEnv (map (fun req => Request (PostVerifyOtp req)) reqs) a)
  = scene_logged_in
  /\ replies toyEnv (map PostVerifyOtp reqs) a !! 9%nat
     = Some (Some (Routed (res_error 401 "Invalid or expired code")))
  /\ replies toyEnv (map PostVerifyOtp reqs) a !! 10%nat
     = Some (Some (Limited "Too many authentication attempts, please try again later.")).
Proof.
  cbv zeta.
  destruct (failed_verify_otp_keeps_state toyEnv "10.0.0.7"
              (repeat (verify_ann "000000") 12) (mkApp ∅ ∅ scene_logged_in))
    as [Hr Hj].
  - repeat constructor; vm_compute; discriminate.
  - split; [exact Hr|]. split.
    + rewrite (Hj 9%nat (verify_ann "000000") eq_refl). vm_compute. reflexivity.
    + rewrite (Hj 10%nat (verify_ann "000000") eq_refl). vm_compute. reflexivity.
Defined.

(** The client through [via_router] is the client of before. *)
Lemma submitCreds_via_router (E : Env) (addr : string) (rnd_csrf rnd_code : N)
    (acct : option string) (sent : option (option string)) (w : client) (s : state) :
  submitCreds_via via_router E addr rnd_csrf rnd_code acct sent w s
  = submitCreds E addr rnd_csrf rnd_code acct sent w s.
Proof.
  unfold submitCreds_via, submitCreds, getAuthCSRFToken_via, CSRFService.getAuthCSRFToken,
    via_router.
  destruct (Js.truthy (CSRFService.authToken (csrf w))); [reflexivity|].
  destruct (axios_ok _); reflexivity.
Qed.

(** X16. The login page never renews its CSRF token. A tab fetches its token;
    once the router's clock is five minutes past that (and the router has not
    drawn the very same token again for the session), no submission of the
    credentials form succeeds, whatever is typed and whatever the limiters
    have counted: while neither limiter is over its limit the router answers
    403 and the page shows "Invalid CSRF token"; once one is, the
    application answers 429 and the page shows "Login failed". In both cases
    the page stays on its step, the service keeps its dead token, the
    router's state is unchanged and the address has one more hit, so the next
    submission fares no better. [evs2] are the events that reach the router
    after the fetch. *)
Theorem login_page_stale_csrf (E : Env) (addr r36 t36 : string) (rnd : N)
    (evs1 evs2 : list event) (t0 : Z) (us : list User.t) :
  let c0 := CSRFService.new r36 t36 in
  let s0 := run E evs1 (boot t0 us) in
  let got := CSRFService.getAuthCSRFToken addr rnd c0 s0 in
  let c1 := got.1.2 in
  let s := run E evs2 got.2 in
  existsb (issues (CSRFService.sessionId c0) (generateCSRFToken rnd)) evs2 = false ->
  (clock s0 + CSRF_TTL <= clock s)%Z ->
  forall (p : Login.t) (x : Auth.session) (rnd_csrf rnd_code : N)
         (acct : option string) (sent : option (option string))
         (g ah : gmap string nat),
    let limited := RateLimit.over limiter addr g || RateLimit.over authLimiter addr ah in
    let shown := if limited then "Login failed" else "Invalid CSRF token" in
    let r := submitCreds_via app_auth E addr rnd_csrf rnd_code acct sent
                             (mkClient c1 p x) (mkApp g ah s) in
    r.1 = mkClient c1 (Login.settle p (Login.step p) shown (Login.previewUrl p)) x
    /\ router r.2 = s
    /\ RateLimit.hits addr (limiterHits r.2) = S (RateLimit.hits addr g)
    /\ (RateLimit.over limiter addr g = false ->
        RateLimit.hits addr (authLimiterHits r.2) = S (RateLimit.hits addr ah)).
Proof.
  cbv zeta.
  assert (Hsid : Js.nonempty (CSRFService.sessionId (CSRFService.new r36 t36)) = true)
    by reflexivity.
  pose proof (generateCSRFToken_nonempty rnd) as Hne.
  rewrite (getAuthCSRFToken_fetch addr rnd (CSRFService.new r36 t36) _ eq_refl Hsid).
  cbn [fst snd]. intros Hev Hlate p x rnd_csrf rnd_code acct sent g ah.
  set (c1 := CSRFService.mk (Some (generateCSRFToken rnd))
                            (CSRFService.apiToken (CSRFService.new r36 t36))
                            (CSRFService.sessionId (CSRFService.new r36 t36))).
  set (sid := CSRFService.sessionId (CSRFService.new r36 t36)) in *.
  set (s := run E evs2 (after (get_csrf_token rnd (get_req sid)) (run E evs1 (boot t0 us)))) in *.
  assert (Hdead : csrfTokens s !! sid <> Some (generateCSRFToken rnd)).
  { pose proof (csrf_token_dead_after_ttl E (run E evs1 (boot t0 us)) rnd (get_req sid) evs2
                  (run_timers_ahead E evs1 t0 us)) as H.
    rewrite (get_req_sessionId sid Hsid) in H. exact (H Hev Hlate). }
  destruct (json_post_session c1 addr
              (login_body (Login.email p) (Login.password p))
              (generateCSRFToken rnd) eq_refl Hne Hsid) as [Hs Hh].
  assert (Hblock : post_login E rnd_code acct sent
                     (json_post c1 addr (login_body (Login.email p) (Login.password p))) s
                   = (Val (res_error 403 "Invalid CSRF token"), s)).
  { unfold post_login. apply (validateCSRF_invalid _ _ _ _ Hh Hne).
    rewrite Hs. exact Hdead. }
  assert (Htruthy : Js.truthy (CSRFService.authToken c1) = true) by exact Hne.
  set (shown := if RateLimit.over limiter addr g || RateLimit.over authLimiter addr ah
                then "Login failed" else "Invalid CSRF token").
  assert (Hrun : submitCreds_via app_auth E addr rnd_csrf rnd_code acct sent
                                 (mkClient c1 p x) (mkApp g ah s)
                 = (mkClient c1 (Login.settle p (Login.step p) shown (Login.previewUrl p)) x,
                    mkApp (RateLimit.increment addr g)
                          (if RateLimit.over limiter addr g then ah
                           else RateLimit.increment addr ah)
                          s)).
  { unfold submitCreds_via, getAuthCSRFToken_via. cbn [csrf page session].
    rewrite Htruthy. cbv beta iota zeta. unfold app_auth.
    cbn [limiterHits authLimiterHits router ip json_post]. unfold shown.
    destruct (RateLimit.over limiter addr g); [reflexivity|].
    destruct (RateLimit.over authLimiter addr ah); [reflexivity|].
    fold (json_post c1 addr (login_body (Login.email p) (Login.password p))).
    unfold answer, after. rewrite Hblock. reflexivity. }
  rewrite Hrun. cbn [fst snd router limiterHits authLimiterHits].
  split; [reflexivity|]. split; [reflexivity|].
  split; [apply hits_increment|]. intros ->. apply hits_increment.
Qed.

Lemma login_page_stale_csrf_witness :
  let got := CSRFService.getAuthCSRFToken "10.0.0.7" 5 (CSRFService.new "k3x9q2m1a" "lq2z8r1c")
                                          (boot 0 [ann]) in
  let s := run toyEnv [Advance 300000] got.2 in
  let w := type_creds "ann@x.com" "secret1"
             (mkClient got.1.2 Login.initial
                       (Auth.mkSession Auth.signed_out Auth.empty "/login")) in
  Login.error (page (submitCreds_via app_auth toyEnv "10.0.0.7" 6 42
                                     (Some "test@ethereal.email") (Some None) w
                                     (mkApp ∅ ∅ s)).1)
  = "Invalid CSRF token"
  /\ Login.error (page (submitCreds_via app_auth toyEnv "10.0.0.7" 6 42
                                        (Some "test@ethereal.email") (Some None) w
                                        (mkApp ∅ (<["10.0.0.7" := 10%nat]> ∅) s)).1)
     = "Login failed".
Proof.
  cbv zeta.
  pose proof (login_page_stale_csrf toyEnv "10.0.0.7" "k3x9q2m1a" "lq2z8r1c" 5 []
                [Advance 300000] 0 [ann] ltac:(vm_compute; reflexivity)
                ltac:(vm_compute; discriminate)) as H.
  cbv zeta in H. unfold type_creds. cbn [csrf page session]. split.
  - destruct (H (Login.mk (Login.step Login.initial) "ann@x.com" "secret1"
                          (Login.otp Login.initial) (Login.loading Login.initial)
                          (Login.error Login.initial) (Login.previewUrl Login.initial))
                (Auth.mkSession Auth.signed_out Auth.empty "/login")
                6%N 42%N (Some "test@ethereal.email") (Some None) ∅ ∅) as [H1 _].
    exact (f_equal (fun c => Login.error (page c)) H1).
  - destruct (H (Login.mk (Login.step Login.initial) "ann@x.com" "secret1"
                          (Login.otp Login.initial) (Login.loading Login.initial)
                          (Login.error Login.initial) (Login.previewUrl Login.initial))
                (Auth.mkSession Auth.signed_out Auth.empty "/login")
                6%N 42%N (Some "test@ethereal.email") (Some None)
                ∅ (<["10.0.0.7" := 10%nat]> ∅)) as [H1 _].
    exact (f_equal (fun c => Login.error (page c)) H1).
Defined.
